(** * Verification of [packages/scripts/update.py]

    A shallow embedding of the [DockerUpdater] class: version resolution,
    the retrying fetcher, the release-asset locator, the per-architecture
    orchestrator, the reconciler and the checksum manifest writer.

    Conventions of the embedding.
    - Python [str] values and file contents are [string]s whose characters
      are 8-bit [ascii] codes; [\d] is [0-9] on them.
    - The output directory is a finite map from file names to entries.
    - The network, [hashlib] and the iteration order of a Python [set] are
      the parameters of the model; every effect of a method (request, sleep,
      log line, chmod) is appended to a trace kept in the state.
    - A line that [log] prints and appends to the log file of the run is an
      event of the trace; the progress lines that [download_file] prints
      are left out. *)

From Stdlib Require Import ZArith String Ascii List Lia Bool.
From stdpp Require Import base option list gmap strings sorting.
Import ListNotations.

Local Open Scope Z_scope.

(** ** Python string operations *)

Module Str.

(** [c.isdigit()] on an ASCII character: the class [\d]. *)
Definition is_digit (c : ascii) : bool :=
  let n := N_of_ascii c in (48 <=? n)%N && (n <=? 57)%N.

(** [s[len(p):]] when [s.startswith(p)], the way a literal of a regular
    expression consumes its characters. *)
Fixpoint strip_prefix (p s : string) : option string :=
  match p, s with
  | EmptyString, _ => Some s
  | String a p', String b s' =>
      if Ascii.eqb a b then strip_prefix p' s' else None
  | String _ _, EmptyString => None
  end.

(** [s.startswith(p)]. *)
Definition startswith (p s : string) : bool :=
  match strip_prefix p s with Some _ => true | None => false end.

(** [sub in s]. *)
Fixpoint contains (sub s : string) : bool :=
  startswith sub s ||
  match s with
  | EmptyString => false
  | String _ s' => contains sub s'
  end.

(** [s[n:]]. *)
Fixpoint drop (n : nat) (s : string) : string :=
  match n, s with
  | O, _ => s
  | S n', String _ s' => drop n' s'
  | S _, EmptyString => EmptyString
  end.

(** [s.rfind(c)], [None] standing for [-1]. *)
Fixpoint rfind (c : ascii) (s : string) : option nat :=
  match s with
  | EmptyString => None
  | String d s' =>
      match rfind c s' with
      | Some i => Some (S i)
      | None => if Ascii.eqb d c then Some O else None
      end
  end.

(** [s.split(c)]. *)
Fixpoint split (c : ascii) (s : string) : list string :=
  match s with
  | EmptyString => [EmptyString]
  | String d s' =>
      if Ascii.eqb d c then EmptyString :: split c s'
      else match split c s' with
           | w :: ws => String d w :: ws
           | [] => [String d EmptyString]
           end
  end.

(** [int(s)] on a string of decimal digits. *)
Definition digit_value (c : ascii) : Z := Z.of_N (N_of_ascii c) - 48.

Fixpoint int_go (acc : Z) (s : string) : Z :=
  match s with
  | EmptyString => acc
  | String c s' => int_go (10 * acc + digit_value c) s'
  end.

Definition int (s : string) : Z := int_go 0 s.

(** [PurePath(name).suffix]: the last dot and what follows it, unless the
    dot is the first or the last character. *)
Definition suffix (name : string) : string :=
  match rfind "." name with
  | Some i =>
      if (0 <? i)%nat && (i <? String.length name - 1)%nat
      then drop i name else EmptyString
  | None => EmptyString
  end.

(** [fnmatch] of a file name against a pattern whose only wildcard is
    [*]; the patterns of this program hold no [?] and no bracket. *)
Fixpoint fnmatch (pat name : string) : bool :=
  match pat with
  | EmptyString =>
      match name with EmptyString => true | String _ _ => false end
  | String c pat' =>
      if Ascii.eqb c "*" then
        (fix star (n : string) : bool :=
           fnmatch pat' n ||
           match n with
           | EmptyString => false
           | String _ n' => star n'
           end) name
      else
        match name with
        | String d name' => Ascii.eqb c d && fnmatch pat' name'
        | EmptyString => false
        end
  end.

End Str.

(** ** The regular expressions of the program *)

Module Re.

(** The longest run of digits at the head of [s], and the rest. *)
Fixpoint span_digits (s : string) : string * string :=
  match s with
  | String c s' =>
      if Str.is_digit c
      then let '(d, r) := span_digits s' in (String c d, r)
      else (EmptyString, s)
  | EmptyString => (EmptyString, EmptyString)
  end.

(** [\d+] followed by something that is not a digit: the greedy run is
    the only candidate, since giving a digit back leaves a digit where
    the next literal is expected. *)
Definition digits1 (s : string) : option (string * string) :=
  match span_digits s with
  | (EmptyString, _) => None
  | (d, r) => Some (d, r)
  end.

(** [(\d+\.\d+\.\d+)]: the group and the rest of the subject. In the four
    patterns of the program the group is followed by [.] or [-]. *)
Definition version (s : string) : option (string * string) :=
  '(d1, r1) ← digits1 s;
  r1 ← Str.strip_prefix "." r1;
  '(d2, r2) ← digits1 r1;
  r2 ← Str.strip_prefix "." r2;
  '(d3, r3) ← digits1 r2;
  Some (d1 +:+ "." +:+ d2 +:+ "." +:+ d3, r3).

(** [pre(\d+\.\d+\.\d+)post] at the head of [s]: the group and the
    length of the match. *)
Definition listing_entry (pre post s : string) : option (string * nat) :=
  r ← Str.strip_prefix pre s;
  '(v, r) ← version r;
  _ ← Str.strip_prefix post r;
  Some (v, (String.length pre + String.length v + String.length post)%nat).

(** [re.findall(pre(\d+\.\d+\.\d+)post, s)]: the groups of the matches
    found from left to right, the search resuming where a match ended
    ([skip] characters of the last match are still to pass). *)
Fixpoint findall_go (pre post : string) (skip : nat) (s : string)
  : list string :=
  match s with
  | EmptyString => []
  | String _ s' =>
      match skip with
      | S k => findall_go pre post k s'
      | O =>
          match listing_entry pre post s with
          | Some (v, len) => v :: findall_go pre post (len - 1) s'
          | None => findall_go pre post 0 s'
          end
      end
  end.

Definition findall (pre post s : string) : list string :=
  findall_go pre post 0 s.

Definition newline : ascii := Ascii.ascii_of_N 10.

(** [.+lit] at the head of [s]: one or more characters other than a
    newline, then [lit]. *)
Fixpoint dotplus_then (lit s : string) : bool :=
  match s with
  | EmptyString => false
  | String c s' =>
      negb (Ascii.eqb c newline) &&
      (Str.startswith lit s' || dotplus_then lit s')
  end.

(** [re.match(pre(\d+\.\d+\.\d+)-.+post, name)]: [group(1)]. The match is
    anchored at the start of [name] only. *)
Definition match_versioned (pre post name : string) : option string :=
  r ← Str.strip_prefix pre name;
  '(v, r) ← version r;
  r ← Str.strip_prefix "-" r;
  if dotplus_then post r then Some v else None.

End Re.

(** ** Versions and their order *)

(** [tuple(map(int, v.split('.')))]. *)
Definition version_key (v : string) : list Z := map Str.int (Str.split "." v).

(** Comparison of two Python tuples of integers. *)
Fixpoint tuple_compare (a b : list Z) : comparison :=
  match a, b with
  | [], [] => Eq
  | [], _ :: _ => Lt
  | _ :: _, [] => Gt
  | x :: a', y :: b' =>
      match x ?= y with
      | Eq => tuple_compare a' b'
      | c => c
      end
  end.

(** [version_key a <= version_key b]. *)
Definition key_le (a b : string) : bool :=
  match tuple_compare (version_key a) (version_key b) with
  | Gt => false
  | _ => true
  end.

(** [sorted(l, key=version_key, reverse=True)]: a stable sort, so that of
    two entries with the same key the one met first stays first. *)
Fixpoint insert_desc (x : string) (l : list string) : list string :=
  match l with
  | [] => [x]
  | y :: l' => if key_le y x then x :: y :: l' else y :: insert_desc x l'
  end.

Definition sorted_desc (l : list string) : list string :=
  foldr insert_desc [] l.

(** ** Architectures *)

(** The keys of [self.arch_mapping]; [main] accepts no other. *)
Inductive arch := X86_64 | Aarch64.

Definition arch_name (a : arch) : string :=
  match a with
  | X86_64 => "x86_64"
  | Aarch64 => "aarch64"
  end.

Record arch_info := {
  docker_arch : string;
  compose_arch : string;
  display_name : string
}.

Definition arch_mapping (a : arch) : arch_info :=
  match a with
  | X86_64 =>
      {| docker_arch := "x86_64"; compose_arch := "x86_64";
         display_name := "x86_64 (AMD64)" |}
  | Aarch64 =>
      {| docker_arch := "aarch64"; compose_arch := "aarch64";
         display_name := "ARM64 (aarch64)" |}
  end.

(** The URL templates of [__init__]. *)
Definition docker_url_template (arch version : string) : string :=
  "https://download.docker.com/linux/static/stable/" +:+ arch
    +:+ "/docker-" +:+ version +:+ ".tgz".

Definition rootless_url_template (arch version : string) : string :=
  "https://download.docker.com/linux/static/stable/" +:+ arch
    +:+ "/docker-rootless-extras-" +:+ version +:+ ".tgz".

Definition index_url (arch : string) : string :=
  "https://download.docker.com/linux/static/stable/" +:+ arch +:+ "/".

Definition release_api_url (version : string) : string :=
  "https://api.github.com/repos/docker/compose/releases/tags/v" +:+ version.

(** ** The state of a run *)

(** An entry of the output directory. *)
Inductive entry :=
| File (content : string)
| Dir.

(** [self.download_stats]. *)
Record stats := {
  success : Z;
  failed : Z;
  skipped : Z;
  total_size : Z
}.

Inductive level := INFO | WARNING | ERROR | NOTICE.

(** The log lines of the methods modelled here, each with the values it
    interpolates. *)
Inductive message :=
| MsgSkipExisting (filename : string)
| MsgStart (description : string)
| MsgRetry (attempt max_retries : Z) (description : string)
| MsgUrl (url : string)
| MsgDone (description : string)
| MsgPath (filename : string)
| MsgSize (size : Z)
| MsgSha256 (digest : string)
| MsgHttpError (code : Z) (description : string)
| MsgDownloadFailed
| MsgWait (secs : Z)
| MsgListFailed
| MsgResolveFallback (desired arch fallback : string)
| MsgNoStaticVersion (arch desired : string)
| MsgAssetFailed
| MsgBanner
| MsgArchStart (name : string)
| MsgRootlessFallback (version name fallback : string)
| MsgArchDone (name : string) (success_count total_count : Z)
| MsgDeleted (filename : string)
| MsgCleanupFailed
| MsgChecksumsCreated.

(** What a method does besides changing the directory and the counters. *)
Inductive event :=
| Head (url : string)
| Get (url : string)
| Sleep (secs : Z)
| Chmod (filename : string) (mode : Z)
| Log (lvl : level) (msg : message).

Record world := {
  fs : gmap string entry;
  download_stats : stats;
  trace : list event
}.

(** An asset of a release, as the JSON of the release lists it:
    [asset.get('name', '')] and [asset.get('browser_download_url')]. *)
Record asset := {
  name : string;
  browser_download_url : option string
}.

(** What [urlopen] and the read loop of [download_file] can meet:
    - [HttpError code]: [urlopen] raises [HTTPError], before the
      destination is opened (the errors of [response.read] are of other
      classes);
    - [OpenFailure]: another exception before the destination is opened
      (no connection, time-out, a content length that is no integer);
    - [ReadFailure partial]: the read loop raises after [partial] was
      written to the destination;
    - [Body content]: the whole body is read and written. *)
Inductive response :=
| HttpError (code : Z)
| OpenFailure
| ReadFailure (partial : string)
| Body (content : string).

(** The network: the answer to each kind of request, given the number of
    requests made before it and the URL. [head_ok] is whether the [HEAD]
    request of [check_url_exists] succeeds, [index_page] the decoded page
    of a version index, [release_assets] the list under ['assets'] of the
    JSON of a release, both [None] when the request or the decoding
    raises. *)
Record network := {
  head_ok : nat -> string -> bool;
  index_page : nat -> string -> option string;
  release_assets : nat -> string -> option (list asset);
  fetch : nat -> string -> response
}.

Definition is_request (e : event) : bool :=
  match e with
  | Head _ | Get _ => true
  | _ => false
  end.

Definition is_log (e : event) : bool :=
  match e with
  | Log _ _ => true
  | _ => false
  end.

(** The requests of a trace, and its effects other than log lines. *)
Definition requests (t : list event) : list event := List.filter is_request t.
Definition effects (t : list event) : list event :=
  List.filter (fun e => negb (is_log e)) t.

Definition clock (w : world) : nat := length (requests (trace w)).

Definition emit (e : event) (w : world) : world :=
  {| fs := fs w; download_stats := download_stats w;
     trace := trace w ++ [e] |}.

Definition log (lvl : level) (msg : message) (w : world) : world :=
  emit (Log lvl msg) w.

Definition set_fs (m : gmap string entry) (w : world) : world :=
  {| fs := m; download_stats := download_stats w; trace := trace w |}.

Definition set_stats (s : stats) (w : world) : world :=
  {| fs := fs w; download_stats := s; trace := trace w |}.

(** [path.exists()], [path.unlink()] on a regular file, and the effect of
    [open(path, 'wb')] followed by the writes. *)
Definition path_exists (filename : string) (w : world) : bool :=
  bool_decide (is_Some (fs w !! filename)).

Definition unlink (filename : string) (w : world) : world :=
  set_fs (delete filename (fs w)) w.

Definition write_file (filename content : string) (w : world) : world :=
  set_fs (<[filename := File content]> (fs w)) w.

Definition incr_success (size : Z) (w : world) : world :=
  let s := download_stats w in
  set_stats {| success := success s + 1; failed := failed s;
               skipped := skipped s; total_size := total_size s + size |} w.

Definition incr_failed (w : world) : world :=
  let s := download_stats w in
  set_stats {| success := success s; failed := failed s + 1;
               skipped := skipped s; total_size := total_size s |} w.

Definition incr_skipped (w : world) : world :=
  let s := download_stats w in
  set_stats {| success := success s; failed := failed s;
               skipped := skipped s + 1; total_size := total_size s |} w.

(** The number of calls of [download_file] the counters account for. *)
Definition completed (w : world) : Z :=
  let s := download_stats w in success s + failed s + skipped s.

(** ** The methods of [DockerUpdater] *)

(** The result of one turn of the retry loop of [download_file]. *)
Inductive step :=
| Return (b : bool)
| Continue.

(** How a clean-up pass ends: normally, or in the handler of the
    [try] that wraps the whole of [cleanup_old_versions]. *)
Inductive outcome :=
| Finished (w : world)
| Raised (w : world).

(** [{"x86_64": ["amd64"], "aarch64": ["arm64"]}.get(arch, [])]. *)
Definition alt (arch : string) : list string :=
  if String.eqb arch "x86_64" then ["amd64"]
  else if String.eqb arch "aarch64" then ["arm64"]
  else [].

(** The list [names] of [get_compose_asset_url]. *)
Definition names (arch : string) : list string :=
  ["docker-compose-linux-" +:+ arch;
   "docker-compose-linux-" +:+ arch +:+ ".exe"]
  ++ flat_map (fun a => ["docker-compose-linux-" +:+ a;
                         "docker-compose-linux-" +:+ a +:+ ".exe"]) (alt arch).

(** The two tests the loop of [get_compose_asset_url] makes on an asset. *)
Definition exact_match (arch : string) (a : asset) : bool :=
  existsb (String.eqb (name a)) (names arch).

Definition substring_match (arch : string) (a : asset) : bool :=
  Str.startswith "docker-compose-linux-" (name a) &&
  (Str.contains arch (name a) ||
   existsb (fun x => Str.contains x (name a)) (alt arch)).

(** [for asset in assets: ...] of [get_compose_asset_url]. *)
Fixpoint asset_loop (arch : string) (assets : list asset) : option string :=
  match assets with
  | [] => None
  | a :: rest =>
      if exact_match arch a then browser_download_url a
      else if substring_match arch a then browser_download_url a
      else asset_loop arch rest
  end.

Definition line_feed : string := String Re.newline EmptyString.

Section Updater.

(** The answers of the network, [hashlib]'s SHA-256 as a hexadecimal
    string, and the order in which a Python [set] built from a list is
    iterated: some order of its distinct elements. *)
Variable net : network.
Variable sha256_hex : string -> string.
Variable set_iter : list string -> list string.

Definition check_url_exists (url : string) (w : world) : bool * world :=
  (head_ok net (clock w) url, emit (Head url) w).

(** The body shared by [list_static_versions] and
    [list_rootless_versions], which differ in the pattern only. *)
Definition list_versions (pre arch : string) (w : world)
  : list string * world :=
  let page := index_page net (clock w) (index_url arch) in
  let w := emit (Get (index_url arch)) w in
  match page with
  | Some html =>
      let versions := Re.findall pre ".tgz" html in
      (sorted_desc (set_iter versions), w)
  | None => ([], log ERROR MsgListFailed w)
  end.

Definition list_static_versions (arch : string) (w : world) :=
  list_versions "docker-" arch w.

Definition list_rootless_versions (arch : string) (w : world) :=
  list_versions "docker-rootless-extras-" arch w.

Definition resolve_static_version_for_arch
    (arch desired_version : string) (w : world) : string * world :=
  let docker_url := docker_url_template arch desired_version in
  let '(found, w) := check_url_exists docker_url w in
  if found then (desired_version, w)
  else
    let '(avail, w) := list_static_versions arch w in
    match avail with
    | fallback :: _ =>
        (fallback,
         log WARNING (MsgResolveFallback desired_version arch fallback) w)
    | [] =>
        (desired_version,
         log ERROR (MsgNoStaticVersion arch desired_version) w)
    end.

Definition get_compose_asset_url (version arch : string) (w : world)
  : option string * world :=
  let api := release_api_url version in
  let data := release_assets net (clock w) api in
  let w := emit (Get api) w in
  match data with
  | Some assets => (asset_loop arch assets, w)
  | None => (None, log ERROR MsgAssetFailed w)
  end.

(** [calculate_file_hash(filepath)] and [filepath.stat().st_size]: both
    read the file that is in the directory. *)
Definition calculate_file_hash (filename : string) (w : world)
  : option string :=
  match fs w !! filename with
  | Some (File content) => Some (sha256_hex content)
  | _ => None
  end.

Definition st_size (filename : string) (w : world) : option Z :=
  match fs w !! filename with
  | Some (File content) => Some (Z.of_nat (String.length content))
  | _ => None
  end.

Section DownloadFile.

Variables url filename description : string.
Variable max_retries : Z.

(** Lines 293-297: the wait before the next attempt. *)
Definition backoff (attempt : Z) (w : world) : world :=
  if attempt <? max_retries - 1 then
    let wait_time := 2 ^ attempt in
    emit (Sleep wait_time) (log INFO (MsgWait wait_time) w)
  else w.

(** Lines 288-291: the handler of [except Exception]. *)
Definition on_exception (attempt : Z) (w : world) : step * world :=
  let w := log ERROR MsgDownloadFailed w in
  let w := if path_exists filename w then unlink filename w else w in
  (Continue, backoff attempt w).

(** One turn of [for attempt in range(max_retries)]. *)
Definition attempt_body (attempt : Z) (w : world) : step * world :=
  let w := log INFO (if 0 <? attempt
                     then MsgRetry (attempt + 1) max_retries description
                     else MsgStart description) w in
  let w := log INFO (MsgUrl url) w in
  let answer := fetch net (clock w) url in
  let w := emit (Get url) w in
  match answer with
  | HttpError code =>
      let w := log ERROR (MsgHttpError code description) w in
      if code =? 404 then (Return false, incr_failed w)
      else (Continue, backoff attempt w)
  | OpenFailure => on_exception attempt w
  | ReadFailure partial =>
      on_exception attempt (write_file filename partial w)
  | Body content =>
      let w := write_file filename content w in
      match calculate_file_hash filename w, st_size filename w with
      | Some file_hash, Some file_size =>
          let w := log NOTICE (MsgDone description) w in
          let w := log INFO (MsgPath filename) w in
          let w := log INFO (MsgSize file_size) w in
          let w := log INFO (MsgSha256 file_hash) w in
          (Return true, incr_success file_size w)
      | _, _ => on_exception attempt w
      end
  end.

(** The loop, [n] turns from [attempt] on, and lines 299-300 after
    it. *)
Fixpoint attempts (n : nat) (attempt : Z) (w : world) : bool * world :=
  match n with
  | O => (false, incr_failed w)
  | S n' =>
      match attempt_body attempt w with
      | (Return b, w') => (b, w')
      | (Continue, w') => attempts n' (attempt + 1) w'
      end
  end.

(** The state after [n] turns none of which returned. *)
Fixpoint after_attempts (n : nat) (attempt : Z) (w : world) : world :=
  match n with
  | O => w
  | S n' => after_attempts n' (attempt + 1) (snd (attempt_body attempt w))
  end.

Definition download_file (w : world) : bool * world :=
  if path_exists filename w then
    (true, incr_skipped (log WARNING (MsgSkipExisting filename) w))
  else attempts (Z.to_nat max_retries) 0 w.

End DownloadFile.

(** [self.output_dir.glob(pattern)], in the order the directory is
    listed. *)
Definition glob (pattern : string) (w : world) : list string :=
  List.filter (Str.fnmatch pattern) (map fst (map_to_list (fs w))).

(** [file.unlink()]: raises on a directory. *)
Definition unlink_entry (filename : string) (w : world) : option world :=
  match fs w !! filename with
  | Some (File _) => Some (unlink filename w)
  | _ => None
  end.

(** One of the three loops of [cleanup_old_versions]. *)
Fixpoint cleanup_loop (pre post current : string) (files : list string)
    (w : world) : outcome :=
  match files with
  | [] => Finished w
  | file :: rest =>
      match Re.match_versioned pre post file with
      | Some file_version =>
          if String.eqb file_version current
          then cleanup_loop pre post current rest w
          else
            match unlink_entry file w with
            | Some w' =>
                cleanup_loop pre post current rest
                  (log INFO (MsgDeleted file) w')
            | None => Raised w
            end
      | None => cleanup_loop pre post current rest w
      end
  end.

Definition docker_pattern (arch : string) : string :=
  "docker-*-" +:+ arch +:+ ".tgz".
Definition rootless_pattern (arch : string) : string :=
  "docker-rootless-extras-*-" +:+ arch +:+ ".tgz".
Definition compose_pattern (arch : string) : string :=
  "docker-compose-linux-*-" +:+ arch.

Definition cleanup_old_versions
    (current_docker_version current_compose_version : string) (a : arch)
    (w : world) : world :=
  let arch := arch_name a in
  let body :=
    match cleanup_loop "docker-" ".tgz" current_docker_version
            (glob (docker_pattern arch) w) w with
    | Raised w => Raised w
    | Finished w =>
        match cleanup_loop "docker-rootless-extras-" ".tgz"
                current_docker_version
                (glob (rootless_pattern arch) w) w with
        | Raised w => Raised w
        | Finished w =>
            cleanup_loop "docker-compose-linux-" ""
              current_compose_version (glob (compose_pattern arch) w) w
        end
    end in
  match body with
  | Finished w => w
  | Raised w => log ERROR MsgCleanupFailed w
  end.

(** [file.is_file() and file.suffix in ['.tgz', ''] and
    file.name != 'SHA256SUMS']. *)
Definition listed (m : gmap string entry) (filename : string) : bool :=
  match m !! filename with
  | Some (File _) =>
      (String.eqb (Str.suffix filename) ".tgz"
       || String.eqb (Str.suffix filename) "")
      && negb (String.eqb filename "SHA256SUMS")
  | _ => false
  end.

Definition checksum_line (m : gmap string entry) (filename : string)
  : string :=
  match m !! filename with
  | Some (File content) =>
      sha256_hex content +:+ "  " +:+ filename +:+ line_feed
  | _ => EmptyString
  end.

(** [create_checksums_file]; [None] when [open] raises because the
    manifest path is a directory. *)
Definition create_checksums_file (w : world) : option world :=
  match fs w !! "SHA256SUMS" with
  | Some Dir => None
  | _ =>
      let w := write_file "SHA256SUMS" "" w in
      let files := merge_sort String.le (map fst (map_to_list (fs w))) in
      let lines :=
        map (checksum_line (fs w)) (List.filter (listed (fs w)) files) in
      let w := write_file "SHA256SUMS" (String.concat "" lines) w in
      Some (log INFO MsgChecksumsCreated w)
  end.

(** The third slot of [download_for_architecture], lines 414-435. *)
Definition rootless_slot (a : arch) (docker_version : string) (w : world)
  : bool * world :=
  let arch_info := arch_mapping a in
  let arch := arch_name a in
  let rootless_filename :=
    "docker-rootless-extras-" +:+ docker_version +:+ "-" +:+ arch
      +:+ ".tgz" in
  let rootless_url :=
    rootless_url_template (docker_arch arch_info) docker_version in
  let '(ok, w) :=
    download_file rootless_url rootless_filename
      ("Docker Rootless Extras (" +:+ arch +:+ ")") 3 w in
  if ok then (true, w)
  else
    let '(avail_rootless, w) :=
      list_rootless_versions (docker_arch arch_info) w in
    match avail_rootless with
    | fallback :: _ =>
        let w := log WARNING (MsgRootlessFallback docker_version
                                (display_name arch_info) fallback) w in
        let rootless_filename_fb :=
          "docker-rootless-extras-" +:+ fallback +:+ "-" +:+ arch
            +:+ ".tgz" in
        let rootless_url_fb :=
          rootless_url_template (docker_arch arch_info) fallback in
        download_file rootless_url_fb rootless_filename_fb
          ("Docker Rootless Extras (fallback " +:+ arch +:+ ")") 3 w
    | [] => (false, w)
    end.

(** The second slot, lines 401-412. *)
Definition compose_slot (a : arch) (compose_version : string) (w : world)
  : bool * world :=
  let arch_info := arch_mapping a in
  let arch := arch_name a in
  let '(compose_asset_url, w) :=
    get_compose_asset_url compose_version (compose_arch arch_info) w in
  match compose_asset_url with
  | Some asset_url =>
      if String.eqb asset_url "" then (false, w)
      else
        let compose_filename :=
          "docker-compose-linux-" +:+ compose_version +:+ "-" +:+ arch in
        let '(ok, w) :=
          download_file asset_url compose_filename
            ("Docker Compose (" +:+ arch +:+ ")") 3 w in
        if ok then (true, emit (Chmod compose_filename 493) w)
        else (false, w)
  | None => (false, w)
  end.

Definition download_for_architecture
    (a : arch) (docker_version compose_version : string) (w : world)
  : (Z * Z) * world :=
  let arch_info := arch_mapping a in
  let arch := arch_name a in
  let w := log INFO MsgBanner w in
  let w := log NOTICE (MsgArchStart (display_name arch_info)) w in
  let w := log INFO MsgBanner w in
  let docker_filename :=
    "docker-" +:+ docker_version +:+ "-" +:+ arch +:+ ".tgz" in
  let docker_url :=
    docker_url_template (docker_arch arch_info) docker_version in
  let '(r1, w) :=
    download_file docker_url docker_filename
      ("Docker binary (" +:+ arch +:+ ")") 3 w in
  let '(r2, w) := compose_slot a compose_version w in
  let '(r3, w) := rootless_slot a docker_version w in
  let results := [r1; r2; r3] in
  let success_count :=
    fold_right (fun (b : bool) acc => (if b then 1 else 0) + acc) 0
      results in
  let total_count := Z.of_nat (length results) in
  let w := log (if success_count =? total_count then NOTICE else WARNING)
             (MsgArchDone (display_name arch_info) success_count
                total_count) w in
  ((success_count, total_count), w).

(** Any sequence of calls of [download_file], as a run makes them. *)
Fixpoint download_all (calls : list (string * string * string * Z))
    (w : world) : world :=
  match calls with
  | [] => w
  | (url, filename, description, max_retries) :: rest =>
      download_all rest
        (snd (download_file url filename description max_retries w))
  end.

End Updater.

(** ** Vocabulary of the statements *)

(** A failure of an attempt that [download_file] answers by trying again:
    anything but a body and but [HTTPError] 404. *)
Definition is_retryable (r : response) : bool :=
  match r with
  | HttpError code => negb (code =? 404)
  | OpenFailure | ReadFailure _ => true
  | Body _ => false
  end.

(** The requests and waits of [k] failed attempts numbered from [a], under
    a budget of [max_retries] attempts. *)
Definition retry_schedule (url : string) (max_retries a : Z) (k : nat)
  : list event :=
  flat_map
    (fun j => Get url :: if j <? max_retries - 1 then [Sleep (2 ^ j)] else [])
    (seqZ a (Z.of_nat k)).

Definition sleeps (t : list event) : list Z :=
  flat_map (fun e => match e with Sleep s => [s] | _ => [] end) t.

(** The digests [download_file] has logged. *)
Definition digests (t : list event) : list string :=
  flat_map (fun e => match e with Log _ (MsgSha256 d) => [d] | _ => [] end) t.

(** What one turn adds to the trace, by the answer it gets. *)
Definition turn_events (sha256_hex : string -> string)
    (url filename description : string) (max_retries attempt : Z)
    (answer : response) : list event :=
  let head :=
    [Log INFO (if 0 <? attempt
               then MsgRetry (attempt + 1) max_retries description
               else MsgStart description);
     Log INFO (MsgUrl url); Get url] in
  let wait :=
    if attempt <? max_retries - 1
    then [Log INFO (MsgWait (2 ^ attempt)); Sleep (2 ^ attempt)] else [] in
  match answer with
  | HttpError code =>
      head ++ [Log ERROR (MsgHttpError code description)]
           ++ (if code =? 404 then [] else wait)
  | OpenFailure | ReadFailure _ =>
      head ++ [Log ERROR MsgDownloadFailed] ++ wait
  | Body content =>
      head ++ [Log NOTICE (MsgDone description); Log INFO (MsgPath filename);
               Log INFO (MsgSize (Z.of_nat (String.length content)));
               Log INFO (MsgSha256 (sha256_hex content))]
  end.


(** The counters [s'] are the counters [s] with [ds], [df], [dk] and
    [dsize] added to [success], [failed], [skipped] and [total_size]. *)
Definition counted (s s' : stats) (ds df dk dsize : Z) : Prop :=
  success s' = success s + ds
  /\ failed s' = failed s + df
  /\ skipped s' = skipped s + dk
  /\ total_size s' = total_size s + dsize.

(** ** Concrete scenarios *)

(** A stand-in for SHA-256 in the scenarios: any function of the content
    serves where only the flow of the digest matters. *)
Definition toy_digest (content : string) : string :=
  "sha256(" +:+ content +:+ ")".

Definition zero_stats : stats :=
  {| success := 0; failed := 0; skipped := 0; total_size := 0 |}.

(** An empty output directory at the start of a run. *)
Definition empty_world : world :=
  {| fs := ∅; download_stats := zero_stats; trace := [] |}.

(** A directory that already holds the file [f]. *)
Definition world_with_f : world :=
  {| fs := {[ "f" := File "old bytes" ]};
     download_stats := zero_stats; trace := [] |}.

(** A directory in which [f] is a directory. *)
Definition world_with_directory_f : world :=
  {| fs := {[ "f" := Dir ]};
     download_stats := zero_stats; trace := [] |}.

(** A network on which every probe and listing fails and the downloads
    meet, in turn, HTTP 500, a broken transfer and refused connections. *)
Definition failing_net : network :=
  {| head_ok := fun _ _ => false;
     index_page := fun _ _ => None;
     release_assets := fun _ _ => None;
     fetch := fun t _ =>
       match t with
       | O => HttpError 500
       | S O => ReadFailure "partial"
       | _ => OpenFailure
       end |}.

(** A network whose first answer is HTTP 500 and whose later answers are
    HTTP 404. *)
Definition late_404_net : network :=
  {| head_ok := fun _ _ => false;
     index_page := fun _ _ => None;
     release_assets := fun _ _ => None;
     fetch := fun t _ =>
       match t with
       | O => HttpError 500
       | _ => HttpError 404
       end |}.

(** A network that serves every download. *)
Definition serving_net : network :=
  {| head_ok := fun _ _ => true;
     index_page := fun _ _ => None;
     release_assets := fun _ _ => None;
     fetch := fun _ _ => Body "payload" |}.

(** ** Vocabulary on versions *)

(** A non-empty string of decimal digits. *)
Fixpoint all_digits (s : string) : bool :=
  match s with
  | EmptyString => true
  | String c s' => Str.is_digit c && all_digits s'
  end.

Definition is_number (s : string) : Prop :=
  all_digits s = true /\ s <> EmptyString.

(** [MAJOR.MINOR.PATCH], each component a decimal number. *)
Definition is_semver (v : string) : Prop :=
  exists major minor patch,
    v = major +:+ "." +:+ minor +:+ "." +:+ patch
    /\ is_number major /\ is_number minor /\ is_number patch.

(** [v] is not newer than [v']: the keys compared as Python compares
    tuples of integers. *)
Definition not_newer (v v' : string) : Prop := key_le v v' = true.

(** A list from the newest version down. *)
Definition descending (l : list string) : Prop :=
  StronglySorted (fun a b => not_newer b a) l.

(** A network on which no probed URL exists and the index of every
    architecture lists the runtime versions 27.3.0, 9.0.0 and 27.4.1 and
    the rootless-extras version 27.3.0; every download meets HTTP 404 but
    that of the rootless-extras 27.3.0 archive. *)
Definition index_net : network :=
  {| head_ok := fun _ _ => false;
     index_page := fun _ _ =>
       Some ("<a href=docker-27.3.0.tgz>docker-27.3.0.tgz</a> "
             +:+ "<a href=docker-9.0.0.tgz>docker-9.0.0.tgz</a> "
             +:+ "<a href=docker-27.4.1.tgz>docker-27.4.1.tgz</a> "
             +:+ "<a href=docker-rootless-extras-27.3.0.tgz>extras</a>");
     release_assets := fun _ _ => None;
     fetch := fun _ url =>
       if String.eqb url (rootless_url_template "x86_64" "27.3.0")
       then Body "rootless 27.3.0" else HttpError 404 |}.

(** The names [download_for_architecture] gives to the rootless-extras
    archive of a version, and the description it logs for its fetch. *)
Definition rootless_file (a : arch) (version : string) : string :=
  "docker-rootless-extras-" +:+ version +:+ "-" +:+ arch_name a +:+ ".tgz".

Definition rootless_url (a : arch) (version : string) : string :=
  rootless_url_template (docker_arch (arch_mapping a)) version.

(** ** Vocabulary on release assets *)

(** The test by which the loop of [get_compose_asset_url] takes an
    asset. *)
Definition asset_matches (arch : string) (a : asset) : bool :=
  exact_match arch a || substring_match arch a.

Definition plain_asset : asset :=
  {| name := "docker-compose-linux-aarch64";
     browser_download_url := Some "https://example.test/plain" |}.

Definition exe_asset : asset :=
  {| name := "docker-compose-linux-aarch64.exe";
     browser_download_url := Some "https://example.test/exe" |}.

Definition checksum_asset : asset :=
  {| name := "docker-compose-linux-aarch64.sha256";
     browser_download_url := Some "https://example.test/sha256" |}.

(** A network whose release metadata lists the given assets. *)
Definition release_net (assets : list asset) : network :=
  {| head_ok := fun _ _ => true;
     index_page := fun _ _ => None;
     release_assets := fun _ _ => Some assets;
     fetch := fun _ _ => Body "payload" |}.

(** ** Scenarios for the manifest and the reconciler *)

(** An output directory after a run: two archives, a compose binary, the
    log of the run, the version document and an older manifest. *)
Definition mirror_world : world :=
  {| fs := list_to_map
       [("docker-27.4.1-x86_64.tgz", File "runtime");
        ("docker-rootless-extras-27.4.1-x86_64.tgz", File "extras");
        ("docker-compose-linux-2.32.4-x86_64", File "compose");
        ("update_log_20240101_000000.txt", File "log lines");
        ("VERSION.json", File "{}");
        ("SHA256SUMS", File "stale manifest")];
     download_stats := zero_stats; trace := [] |}.

(** A network on which runtime 27.4.1 exists and downloads, the compose
    release lists its x86_64 binary, the rootless-extras archive of 27.4.1
    is missing (HTTP 404) and the newest rootless-extras archive of the
    index is 27.3.0. *)
Definition fallback_net : network :=
  {| head_ok := fun _ _ => true;
     index_page := fun _ _ =>
       Some ("<a href=docker-27.4.1.tgz>docker-27.4.1.tgz</a> "
             +:+ "<a href=docker-rootless-extras-27.3.0.tgz>extras</a>");
     release_assets := fun _ _ =>
       Some [ {| name := "docker-compose-linux-x86_64";
                 browser_download_url := Some "https://example.test/compose" |} ];
     fetch := fun _ url =>
       if String.eqb url (rootless_url_template "x86_64" "27.4.1")
       then HttpError 404 else Body ("bytes of " +:+ url) |}.

(** What [update] does for one architecture, lines 460-475: resolve and
    download, write the manifest, then resolve again and clean up. The
    result is the counts of the download, the state when the manifest is
    written and the final state. *)
Definition update_one (net : network) (sha256_hex : string -> string)
    (set_iter : list string -> list string) (a : arch)
    (docker_version compose_version : string) (w : world)
  : option (Z * Z * world * world) :=
  let docker_arch := docker_arch (arch_mapping a) in
  let '(resolved_version, w) :=
    resolve_static_version_for_arch net set_iter docker_arch docker_version
      w in
  let '(counts, w) :=
    download_for_architecture net sha256_hex set_iter a resolved_version
      compose_version w in
  match create_checksums_file sha256_hex w with
  | Some w_manifest =>
      let '(resolved_docker_version, w) :=
        resolve_static_version_for_arch net set_iter docker_arch
          docker_version w_manifest in
      Some (counts, w_manifest,
            cleanup_old_versions resolved_docker_version compose_version a w)
  | None => None
  end.

(** ** Vocabulary on the reconciler *)

Inductive family := Runtime | RootlessExtras | ComposeTool.

(** The version the pattern of a family finds in a name differs from the
    current one. *)
Definition version_differs (pre post current filename : string) : bool :=
  match Re.match_versioned pre post filename with
  | Some file_version => negb (String.eqb file_version current)
  | None => false
  end.

(** A name that a loop of [cleanup_old_versions] globs and whose version
    differs from the one the loop compares with: [current_docker_version]
    for the runtime and the rootless-extras loops,
    [current_compose_version] for the compose loop. *)
Definition family_stale (f : family)
    (current_docker_version current_compose_version arch filename : string)
  : bool :=
  match f with
  | Runtime =>
      Str.fnmatch (docker_pattern arch) filename
      && version_differs "docker-" ".tgz" current_docker_version filename
  | RootlessExtras =>
      Str.fnmatch (rootless_pattern arch) filename
      && version_differs "docker-rootless-extras-" ".tgz"
           current_docker_version filename
  | ComposeTool =>
      Str.fnmatch (compose_pattern arch) filename
      && version_differs "docker-compose-linux-" ""
           current_compose_version filename
  end.

Definition stale
    (current_docker_version current_compose_version arch filename : string)
  : bool :=
  family_stale Runtime current_docker_version current_compose_version arch
    filename
  || family_stale RootlessExtras current_docker_version
       current_compose_version arch filename
  || family_stale ComposeTool current_docker_version current_compose_version
       arch filename.

(** The three runtime archives of the reconciliation scenario, with files
    of another family and of another architecture. *)
Definition three_versions_world : world :=
  {| fs := list_to_map
       [("docker-1.0.0-x86_64.tgz", File "a");
        ("docker-1.1.0-x86_64.tgz", File "b");
        ("docker-1.2.0-x86_64.tgz", File "c");
        ("docker-1.0.0-aarch64.tgz", File "d");
        ("docker-rootless-extras-1.2.0-x86_64.tgz", File "e");
        ("docker-compose-linux-2.32.4-x86_64", File "f");
        ("notes-1.0.0-x86_64.tgz", File "g")];
     download_stats := zero_stats; trace := [] |}.

(** The name [download_for_architecture] gives to the artifact of a
    family, and the version [cleanup_old_versions] compares it with. *)
Definition canonical_file (f : family) (a : arch) (version : string)
  : string :=
  match f with
  | Runtime => "docker-" +:+ version +:+ "-" +:+ arch_name a +:+ ".tgz"
  | RootlessExtras => rootless_file a version
  | ComposeTool =>
      "docker-compose-linux-" +:+ version +:+ "-" +:+ arch_name a
  end.

Definition compared_version (f : family)
    (current_docker_version current_compose_version : string) : string :=
  match f with
  | Runtime | RootlessExtras => current_docker_version
  | ComposeTool => current_compose_version
  end.

(** A string that does not go on with a digit. *)
Definition stops_digits (s : string) : Prop :=
  match s with
  | EmptyString => True
  | String c _ => Str.is_digit c = false
  end.

(** A pattern without wildcard. *)
Fixpoint literal (p : string) : bool :=
  match p with
  | EmptyString => true
  | String c p' => negb (Ascii.eqb c "*") && literal p'
  end.

(** * Further methods and properties *)

(** ** More scenarios *)

(** A network whose downloads meet HTTP 503, then a broken transfer, then
    are served. *)
Definition recovering_net : network :=
  {| head_ok := fun _ _ => true;
     index_page := fun _ _ => None;
     release_assets := fun _ _ => None;
     fetch := fun t _ =>
       match t with
       | O => HttpError 503
       | S O => ReadFailure "half"
       | _ => Body "whole body"
       end |}.

(** ** Vocabulary on index pages *)

(** The name of the runtime ([rootless = false]) or rootless-extras
    archive of a version in the index of an architecture. *)
Definition archive_name (rootless : bool) (version : string) : string :=
  (if rootless then "docker-rootless-extras-" else "docker-")
  +:+ version +:+ ".tgz".

(** A page that names the given archives, one on a line. *)
Fixpoint render_index (archives : list (bool * string)) : string :=
  match archives with
  | [] => EmptyString
  | (rootless, version) :: rest =>
      archive_name rootless version +:+ line_feed +:+ render_index rest
  end.

(** No character of [s] is [c]. *)
Fixpoint avoids (c : ascii) (s : string) : bool :=
  match s with
  | EmptyString => true
  | String d s' => negb (Ascii.eqb d c) && avoids c s'
  end.

(** A network whose index page names the runtime archives 27.4.1 and
    27.3.0 and the rootless-extras archive 27.3.0, built with
    [render_index]. *)
Definition rendered_net : network :=
  {| head_ok := fun _ _ => false;
     index_page := fun _ _ =>
       Some (render_index [(false, "27.4.1"); (true, "27.3.0");
                           (false, "27.3.0")]);
     release_assets := fun _ _ => None;
     fetch := fun _ _ => HttpError 404 |}.

(** ** Vocabulary on the orchestrator *)

(** The files a trace marks executable. *)
Definition chmods (t : list event) : list (string * Z) :=
  flat_map (fun e => match e with Chmod f m => [(f, m)] | _ => [] end) t.

(** The name [download_for_architecture] gives to the compose binary. *)
Definition compose_file (a : arch) (version : string) : string :=
  "docker-compose-linux-" +:+ version +:+ "-" +:+ arch_name a.

(** A release that lists a macOS binary, a checksum file and the Linux
    binary of x86_64. *)
Definition mixed_release_net : network :=
  release_net
    [ {| name := "docker-compose-darwin-x86_64";
         browser_download_url := Some "https://example.test/darwin" |};
      {| name := "checksums.txt";
         browser_download_url := Some "https://example.test/sums" |};
      {| name := "docker-compose-linux-x86_64";
         browser_download_url := Some "https://example.test/linux" |} ].

(** The number of calls of [download_file] the counters record as having
    returned [True]: the downloads and the skips. *)
Definition obtained (w : world) : Z :=
  success (download_stats w) + skipped (download_stats w).

(** What holds of a world [w'] reached from [w] by steps that only call
    [download_file] and query the network: no entry is lost or rewritten,
    and the counters move by [ok] more calls that returned [True] and
    between [lo] and [hi] more failures. *)
Definition grows (w w' : world) (ok lo hi : Z) : Prop :=
  (forall n e, fs w !! n = Some e -> fs w' !! n = Some e)
  /\ obtained w' = obtained w + ok
  /\ failed (download_stats w) + lo <= failed (download_stats w')
     <= failed (download_stats w) + hi.

(** ** Vocabulary on the reconciler *)

(** The state in which a clean-up pass ends, however it ends. *)
Definition outcome_world (o : outcome) : world :=
  match o with
  | Finished w | Raised w => w
  end.

(** [w'] is [w] less some regular files whose names satisfy [P]; no other
    entry differs. *)
Definition pruned (P : string -> Prop) (w w' : world) : Prop :=
  download_stats w' = download_stats w
  /\ requests (trace w') = requests (trace w)
  /\ forall filename,
       fs w' !! filename = fs w !! filename
       \/ (fs w' !! filename = None
           /\ P filename
           /\ exists content, fs w !! filename = Some (File content)).

(** A directory that bears the name of an old runtime archive, beside an
    old rootless-extras archive. *)
Definition stale_directory_world : world :=
  {| fs := list_to_map
       [("docker-1.0.0-x86_64.tgz", Dir);
        ("docker-1.2.0-x86_64.tgz", File "c");
        ("docker-rootless-extras-1.0.0-x86_64.tgz", File "e")];
     download_stats := zero_stats; trace := [] |}.

(** ** The loop of [update] over the architectures *)

Section UpdateLoop.

Variable net : network.
Variable sha256_hex : string -> string.
Variable set_iter : list string -> list string.

(** [for arch in self.architectures: ...] of [update], lines 459-463, with
    the two totals it accumulates. *)
Fixpoint download_loop (architectures : list arch)
    (docker_version compose_version : string)
    (total_success total_count : Z) (w : world) : (Z * Z) * world :=
  match architectures with
  | [] => ((total_success, total_count), w)
  | a :: rest =>
      let '(resolved_version, w) :=
        resolve_static_version_for_arch net set_iter
          (docker_arch (arch_mapping a)) docker_version w in
      let '((success, count), w) :=
        download_for_architecture net sha256_hex set_iter a resolved_version
          compose_version w in
      download_loop rest docker_version compose_version
        (total_success + success) (total_count + count) w
  end.

(** What [update] returns when it returns, [total_success ==
    total_count] of line 497: the loop alone decides it, from totals that
    start at zero. *)
Definition update_succeeds (architectures : list arch)
    (docker_version compose_version : string) (w : world) : bool :=
  let '((total_success, total_count), _) :=
    download_loop architectures docker_version compose_version 0 0 w in
  total_success =? total_count.

End UpdateLoop.

(** ** The version of a release tag *)

(** [s.lstrip(c)] for a set of one character. *)
Fixpoint lstrip (c : ascii) (s : string) : string :=
  match s with
  | String d s' => if Ascii.eqb d c then lstrip c s' else s
  | EmptyString => EmptyString
  end.

(** [s.replace(old, '')] for a non-empty [old]: the occurrences are taken
    from left to right and do not overlap ([skip] characters of the last
    one are still to pass). *)
Fixpoint remove_go (old : string) (skip : nat) (s : string) : string :=
  match s with
  | EmptyString => EmptyString
  | String c s' =>
      match skip with
      | S k => remove_go old k s'
      | O =>
          if Str.startswith old s
          then remove_go old (String.length old - 1) s'
          else String c (remove_go old O s')
      end
  end.

Definition remove (old s : string) : string := remove_go old 0 s.

(** [re.search(r'(\d+\.\d+\.\d+)', tag)]: [group(1)] of the leftmost
    match. *)
Fixpoint search_version (tag : string) : option string :=
  match Re.version tag with
  | Some (v, _) => Some v
  | None =>
      match tag with
      | EmptyString => None
      | String _ tag' => search_version tag'
      end
  end.

(** The version [get_latest_docker_version] makes of the tag of the
    latest release, lines 153-154, and [get_latest_compose_version] of
    its own, lines 176-177. *)
Definition docker_tag_version (tag : string) : string :=
  match search_version tag with
  | Some v => v
  | None => remove "engine-" (remove "docker-" (lstrip "v" tag))
  end.

Definition compose_tag_version (tag : string) : string :=
  match search_version tag with
  | Some v => v
  | None => lstrip "v" tag
  end.

(** A string without a digit. *)
Fixpoint no_digit (s : string) : bool :=
  match s with
  | EmptyString => true
  | String c s' => negb (Str.is_digit c) && no_digit s'
  end.
(** ** Basic facts on the state *)

Ltac splits := repeat match goal with |- _ /\ _ => split end.


Lemma requests_app (t1 t2 : list event) :
  requests (t1 ++ t2) = requests t1 ++ requests t2.
Proof. unfold requests. apply List.filter_app. Qed.

Lemma effects_app (t1 t2 : list event) :
  effects (t1 ++ t2) = effects t1 ++ effects t2.
Proof. unfold effects. apply List.filter_app. Qed.

Lemma sleeps_app (t1 t2 : list event) :
  sleeps (t1 ++ t2) = sleeps t1 ++ sleeps t2.
Proof. unfold sleeps. apply flat_map_app. Qed.

Lemma digests_app (t1 t2 : list event) :
  digests (t1 ++ t2) = digests t1 ++ digests t2.
Proof. unfold digests. apply flat_map_app. Qed.

Lemma clock_log lvl msg w : clock (log lvl msg w) = clock w.
Proof.
  unfold clock, log, emit; simpl. rewrite requests_app; simpl.
  now rewrite length_app, Nat.add_0_r.
Qed.

Lemma clock_get url w : clock (emit (Get url) w) = S (clock w).
Proof.
  unfold clock, emit; simpl. rewrite requests_app; simpl.
  rewrite length_app; simpl. lia.
Qed.

Lemma clock_sleep s w : clock (emit (Sleep s) w) = clock w.
Proof.
  unfold clock, emit; simpl. rewrite requests_app; simpl.
  now rewrite length_app, Nat.add_0_r.
Qed.

Lemma delete_insert_absent (m : gmap string entry) k e :
  m !! k = None -> delete k (<[k := e]> m) = m.
Proof.
  intros H. apply map_eq; intros i.
  destruct (decide (k = i)) as [->|Hne].
  - now rewrite lookup_delete_eq.
  - now rewrite lookup_delete_ne, lookup_insert_ne.
Qed.

Lemma path_exists_true filename w :
  path_exists filename w = true <-> is_Some (fs w !! filename).
Proof. unfold path_exists. apply bool_decide_eq_true. Qed.

Lemma path_exists_false filename w :
  path_exists filename w = false <-> fs w !! filename = None.
Proof.
  unfold path_exists. rewrite bool_decide_eq_false.
  rewrite <- eq_None_not_Some. tauto.
Qed.

(** ** The retrying fetcher *)

Section Fetcher.

Variable net : network.
Variable sha256_hex : string -> string.
Variables url filename description : string.
Variable max_retries : Z.

Local Abbreviation backoff := (backoff max_retries).
Local Abbreviation on_exception := (on_exception filename max_retries).
Local Abbreviation attempt_body :=
  (attempt_body net sha256_hex url filename description max_retries).
Local Abbreviation attempts :=
  (attempts net sha256_hex url filename description max_retries).
Local Abbreviation after_attempts :=
  (after_attempts net sha256_hex url filename description max_retries).
Local Abbreviation download_file :=
  (download_file net sha256_hex url filename description max_retries).

Local Abbreviation turn_events :=
  (turn_events sha256_hex url filename description max_retries).

Lemma backoff_fs a w : fs (backoff a w) = fs w.
Proof. unfold backoff. now destruct (a <? max_retries - 1). Qed.

Lemma backoff_stats a w : download_stats (backoff a w) = download_stats w.
Proof. unfold backoff. now destruct (a <? max_retries - 1). Qed.

Lemma backoff_trace a w :
  trace (backoff a w) =
  trace w ++ (if a <? max_retries - 1
              then [Log INFO (MsgWait (2 ^ a)); Sleep (2 ^ a)] else []).
Proof.
  unfold backoff. destruct (a <? max_retries - 1); simpl.
  - now rewrite <- app_assoc.
  - now rewrite app_nil_r.
Qed.

Lemma turn_events_requests a r : requests (turn_events a r) = [Get url].
Proof.
  unfold turn_events.
  destruct r as [code| | |]; simpl; try reflexivity;
    try destruct (code =? 404); destruct (a <? max_retries - 1); reflexivity.
Qed.

Lemma turn_events_effects a r :
  effects (turn_events a r) =
  Get url :: (if is_retryable r && (a <? max_retries - 1)
              then [Sleep (2 ^ a)] else []).
Proof.
  unfold turn_events.
  destruct r as [code| | |]; simpl; try reflexivity;
    try destruct (code =? 404); destruct (a <? max_retries - 1); reflexivity.
Qed.

(** What a turn of the loop does, by the way it ends. *)
Lemma attempt_body_inv a w :
  let answer := fetch net (clock w) url in
  match attempt_body a w with
  | (Return true, w') =>
      exists content,
        answer = Body content
        /\ fs w' = <[filename := File content]> (fs w)
        /\ download_stats w' =
           download_stats (incr_success (Z.of_nat (String.length content)) w)
  | (Return false, w') =>
      answer = HttpError 404
      /\ fs w' = fs w
      /\ download_stats w' = download_stats (incr_failed w)
  | (Continue, w') =>
      is_retryable answer = true
      /\ (fs w !! filename = None -> fs w' = fs w)
      /\ (forall other, other <> filename -> fs w' !! other = fs w !! other)
      /\ download_stats w' = download_stats w
  end
  /\ trace (snd (attempt_body a w)) = trace w ++ turn_events a answer.
Proof.
  unfold attempt_body. rewrite !clock_log. unfold turn_events.
  destruct (fetch net (clock w) url) as [code| |partial|content]; simpl.
  - destruct (code =? 404) eqn:Hc; simpl.
    + apply Z.eqb_eq in Hc. subst code.
      repeat split. now rewrite <- !app_assoc.
    + rewrite backoff_fs, backoff_stats, backoff_trace. simpl.
      repeat split. now rewrite <- !app_assoc.
  - unfold on_exception.
    match goal with
    | |- context [path_exists filename ?x] =>
        destruct (path_exists filename x) eqn:Hex
    end; simpl; rewrite backoff_fs, backoff_stats, backoff_trace; simpl.
    + apply path_exists_true in Hex; simpl in Hex.
      repeat split.
      * intros Habs. rewrite Habs in Hex. now destruct Hex.
      * intros other Hne. now rewrite lookup_delete_ne.
      * now rewrite <- !app_assoc.
    + repeat split. now rewrite <- !app_assoc.
  - unfold on_exception.
    match goal with
    | |- context [path_exists filename ?x] =>
        assert (Hex : path_exists filename x = true)
    end.
    { apply path_exists_true. simpl. rewrite lookup_insert_eq. eauto. }
    rewrite Hex; simpl. rewrite backoff_fs, backoff_stats, backoff_trace; simpl.
    repeat split.
    + now apply delete_insert_absent.
    + intros other Hne. now rewrite lookup_delete_ne, lookup_insert_ne.
    + now rewrite <- !app_assoc.
  - unfold calculate_file_hash, st_size; simpl.
    rewrite lookup_insert_eq. simpl.
    split; [exists content; repeat split|].
    now rewrite <- !app_assoc.
Qed.

Lemma turn_events_digests a r :
  digests (turn_events a r) =
  match r with Body content => [sha256_hex content] | _ => [] end.
Proof.
  unfold turn_events.
  destruct r as [code| | |]; simpl;
    try destruct (code =? 404); destruct (0 <? a);
    destruct (a <? max_retries - 1); reflexivity.
Qed.

Lemma turn_events_sleeps a r :
  sleeps (turn_events a r) =
  if is_retryable r && (a <? max_retries - 1) then [2 ^ a] else [].
Proof.
  unfold turn_events.
  destruct r as [code| | |]; simpl; try reflexivity;
    try destruct (code =? 404); destruct (a <? max_retries - 1); reflexivity.
Qed.

Lemma clock_after_requests w w' t k :
  trace w' = trace w ++ t -> requests t = replicate k (Get url) ->
  clock w' = (clock w + k)%nat.
Proof.
  intros Ht Hr. unfold clock. rewrite Ht, requests_app, Hr.
  now rewrite length_app, length_replicate.
Qed.

Lemma retry_schedule_S a k :
  retry_schedule url max_retries a (S k) =
  (Get url :: if a <? max_retries - 1 then [Sleep (2 ^ a)] else [])
  ++ retry_schedule url max_retries (a + 1) k.
Proof.
  unfold retry_schedule. rewrite seqZ_cons by lia. simpl.
  replace (Z.pred (Z.of_nat (S k))) with (Z.of_nat k) by lia.
  now replace (Z.succ a) with (a + 1) by lia.
Qed.

(** [k] turns in a row that meet failures other than 404: the directory
    and the counters are as before, and the trace holds the requests and
    the waits of the schedule. *)
Lemma after_attempts_retryable k :
  forall a w,
    fs w !! filename = None ->
    (forall j, (j < k)%nat ->
               is_retryable (fetch net (clock w + j) url) = true) ->
    fs (after_attempts k a w) = fs w
    /\ download_stats (after_attempts k a w) = download_stats w
    /\ clock (after_attempts k a w) = (clock w + k)%nat
    /\ effects (trace (after_attempts k a w)) =
       effects (trace w) ++ retry_schedule url max_retries a k
    /\ forall m, attempts (k + m) a w =
                 attempts m (a + Z.of_nat k) (after_attempts k a w).
Proof.
  induction k as [|k IH]; intros a w Habs Hfail.
  - simpl. rewrite Nat.add_0_r, app_nil_r, Z.add_0_r. repeat split.
  - pose proof (attempt_body_inv a w) as [Hturn Htrace].
    pose proof (Hfail O ltac:(lia)) as H0. rewrite Nat.add_0_r in H0.
    simpl after_attempts.
    destruct (attempt_body a w) as [[[|]|] w1] eqn:Hbody; simpl in *.
    + destruct Hturn as (content & Hans & _). rewrite Hans in H0. discriminate.
    + destruct Hturn as (Hans & _). rewrite Hans in H0. discriminate.
    + destruct Hturn as (_ & Hfs & _ & Hstats).
      specialize (Hfs Habs).
      assert (Hclock : clock w1 = S (clock w)).
      { unfold clock. rewrite Htrace, requests_app, turn_events_requests.
        rewrite length_app. simpl. lia. }
      destruct (IH (a + 1) w1) as (IHfs & IHst & IHck & IHeff & IHrun).
      { now rewrite Hfs. }
      { intros j Hj. rewrite Hclock.
        replace (S (clock w) + j)%nat with (clock w + S j)%nat by lia.
        apply Hfail. lia. }
      repeat split.
      * now rewrite IHfs.
      * now rewrite IHst.
      * rewrite IHck, Hclock. lia.
      * rewrite IHeff, Htrace, effects_app, turn_events_effects, H0.
        rewrite retry_schedule_S. simpl. now rewrite <- app_assoc.
      * intros m. rewrite Hbody. rewrite IHrun.
        now replace (a + 1 + Z.of_nat k) with (a + Z.of_nat (S k)) by lia.
Qed.

(** The loop from any turn on, the destination being absent: what it
    adds to the trace, and the two ways it can end. *)
Lemma attempts_inv n :
  forall a w,
    fs w !! filename = None ->
    exists t k,
      trace (snd (attempts n a w)) = trace w ++ t
      /\ (k <= n)%nat
      /\ requests t = replicate k (Get url)
      /\ (forall other, other <> filename ->
            fs (snd (attempts n a w)) !! other = fs w !! other)
      /\ if fst (attempts n a w)
         then exists content,
             fs (snd (attempts n a w)) = <[filename := File content]> (fs w)
             /\ download_stats (snd (attempts n a w)) =
                download_stats
                  (incr_success (Z.of_nat (String.length content)) w)
             /\ digests t = [sha256_hex content]
             /\ exists t0,
                 t = t0 ++ [Log INFO (MsgSha256 (sha256_hex content))]
         else fs (snd (attempts n a w)) = fs w
              /\ download_stats (snd (attempts n a w)) =
                 download_stats (incr_failed w)
              /\ digests t = [].
Proof.
  induction n as [|n IH]; intros a w Habs.
  - exists [], O. simpl. rewrite app_nil_r. splits; auto.
  - pose proof (attempt_body_inv a w) as [Hturn Htrace].
    simpl attempts.
    destruct (attempt_body a w) as [[[|]|] w1] eqn:Hbody; simpl in *.
    + destruct Hturn as (content & Hans & Hfs & Hstats).
      exists (turn_events a (Body content)), 1%nat.
      rewrite Hans in Htrace.
      splits; try assumption; try lia.
      * apply turn_events_requests.
      * intros other Hne. rewrite Hfs. now rewrite lookup_insert_ne.
      * exists content. splits; try assumption.
        -- apply turn_events_digests.
        -- unfold turn_events. simpl. now eexists [_; _; _; _; _; _].
    + destruct Hturn as (Hans & Hfs & Hstats).
      exists (turn_events a (HttpError 404)), 1%nat.
      rewrite Hans in Htrace.
      splits; try assumption; try lia.
      * apply turn_events_requests.
      * now rewrite Hfs.
      * apply turn_events_digests.
    + destruct Hturn as (Hretry & Hfs & Hframe & Hstats).
      specialize (Hfs Habs).
      destruct (IH (a + 1) w1) as (t & k & Ht & Hk & Hreq & Hfr & Hend).
      { now rewrite Hfs. }
      exists (turn_events a (fetch net (clock w) url) ++ t), (S k).
      splits.
      * now rewrite Ht, Htrace, <- app_assoc.
      * lia.
      * rewrite requests_app, turn_events_requests, Hreq. reflexivity.
      * intros other Hne. rewrite Hfr by assumption. now apply Hframe.
      * assert (Hdig : digests (turn_events a (fetch net (clock w) url)) = []).
        { rewrite turn_events_digests.
          destruct (fetch net (clock w) url); try reflexivity. discriminate. }
        destruct (fst (attempts n (a + 1) w1)).
        -- destruct Hend as (content & Hfs' & Hst' & Hdg & t0 & Ht0).
           exists content. splits.
           ++ now rewrite Hfs', Hfs.
           ++ rewrite Hst'. unfold incr_success; simpl. now rewrite Hstats.
           ++ now rewrite digests_app, Hdig, Hdg.
           ++ exists (turn_events a (fetch net (clock w) url) ++ t0).
              now rewrite Ht0, <- app_assoc.
        -- destruct Hend as (Hfs' & Hst' & Hdg). splits.
           ++ now rewrite Hfs', Hfs.
           ++ rewrite Hst'. unfold incr_failed; simpl. now rewrite Hstats.
           ++ now rewrite digests_app, Hdig, Hdg.
Qed.

(** A call that finds the destination in place. *)
Lemma download_file_existing w :
  is_Some (fs w !! filename) ->
  download_file w =
  (true, incr_skipped (log WARNING (MsgSkipExisting filename) w)).
Proof.
  intros H. unfold download_file.
  now rewrite (proj2 (path_exists_true filename w) H).
Qed.

Lemma download_file_absent w :
  fs w !! filename = None ->
  download_file w = attempts (Z.to_nat max_retries) 0 w.
Proof.
  intros H. unfold download_file.
  now rewrite (proj2 (path_exists_false filename w) H).
Qed.

(** Whatever the call returns, its destination is the only entry of the
    directory it can have changed, and the trace only grows, by requests
    for [url]. *)
Lemma download_file_frame w :
  (forall other, other <> filename ->
     fs (snd (download_file w)) !! other = fs w !! other)
  /\ exists t k,
      trace (snd (download_file w)) = trace w ++ t
      /\ (k <= Z.to_nat max_retries)%nat
      /\ requests t = replicate k (Get url).
Proof.
  destruct (fs w !! filename) as [e|] eqn:Hlook.
  - rewrite download_file_existing by eauto. simpl. split; [reflexivity|].
    exists [Log WARNING (MsgSkipExisting filename)], O.
    splits; auto. lia.
  - rewrite download_file_absent by assumption.
    destruct (attempts_inv (Z.to_nat max_retries) 0 w Hlook)
      as (t & k & Ht & Hk & Hreq & Hfr & _).
    split; [assumption|]. now exists t, k.
Qed.

(** The counters after a call: one of three updates, which the returned
    value tells apart from a failure. *)
Lemma download_file_stats w :
  let s := download_stats w in
  let s' := download_stats (snd (download_file w)) in
  (fst (download_file w) = true
   /\ fs w !! filename = None
   /\ exists content,
       fs (snd (download_file w)) !! filename = Some (File content)
       /\ counted s s' 1 0 0 (Z.of_nat (String.length content)))
  \/ (fst (download_file w) = true
      /\ is_Some (fs w !! filename)
      /\ counted s s' 0 0 1 0)
  \/ (fst (download_file w) = false /\ counted s s' 0 1 0 0).
Proof.
  simpl. destruct (fs w !! filename) as [e|] eqn:Hlook.
  - right; left. rewrite download_file_existing by eauto. simpl.
    unfold counted; simpl. splits; eauto; lia.
  - rewrite download_file_absent by assumption.
    destruct (attempts_inv (Z.to_nat max_retries) 0 w Hlook)
      as (t & k & Ht & Hk & Hreq & Hfr & Hend).
    destruct (fst (attempts (Z.to_nat max_retries) 0 w)).
    + left. destruct Hend as (content & Hfs & Hst & _).
      splits; auto. exists content. split.
      * rewrite Hfs. apply lookup_insert_eq.
      * rewrite Hst. unfold counted; simpl. splits; lia.
    + right; right. destruct Hend as (Hfs & Hst & _).
      split; [reflexivity|]. rewrite Hst.
      unfold counted; simpl. splits; lia.
Qed.

Lemma requests_effects t : requests (effects t) = requests t.
Proof.
  unfold requests, effects. induction t as [|e t IH]; [reflexivity|].
  destruct e; simpl; now rewrite ?IH.
Qed.

Lemma sleeps_effects t : sleeps (effects t) = sleeps t.
Proof.
  unfold sleeps, effects. induction t as [|e t IH]; [reflexivity|].
  destruct e; simpl; now rewrite ?IH.
Qed.

Lemma retry_schedule_requests k :
  forall a, requests (retry_schedule url max_retries a k)
            = replicate k (Get url).
Proof.
  induction k as [|k IH]; intros a; [reflexivity|].
  rewrite retry_schedule_S, requests_app, IH.
  now destruct (a <? max_retries - 1).
Qed.

(** Below the last turn of the budget every failed turn is followed by
    its wait. *)
Lemma retry_schedule_waits k :
  forall a,
    a + Z.of_nat k <= max_retries - 1 ->
    retry_schedule url max_retries a k =
    flat_map (fun j => [Get url; Sleep (2 ^ j)]) (seqZ a (Z.of_nat k)).
Proof.
  induction k as [|k IH]; intros a Hle; [reflexivity|].
  rewrite retry_schedule_S, IH by lia.
  rewrite (seqZ_cons a (Z.of_nat (S k))) by lia. simpl.
  replace (a <? max_retries - 1) with true by (symmetry; apply Z.ltb_lt; lia).
  replace (Z.pred (Z.of_nat (S k))) with (Z.of_nat k) by lia.
  now replace (Z.succ a) with (a + 1) by lia.
Qed.

Lemma retry_schedule_last k :
  retry_schedule url max_retries 0 (S k) =
  retry_schedule url max_retries 0 k
  ++ Get url :: (if Z.of_nat k <? max_retries - 1
                 then [Sleep (2 ^ Z.of_nat k)] else []).
Proof.
  unfold retry_schedule. rewrite seqZ_S, flat_map_app. simpl.
  now rewrite app_nil_r.
Qed.

Lemma sleeps_waits k a :
  sleeps (flat_map (fun j => [Get url; Sleep (2 ^ j)]) (seqZ a (Z.of_nat k)))
  = map (fun j => 2 ^ j) (seqZ a (Z.of_nat k)).
Proof.
  induction (seqZ a (Z.of_nat k)) as [|j l IH]; [reflexivity|].
  simpl. now rewrite IH.
Qed.

(** The waits of a whole budget of failed attempts. *)
Lemma retry_schedule_sleeps :
  0 <= max_retries ->
  sleeps (retry_schedule url max_retries 0 (Z.to_nat max_retries))
  = map (fun attempt => 2 ^ attempt) (seqZ 0 (max_retries - 1)).
Proof.
  intros Hpos. destruct (Z.to_nat max_retries) as [|k] eqn:Hn.
  - now rewrite seqZ_nil by lia.
  - rewrite retry_schedule_last, sleeps_app.
    rewrite retry_schedule_waits, sleeps_waits by lia.
    replace (Z.of_nat k <? max_retries - 1) with false
      by (symmetry; apply Z.ltb_ge; lia).
    simpl. rewrite app_nil_r.
    now replace (max_retries - 1) with (Z.of_nat k) by lia.
Qed.

Lemma pow2_delays_monotone (n : Z) (i j : nat) (d1 d2 : Z) :
  (i <= j)%nat ->
  map (fun attempt => 2 ^ attempt) (seqZ 0 n) !! i = Some d1 ->
  map (fun attempt => 2 ^ attempt) (seqZ 0 n) !! j = Some d2 ->
  d1 <= d2.
Proof.
  intros Hij H1 H2.
  change (map ?f ?l) with (f <$> l) in H1, H2.
  rewrite list_lookup_fmap in H1, H2.
  destruct (seqZ 0 n !! i) as [a|] eqn:Ha; [|discriminate].
  destruct (seqZ 0 n !! j) as [b|] eqn:Hb; [|discriminate].
  apply lookup_seqZ in Ha as [-> _]. apply lookup_seqZ in Hb as [-> _].
  simpl in H1, H2. injection H1 as <-. injection H2 as <-.
  apply Z.pow_le_mono_r; lia.
Qed.

(** C2. A fetch whose destination is absent and whose every attempt meets
    a failure other than HTTP 404 makes exactly [max_retries] attempts, has
    no destination file left after any of them, waits [2 ^ attempt] between
    attempt [attempt] and the next (delays that never decrease), and ends
    in failure, counted once in [failed]. *)
Theorem download_file_retry_bound w :
  fs w !! filename = None ->
  0 <= max_retries ->
  (forall j, (j < Z.to_nat max_retries)%nat ->
             is_retryable (fetch net (clock w + j) url) = true) ->
  exists w' delays,
    download_file w = (false, w')
    /\ requests (trace w') =
       requests (trace w) ++ replicate (Z.to_nat max_retries) (Get url)
    /\ (forall i, (i <= Z.to_nat max_retries)%nat ->
          fs (after_attempts i 0 w) = fs w
          /\ fs (after_attempts i 0 w) !! filename = None)
    /\ fs w' = fs w
    /\ effects (trace w') =
       effects (trace w)
       ++ retry_schedule url max_retries 0 (Z.to_nat max_retries)
    /\ sleeps (trace w') = sleeps (trace w) ++ delays
    /\ delays = map (fun attempt => 2 ^ attempt) (seqZ 0 (max_retries - 1))
    /\ (forall i j d1 d2, (i <= j)%nat ->
          delays !! i = Some d1 -> delays !! j = Some d2 -> d1 <= d2)
    /\ counted (download_stats w) (download_stats w') 0 1 0 0.
Proof.
  intros Habs Hpos Hfail.
  destruct (after_attempts_retryable (Z.to_nat max_retries) 0 w Habs Hfail)
    as (Hfs & Hst & Hck & Heff & Hrun).
  exists (incr_failed (after_attempts (Z.to_nat max_retries) 0 w)),
    (map (fun attempt => 2 ^ attempt) (seqZ 0 (max_retries - 1))).
  splits.
  - rewrite download_file_absent by assumption.
    specialize (Hrun O). rewrite Nat.add_0_r in Hrun. now rewrite Hrun.
  - simpl. rewrite <- requests_effects, Heff, requests_app, requests_effects.
    now rewrite retry_schedule_requests.
  - intros i Hi.
    destruct (after_attempts_retryable i 0 w Habs) as (Hi_fs & _).
    { intros j Hj. apply Hfail. lia. }
    split; [assumption|]. now rewrite Hi_fs.
  - assumption.
  - assumption.
  - simpl. rewrite <- sleeps_effects, Heff, sleeps_app, sleeps_effects.
    now rewrite retry_schedule_sleeps.
  - reflexivity.
  - apply pow2_delays_monotone.
  - simpl. rewrite Hst. unfold counted; simpl. splits; lia.
Qed.

(** C3, as amended. An attempt that meets HTTP 404 is the last one: after
    [k] failures of other kinds it is attempt [k], the call makes [k + 1]
    attempts, fails, counts once in [failed], and takes no delay after the
    404. When the first attempt meets the 404 ([k = 0]) there is exactly
    one attempt and no delay at all. *)
Theorem download_file_not_found_stops w (k : nat) :
  fs w !! filename = None ->
  Z.of_nat k < max_retries ->
  (forall j, (j < k)%nat ->
             is_retryable (fetch net (clock w + j) url) = true) ->
  fetch net (clock w + k) url = HttpError 404 ->
  exists w',
    download_file w = (false, w')
    /\ requests (trace w') =
       requests (trace w) ++ replicate (S k) (Get url)
    /\ effects (trace w') =
       effects (trace w)
       ++ flat_map (fun j => [Get url; Sleep (2 ^ j)]) (seqZ 0 (Z.of_nat k))
       ++ [Get url]
    /\ sleeps (trace w') =
       sleeps (trace w)
       ++ map (fun attempt => 2 ^ attempt) (seqZ 0 (Z.of_nat k))
    /\ fs w' = fs w
    /\ counted (download_stats w) (download_stats w') 0 1 0 0.
Proof.
  intros Habs Hk Hfail H404.
  destruct (after_attempts_retryable k 0 w Habs Hfail)
    as (Hfs & Hst & Hck & Heff & Hrun).
  set (wk := after_attempts k 0 w) in *.
  destruct (Z.to_nat max_retries - k)%nat as [|m] eqn:Hm; [lia|].
  assert (Hn : Z.to_nat max_retries = (k + S m)%nat) by lia.
  pose proof (attempt_body_inv (0 + Z.of_nat k) wk) as [Hturn Htrace].
  rewrite Hck, H404 in Hturn, Htrace.
  assert (Hcall : download_file w = attempts (S m) (0 + Z.of_nat k) wk).
  { rewrite download_file_absent by assumption. now rewrite Hn, Hrun. }
  simpl attempts in Hcall.
  destruct (attempt_body (0 + Z.of_nat k) wk) as [[[|]|] w1] eqn:Hbody;
    simpl in Hturn; cbn [snd] in Htrace.
  - destruct Hturn as (content & Hans & _). discriminate.
  - destruct Hturn as (_ & Hfs1 & Hst1).
    assert (Heff1 : effects (trace w1) =
              effects (trace w)
              ++ flat_map (fun j => [Get url; Sleep (2 ^ j)])
                   (seqZ 0 (Z.of_nat k)) ++ [Get url]).
    { rewrite Htrace, effects_app, Heff, turn_events_effects. simpl.
      rewrite retry_schedule_waits by lia. now rewrite <- app_assoc. }
    exists w1. splits.
    + assumption.
    + rewrite <- requests_effects, Heff1, !requests_app, requests_effects.
      rewrite <- retry_schedule_waits by lia.
      rewrite retry_schedule_requests. simpl. f_equal.
      change [Get url] with (replicate 1 (Get url)).
      rewrite <- replicate_add.
      now replace (k + 1)%nat with (S k) by lia.
    + assumption.
    + rewrite <- sleeps_effects, Heff1, !sleeps_app, sleeps_effects.
      rewrite sleeps_waits. simpl. now rewrite app_nil_r.
    + now rewrite Hfs1.
    + rewrite Hst1. simpl. rewrite Hst. unfold counted; simpl. splits; lia.
  - destruct Hturn as (Hr & _). discriminate.
Qed.

End Fetcher.

(** ** Claims on the fetcher that speak of several calls *)

Section FetcherCalls.

Variable net : network.
Variable sha256_hex : string -> string.

Local Abbreviation download_file := (download_file net sha256_hex).
Local Abbreviation download_all := (download_all net sha256_hex).

Lemma download_file_true_exists url filename description max_retries w :
  fst (download_file url filename description max_retries w) = true ->
  is_Some (fs (snd (download_file url filename description max_retries w))
             !! filename).
Proof.
  intros Hok.
  destruct (download_file_stats net sha256_hex url filename description
              max_retries w) as [H|[H|H]].
  - destruct H as (_ & _ & content & Hlook & _). eauto.
  - destruct H as (_ & Hsome & _).
    rewrite download_file_existing by assumption. exact Hsome.
  - destruct H as (Hfalse & _). congruence.
Qed.

Lemma download_file_completed url filename description max_retries w :
  completed (snd (download_file url filename description max_retries w))
  = completed w + 1.
Proof.
  unfold completed.
  destruct (download_file_stats net sha256_hex url filename description
              max_retries w) as [H|[H|H]].
  - destruct H as (_ & _ & content & _ & H1 & H2 & H3 & _). lia.
  - destruct H as (_ & _ & H1 & H2 & H3 & _). lia.
  - destruct H as (_ & H1 & H2 & H3 & _). lia.
Qed.

(** C4. When the destination is already in the directory the call makes no
    request, logs that it skips, counts once in [skipped], returns [true]
    and leaves the directory, hence the file, as it is; so a second call
    for a destination that a first call reported as fetched makes no
    request either. *)
Theorem download_file_skips_existing url filename description max_retries w :
  (is_Some (fs w !! filename) ->
   exists w',
     download_file url filename description max_retries w = (true, w')
     /\ fs w' = fs w
     /\ trace w' = trace w ++ [Log WARNING (MsgSkipExisting filename)]
     /\ requests (trace w') = requests (trace w)
     /\ effects (trace w') = effects (trace w)
     /\ counted (download_stats w) (download_stats w') 0 0 1 0)
  /\ (fst (download_file url filename description max_retries w) = true ->
      forall url2 description2 max_retries2,
        let w1 := snd (download_file url filename description max_retries w) in
        exists w2,
          download_file url2 filename description2 max_retries2 w1 = (true, w2)
          /\ fs w2 = fs w1
          /\ requests (trace w2) = requests (trace w1)
          /\ effects (trace w2) = effects (trace w1)
          /\ counted (download_stats w1) (download_stats w2) 0 0 1 0).
Proof.
  assert (Hskip : forall u d m v,
             is_Some (fs v !! filename) ->
             exists v',
               download_file u filename d m v = (true, v')
               /\ fs v' = fs v
               /\ trace v' = trace v ++ [Log WARNING (MsgSkipExisting filename)]
               /\ requests (trace v') = requests (trace v)
               /\ effects (trace v') = effects (trace v)
               /\ counted (download_stats v) (download_stats v') 0 0 1 0).
  { intros u d m v Hsome. rewrite download_file_existing by assumption.
    eexists; split; [reflexivity|]. simpl.
    rewrite requests_app, effects_app; simpl. rewrite !app_nil_r.
    unfold counted; simpl. splits; auto; lia. }
  split.
  - apply Hskip.
  - intros Hok url2 description2 max_retries2 w1.
    destruct (Hskip url2 description2 max_retries2 w1)
      as (w2 & Hcall & Hfs & _ & Hreq & Heff & Hcount).
    { now apply download_file_true_exists. }
    exists w2. splits; assumption.
Qed.


(** C10. Every call of [download_file] adds one to exactly one of
    [success], [failed] and [skipped] and nothing to the other two;
    [total_size] grows, by the size of the file left in the directory, on
    the calls that add to [success] only; the call returns [true] exactly
    when it added to [success] or to [skipped]; and after any sequence of
    calls the three counters have grown, together, by the number of
    calls. *)
Theorem download_file_counters :
  (forall url filename description max_retries w,
     let s := download_stats w in
     let r := download_file url filename description max_retries w in
     let s' := download_stats (snd r) in
     (fst r = true
      /\ exists content,
          fs (snd r) !! filename = Some (File content)
          /\ counted s s' 1 0 0 (Z.of_nat (String.length content)))
     \/ (fst r = true /\ counted s s' 0 0 1 0)
     \/ (fst r = false /\ counted s s' 0 1 0 0))
  /\ (forall calls w,
        completed (download_all calls w)
        = completed w + Z.of_nat (length calls)).
Proof.
  split.
  - intros url filename description max_retries w. simpl.
    destruct (download_file_stats net sha256_hex url filename description
                max_retries w) as [H|[H|H]].
    + left. destruct H as (Hok & _ & H). now split.
    + right; left. destruct H as (Hok & _ & H). now split.
    + right; right. exact H.
  - induction calls as [|[[[url filename] description] max_retries] rest IH];
      intros w.
    + simpl. lia.
    + simpl download_all. rewrite IH, download_file_completed.
      simpl length. lia.
Qed.

End FetcherCalls.

(** *** Scenarios for the fetcher *)

Lemma download_file_retry_bound_witness :
  fs empty_world !! "f" = None
  /\ exists w' delays,
      download_file failing_net toy_digest "u" "f" "d" 3 empty_world
      = (false, w')
      /\ requests (trace w') =
         requests (trace empty_world) ++ replicate (Z.to_nat 3) (Get "u")
      /\ (forall i, (i <= Z.to_nat 3)%nat ->
            fs (after_attempts failing_net toy_digest "u" "f" "d" 3 i 0
                  empty_world) = fs empty_world
            /\ fs (after_attempts failing_net toy_digest "u" "f" "d" 3 i 0
                     empty_world) !! "f" = None)
      /\ fs w' = fs empty_world
      /\ effects (trace w') =
         effects (trace empty_world)
         ++ retry_schedule "u" 3 0 (Z.to_nat 3)
      /\ sleeps (trace w') = sleeps (trace empty_world) ++ delays
      /\ delays = map (fun attempt => 2 ^ attempt) (seqZ 0 (3 - 1))
      /\ (forall i j d1 d2, (i <= j)%nat ->
            delays !! i = Some d1 -> delays !! j = Some d2 -> d1 <= d2)
      /\ counted (download_stats empty_world) (download_stats w') 0 1 0 0.
Proof.
  split; [reflexivity|].
  apply download_file_retry_bound.
  - reflexivity.
  - lia.
  - intros j Hj. destruct j as [|[|[|j]]]; reflexivity.
Defined.

Example retry_trace :
  effects (trace (snd (download_file failing_net toy_digest "u" "f" "d" 3
                         empty_world)))
  = [Get "u"; Sleep 1; Get "u"; Sleep 2; Get "u"].
Proof. reflexivity. Qed.

(** C3 as first stated fails: the second attempt meets HTTP 404, and the
    call has then made two attempts and taken one delay. *)
Lemma download_file_late_404_counterexample :
  let w' := snd (download_file late_404_net toy_digest "u" "f" "d" 3
                   empty_world) in
  fs empty_world !! "f" = None
  /\ In (Log ERROR (MsgHttpError 404 "d")) (trace w')
  /\ requests (trace w') = [Get "u"; Get "u"]
  /\ sleeps (trace w') = [1]
  /\ ~ (length (requests (trace w')) = 1%nat /\ sleeps (trace w') = []).
Proof.
  vm_compute. splits; try reflexivity.
  - right; right; right; right; right; right; right; right; right.
    left; reflexivity.
  - intros [H _]. discriminate H.
Qed.

Lemma download_file_not_found_stops_witness :
  exists w',
    download_file late_404_net toy_digest "u" "f" "d" 3 empty_world
    = (false, w')
    /\ requests (trace w') =
       requests (trace empty_world) ++ replicate 2 (Get "u")
    /\ effects (trace w') =
       effects (trace empty_world)
       ++ flat_map (fun j => [Get "u"; Sleep (2 ^ j)]) (seqZ 0 (Z.of_nat 1))
       ++ [Get "u"]
    /\ sleeps (trace w') =
       sleeps (trace empty_world)
       ++ map (fun attempt => 2 ^ attempt) (seqZ 0 (Z.of_nat 1))
    /\ fs w' = fs empty_world
    /\ counted (download_stats empty_world) (download_stats w') 0 1 0 0.
Proof.
  apply (download_file_not_found_stops late_404_net toy_digest "u" "f" "d" 3
           empty_world 1).
  - reflexivity.
  - lia.
  - intros j Hj. destruct j as [|j]; [reflexivity|lia].
  - reflexivity.
Defined.

Lemma download_file_skips_existing_witness :
  is_Some (fs world_with_f !! "f")
  /\ (exists w',
        download_file serving_net toy_digest "u" "f" "d" 3 world_with_f
        = (true, w')
        /\ fs w' = fs world_with_f
        /\ requests (trace w') = requests (trace world_with_f))
  /\ (exists w2,
        download_file serving_net toy_digest "u2" "g" "d2" 5
          (snd (download_file serving_net toy_digest "u" "g" "d" 3
                  world_with_f))
        = (true, w2)
        /\ requests (trace w2) = [Get "u"]).
Proof.
  assert (Hsome : is_Some (fs world_with_f !! "f")) by (eexists; reflexivity).
  split; [exact Hsome|]. split.
  - destruct (proj1 (download_file_skips_existing serving_net toy_digest
                       "u" "f" "d" 3 world_with_f) Hsome)
      as (w' & Hcall & Hfs & _ & Hreq & _).
    exists w'. splits; assumption.
  - destruct (proj2 (download_file_skips_existing serving_net toy_digest
                       "u" "g" "d" 3 world_with_f) eq_refl "u2" "d2" 5)
      as (w2 & Hcall & _ & Hreq & _).
    exists w2. split; [exact Hcall|]. rewrite Hreq. reflexivity.
Defined.



(** The test of line 225 is [exists()]: a directory at the destination is
    skipped as a file is. The call makes no request, counts a skip and
    returns [True], and no regular file is at the destination. The
    amended C8 says nothing of this case. *)
Example download_file_skips_directory :
  let r := download_file serving_net toy_digest "u" "f" "d" 3
             world_with_directory_f in
  fst r = true
  /\ fs (snd r) !! "f" = Some Dir
  /\ requests (trace (snd r)) = []
  /\ skipped (download_stats (snd r)) = 1.
Proof. vm_compute. splits; reflexivity. Qed.

(** ** Versions: parsing and order *)

Lemma tuple_compare_antisym a :
  forall b, tuple_compare b a = CompOpp (tuple_compare a b).
Proof.
  induction a as [|x a IH]; intros [|y b]; simpl; try reflexivity.
  rewrite (Z.compare_antisym x y).
  destruct (x ?= y); simpl; auto.
Qed.

Lemma tuple_compare_trans a :
  forall b c,
    tuple_compare a b <> Gt -> tuple_compare b c <> Gt ->
    tuple_compare a c <> Gt.
Proof.
  induction a as [|x a IH]; intros [|y b] [|z c]; simpl;
    try congruence.
  destruct (Z.compare_spec x y), (Z.compare_spec y z), (Z.compare_spec x z);
    subst; try lia; try congruence; eauto.
Qed.

Lemma not_newer_total a b : not_newer a b \/ not_newer b a.
Proof.
  unfold not_newer, key_le.
  rewrite (tuple_compare_antisym (version_key a) (version_key b)).
  destruct (tuple_compare (version_key a) (version_key b)); simpl; auto.
Qed.

Lemma not_newer_trans a b c : not_newer a b -> not_newer b c -> not_newer a c.
Proof.
  unfold not_newer, key_le. intros Hab Hbc.
  pose proof (tuple_compare_trans (version_key a) (version_key b)
                (version_key c)) as Ht.
  destruct (tuple_compare (version_key a) (version_key b));
    destruct (tuple_compare (version_key b) (version_key c));
    destruct (tuple_compare (version_key a) (version_key c));
    try reflexivity; try discriminate; exfalso; apply Ht; congruence.
Qed.

Lemma insert_desc_perm x l : insert_desc x l ≡ₚ x :: l.
Proof.
  induction l as [|y l IH]; simpl; [reflexivity|].
  destruct (key_le y x); [reflexivity|].
  rewrite IH. apply Permutation_swap.
Qed.

Lemma sorted_desc_perm l : sorted_desc l ≡ₚ l.
Proof.
  induction l as [|x l IH]; simpl; [reflexivity|].
  unfold sorted_desc in *. simpl. now rewrite insert_desc_perm, IH.
Qed.

Lemma insert_desc_descending x l :
  descending l -> descending (insert_desc x l).
Proof.
  unfold descending. induction l as [|y l IH]; intros Hs; simpl.
  - repeat constructor.
  - apply StronglySorted_inv in Hs as [Hs Hall].
    destruct (key_le y x) eqn:Hyx.
    + constructor; [now constructor|].
      constructor; [exact Hyx|].
      rewrite Forall_forall in *. intros b Hb.
      apply not_newer_trans with y; [now apply Hall|exact Hyx].
    + constructor; [now apply IH|].
      rewrite Forall_forall in *. intros b Hb.
      rewrite (insert_desc_perm x l) in Hb.
      apply elem_of_cons in Hb as [->|Hb]; [|now apply Hall].
      destruct (not_newer_total x y) as [H|H]; [exact H|].
      unfold not_newer in H. congruence.
Qed.

Lemma sorted_desc_descending l : descending (sorted_desc l).
Proof.
  induction l as [|x l IH]; simpl.
  - constructor.
  - now apply insert_desc_descending.
Qed.

(** The head of a descending list is its newest element. *)
Lemma descending_head x l v :
  descending (x :: l) -> v ∈ x :: l -> not_newer v x.
Proof.
  unfold descending. intros Hs Hv.
  apply StronglySorted_inv in Hs as [_ Hall].
  apply elem_of_cons in Hv as [->|Hv].
  - destruct (not_newer_total x x); assumption.
  - rewrite Forall_forall in Hall. now apply Hall.
Qed.

Lemma strip_prefix_app p :
  forall s r, Str.strip_prefix p s = Some r -> s = p +:+ r.
Proof.
  induction p as [|a p IH]; intros s r; simpl.
  - now intros [= ->].
  - destruct s as [|b s]; [discriminate|].
    destruct (Ascii.eqb_spec a b) as [->|]; [|discriminate].
    intros H. now rewrite (IH s r H).
Qed.

Lemma span_digits_app s :
  forall d r, Re.span_digits s = (d, r) ->
              s = d +:+ r /\ all_digits d = true.
Proof.
  induction s as [|c s IH]; intros d r; simpl.
  - intros [= <- <-]. now split.
  - destruct (Str.is_digit c) eqn:Hc.
    + destruct (Re.span_digits s) as [d' r'].
      intros [= <- <-]. destruct (IH d' r' eq_refl) as [-> Hd].
      simpl. rewrite Hc, Hd. now split.
    + intros [= <- <-]. now split.
Qed.

Lemma digits1_number s d r :
  Re.digits1 s = Some (d, r) -> s = d +:+ r /\ is_number d.
Proof.
  unfold Re.digits1. destruct (Re.span_digits s) as [d' r'] eqn:Hspan.
  destruct d' as [|c d'']; [discriminate|].
  intros [= <- <-]. destruct (span_digits_app _ _ _ Hspan) as [-> Hd].
  repeat split; [exact Hd|discriminate].
Qed.

(** What [(\d+\.\d+\.\d+)] captures is a version. *)
Lemma version_semver s v r :
  Re.version s = Some (v, r) -> is_semver v.
Proof.
  unfold Re.version. intros H.
  apply bind_Some in H as ([d1 r1] & H1 & H).
  apply bind_Some in H as (r1' & _ & H).
  apply bind_Some in H as ([d2 r2] & H2 & H).
  apply bind_Some in H as (r2' & _ & H).
  apply bind_Some in H as ([d3 r3] & H3 & H).
  injection H as <- <-.
  exists d1, d2, d3. split; [reflexivity|].
  apply digits1_number in H1 as [_ H1].
  apply digits1_number in H2 as [_ H2].
  apply digits1_number in H3 as [_ H3]. auto.
Qed.

Lemma findall_go_semver pre post s :
  forall skip v, v ∈ Re.findall_go pre post skip s -> is_semver v.
Proof.
  induction s as [|c s IH]; intros skip v; simpl.
  - intros H. now apply elem_of_nil in H.
  - destruct skip as [|k]; [|apply IH].
    destruct (Re.listing_entry pre post (String c s)) as [[v' len]|] eqn:He;
      [|apply IH].
    intros [->|H]%elem_of_cons; [|now apply IH in H].
    unfold Re.listing_entry in He.
    apply bind_Some in He as (r & _ & He).
    apply bind_Some in He as ([v'' r'] & Hv & He).
    apply bind_Some in He as (r'' & _ & He).
    injection He as <- _.
    now apply version_semver in Hv.
Qed.

Lemma findall_semver pre post s v :
  v ∈ Re.findall pre post s -> is_semver v.
Proof. apply findall_go_semver. Qed.

Lemma semver_nonempty v : is_semver v -> v <> EmptyString.
Proof.
  intros (major & minor & patch & -> & [_ Hm] & _).
  destruct major; [congruence|discriminate].
Qed.

Lemma digit_not_dot c : Str.is_digit c = true -> Ascii.eqb c "." = false.
Proof.
  intros H. destruct (Ascii.eqb_spec c "."); [subst; discriminate|reflexivity].
Qed.

Lemma split_number d :
  all_digits d = true -> Str.split "." d = [d].
Proof.
  induction d as [|c d IH]; simpl; [reflexivity|].
  intros [Hc Hd]%andb_true_iff.
  now rewrite (digit_not_dot c Hc), (IH Hd).
Qed.

Lemma split_number_dot d rest :
  all_digits d = true ->
  Str.split "." (d +:+ "." +:+ rest) = d :: Str.split "." rest.
Proof.
  induction d as [|c d IH]; simpl; [reflexivity|].
  intros [Hc Hd]%andb_true_iff.
  now rewrite (digit_not_dot c Hc), (IH Hd).
Qed.

(** The sort key of a version is the triple of its components read as
    integers. *)
Lemma version_key_semver major minor patch :
  is_number major -> is_number minor -> is_number patch ->
  version_key (major +:+ "." +:+ minor +:+ "." +:+ patch)
  = [Str.int major; Str.int minor; Str.int patch].
Proof.
  intros [H1 _] [H2 _] [H3 _]. unfold version_key.
  now rewrite (split_number_dot _ _ H1), (split_number_dot _ _ H2),
    (split_number _ H3).
Qed.

(** On triples the order is the lexicographic order of the integers. *)
Lemma not_newer_triple a b c a' b' c' v v' :
  version_key v = [a; b; c] -> version_key v' = [a'; b'; c'] ->
  not_newer v v' <->
  a < a' \/ (a = a' /\ (b < b' \/ (b = b' /\ c <= c'))).
Proof.
  intros Hv Hv'. unfold not_newer, key_le. rewrite Hv, Hv'. simpl.
  destruct (Z.compare_spec a a'), (Z.compare_spec b b'),
    (Z.compare_spec c c'); split; intros Hord; try reflexivity;
    try discriminate; try lia.
Qed.

(** ** The version resolver *)

Section Resolver.

Variable net : network.
Variable set_iter : list string -> list string.
Hypothesis set_iter_NoDup : forall l, NoDup (set_iter l).
Hypothesis set_iter_elem : forall l x, x ∈ set_iter l <-> x ∈ l.

Local Abbreviation list_versions := (list_versions net set_iter).
Local Abbreviation list_static_versions := (list_static_versions net set_iter).
Local Abbreviation resolve_static_version_for_arch :=
  (resolve_static_version_for_arch net set_iter).

(** The listing of an index page: without repetition, from the newest
    version down, and made of the versions the pattern finds in the page;
    empty when the page cannot be had. *)
Lemma list_versions_spec pre arch w :
  let listing := fst (list_versions pre arch w) in
  let w' := snd (list_versions pre arch w) in
  NoDup listing
  /\ descending listing
  /\ (forall v, v ∈ listing -> is_semver v)
  /\ fs w' = fs w
  /\ download_stats w' = download_stats w
  /\ match index_page net (clock w) (index_url arch) with
     | Some html =>
         (forall v, v ∈ listing <-> v ∈ Re.findall pre ".tgz" html)
         /\ trace w' = trace w ++ [Get (index_url arch)]
     | None =>
         listing = []
         /\ trace w' =
            trace w ++ [Get (index_url arch); Log ERROR MsgListFailed]
     end.
Proof.
  unfold list_versions.
  destruct (index_page net (clock w) (index_url arch)) as [html|]; simpl.
  - assert (Hel : forall v, v ∈ sorted_desc
                               (set_iter (Re.findall pre ".tgz" html))
                            <-> v ∈ Re.findall pre ".tgz" html).
    { intros v. now rewrite sorted_desc_perm, set_iter_elem. }
    splits; auto.
    + rewrite sorted_desc_perm. apply set_iter_NoDup.
    + apply sorted_desc_descending.
    + intros v Hv. apply Hel in Hv. now apply findall_semver in Hv.
  - splits; auto.
    + constructor.
    + constructor.
    + intros v Hv. now apply elem_of_nil in Hv.
    + now rewrite <- app_assoc.
Qed.

(** C1. [resolve_static_version_for_arch] returns the desired version
    when its URL exists; when it does not and the listing of the
    architecture is not empty, it returns the head of the listing, which is
    an element of it and the newest one, the listing being without
    repetition and ordered from the newest down by the integers of
    (major, minor, patch); when the listing is empty or cannot be had it
    returns the desired version. The result is not the empty string. *)
Theorem resolve_static_version_for_arch_spec arch desired_version w :
  desired_version <> EmptyString ->
  let url := docker_url_template arch desired_version in
  let resolved :=
    fst (resolve_static_version_for_arch arch desired_version w) in
  let listing := fst (list_static_versions arch (emit (Head url) w)) in
  (head_ok net (clock w) url = true -> resolved = desired_version)
  /\ (head_ok net (clock w) url = false -> listing <> [] ->
      head listing = Some resolved
      /\ resolved ∈ listing
      /\ forall v, v ∈ listing -> not_newer v resolved)
  /\ (head_ok net (clock w) url = false -> listing = [] ->
      resolved = desired_version)
  /\ resolved <> EmptyString
  /\ NoDup listing
  /\ descending listing
  /\ (forall v, v ∈ listing ->
        exists major minor patch,
          v = major +:+ "." +:+ minor +:+ "." +:+ patch
          /\ is_number major /\ is_number minor /\ is_number patch
          /\ version_key v = [Str.int major; Str.int minor; Str.int patch])
  /\ match index_page net (S (clock w)) (index_url arch) with
     | Some html =>
         forall v, v ∈ listing <-> v ∈ Re.findall "docker-" ".tgz" html
     | None => listing = []
     end.
Proof.
  intros Hne url resolved listing.
  destruct (list_versions_spec "docker-" arch (emit (Head url) w))
    as (Hnd & Hdesc & Hsem & _ & _ & Hpage).
  fold (list_static_versions arch (emit (Head url) w)) in Hnd, Hdesc, Hsem,
    Hpage.
  fold listing in Hnd, Hdesc, Hsem, Hpage.
  assert (Hclock : clock (emit (Head url) w) = S (clock w)).
  { unfold clock, emit; simpl. rewrite requests_app, length_app. simpl. lia. }
  rewrite Hclock in Hpage.
  assert (Hres : resolved =
                 if head_ok net (clock w) url then desired_version
                 else match listing with
                      | fallback :: _ => fallback
                      | [] => desired_version
                      end).
  { subst resolved listing.
    unfold resolve_static_version_for_arch, check_url_exists.
    fold url. destruct (head_ok net (clock w) url); [reflexivity|].
    destruct (list_static_versions arch (emit (Head url) w)) as [avail w1].
    now destruct avail. }
  splits.
  - intros Hok. now rewrite Hres, Hok.
  - intros Hno Hlist. rewrite Hres, Hno.
    destruct listing as [|newest rest] eqn:Hl; [congruence|].
    splits; [reflexivity|apply list_elem_of_here|].
    intros v Hv. now apply (descending_head newest rest).
  - intros Hno Hlist. now rewrite Hres, Hno, Hlist.
  - rewrite Hres. destruct (head_ok net (clock w) url); [assumption|].
    destruct listing as [|newest rest] eqn:Hl; [assumption|].
    apply semver_nonempty, Hsem, list_elem_of_here.
  - assumption.
  - assumption.
  - intros v Hv. destruct (Hsem v Hv) as (major & minor & patch & -> & H).
    exists major, minor, patch. destruct H as (H1 & H2 & H3).
    splits; auto. now apply version_key_semver.
  - destruct (index_page net (S (clock w)) (index_url arch)); tauto.
Qed.

End Resolver.

Lemma resolve_static_version_for_arch_witness :
  "99.0.0" <> EmptyString
  /\ fst (resolve_static_version_for_arch index_net remove_dups "x86_64"
            "99.0.0" empty_world) = "27.4.1"
  /\ fst (list_static_versions index_net remove_dups "x86_64"
            (emit (Head (docker_url_template "x86_64" "99.0.0")) empty_world))
     = ["27.4.1"; "27.3.0"; "9.0.0"].
Proof.
  assert (Hne : "99.0.0" <> EmptyString) by discriminate.
  split; [exact Hne|].
  destruct (resolve_static_version_for_arch_spec index_net remove_dups
              (@NoDup_remove_dups string _)
              (fun l x => @elem_of_remove_dups string _ l x)
              "x86_64" "99.0.0" empty_world Hne)
    as (_ & Hfallback & _).
  destruct (Hfallback eq_refl ltac:(discriminate)) as (Hhead & _).
  split; [|reflexivity].
  apply (inj Some). rewrite <- Hhead. reflexivity.
Defined.

(** ** The rootless-extras slot of the orchestrator *)

Section Rootless.

Variable net : network.
Variable sha256_hex : string -> string.
Variable set_iter : list string -> list string.
Hypothesis set_iter_NoDup : forall l, NoDup (set_iter l).
Hypothesis set_iter_elem : forall l x, x ∈ set_iter l <-> x ∈ l.

Local Abbreviation download_file := (download_file net sha256_hex).
Local Abbreviation list_rootless_versions :=
  (list_rootless_versions net set_iter).
Local Abbreviation rootless_slot := (rootless_slot net sha256_hex set_iter).

(** C5. When the fetch of the rootless-extras archive of the resolved
    runtime version fails, the slot asks for the rootless listing of the
    architecture, after the last attempt of that fetch. If the listing is
    empty the slot fails and no other fetch is made. Otherwise exactly one
    more fetch is made, for the newest version of the listing; its result
    is the result of the slot, and whether it succeeds or fails nothing
    is requested besides the index and its URL. *)
Theorem rootless_slot_fallback (a : arch) (docker_version : string) w :
  let primary :=
    download_file (rootless_url a docker_version)
      (rootless_file a docker_version)
      ("Docker Rootless Extras (" +:+ arch_name a +:+ ")") 3 w in
  fst primary = false ->
  let w1 := snd primary in
  let index := index_url (docker_arch (arch_mapping a)) in
  let listing :=
    fst (list_rootless_versions (docker_arch (arch_mapping a)) w1) in
  let slot := rootless_slot a docker_version w in
  match index_page net (clock w1) index with
  | Some html =>
      forall v, v ∈ listing
                <-> v ∈ Re.findall "docker-rootless-extras-" ".tgz" html
  | None => listing = []
  end
  /\ (listing = [] ->
      fst slot = false
      /\ completed (snd slot) = completed w + 1
      /\ fs (snd slot) = fs w1
      /\ exists t, trace (snd slot) = trace w1 ++ t
                   /\ requests t = [Get index])
  /\ (forall fallback rest,
        listing = fallback :: rest ->
        (forall v, v ∈ listing -> not_newer v fallback)
        /\ exists w2 t k,
            fs w2 = fs w1
            /\ download_stats w2 = download_stats w1
            /\ trace w2 = trace w1 ++
                 [Get index;
                  Log WARNING (MsgRootlessFallback docker_version
                                 (display_name (arch_mapping a)) fallback)]
            /\ slot =
               download_file (rootless_url a fallback)
                 (rootless_file a fallback)
                 ("Docker Rootless Extras (fallback " +:+ arch_name a
                    +:+ ")") 3 w2
            /\ completed (snd slot) = completed w + 2
            /\ trace (snd slot) = trace w2 ++ t
            /\ (k <= 3)%nat
            /\ requests t = replicate k (Get (rootless_url a fallback))).
Proof.
  intros primary Hfail w1 index listing slot.
  destruct (list_versions_spec net set_iter set_iter_NoDup set_iter_elem
              "docker-rootless-extras-" (docker_arch (arch_mapping a)) w1)
    as (_ & Hdesc & _ & Hfs & Hst & Hpage).
  fold (list_rootless_versions (docker_arch (arch_mapping a)) w1)
    in Hdesc, Hfs, Hst, Hpage.
  fold listing index in Hdesc, Hpage.
  assert (Hc1 : completed w1 = completed w + 1)
    by apply download_file_completed.
  assert (Hslot : slot =
            let '(avail, w2) :=
              list_rootless_versions (docker_arch (arch_mapping a)) w1 in
            match avail with
            | fallback :: _ =>
                download_file (rootless_url a fallback)
                  (rootless_file a fallback)
                  ("Docker Rootless Extras (fallback " +:+ arch_name a
                     +:+ ")") 3
                  (log WARNING (MsgRootlessFallback docker_version
                                  (display_name (arch_mapping a)) fallback)
                     w2)
            | [] => (false, w2)
            end).
  { subst slot. unfold rootless_slot.
    fold (rootless_file a docker_version) (rootless_url a docker_version).
    fold primary. destruct primary as [ok w1'] eqn:Hp.
    simpl in Hfail. subst ok. reflexivity. }
  subst listing.
  destruct (list_rootless_versions (docker_arch (arch_mapping a)) w1)
    as [avail w2] eqn:Hlist.
  simpl in *. splits.
  - destruct (index_page net (clock w1) index); tauto.
  - intros ->. rewrite Hslot. simpl. splits; auto.
    + unfold completed. rewrite Hst. exact Hc1.
    + destruct (index_page net (clock w1) index).
      * exists [Get index]. tauto.
      * exists [Get index; Log ERROR MsgListFailed]. split; [tauto|reflexivity].
  - intros fallback rest ->. split.
    + intros v Hv. now apply (descending_head fallback rest).
    + assert (Hpage' : trace w2 = trace w1 ++ [Get index]).
      { destruct (index_page net (clock w1) index); [tauto|].
        destruct Hpage as [Hnil _]. discriminate. }
      set (w3 := log WARNING (MsgRootlessFallback docker_version
                                (display_name (arch_mapping a)) fallback) w2).
      destruct (download_file_frame net sha256_hex
                  (rootless_url a fallback) (rootless_file a fallback)
                  ("Docker Rootless Extras (fallback " +:+ arch_name a
                     +:+ ")") 3 w3) as (_ & t & k & Ht & Hk & Hreq).
      exists w3, t, k. rewrite Hslot. splits; auto.
      * subst w3. simpl. rewrite Hpage'. now rewrite <- app_assoc.
      * rewrite download_file_completed. subst w3. unfold completed in *.
        simpl. rewrite Hst. lia.
Qed.

End Rootless.

Lemma rootless_slot_fallback_witness :
  let slot := rootless_slot index_net toy_digest remove_dups X86_64 "27.4.1"
                empty_world in
  fst (download_file index_net toy_digest (rootless_url X86_64 "27.4.1")
         (rootless_file X86_64 "27.4.1")
         ("Docker Rootless Extras (" +:+ arch_name X86_64 +:+ ")") 3
         empty_world) = false
  /\ fst slot = true
  /\ completed (snd slot) = 2
  /\ requests (trace (snd slot)) =
     [Get (rootless_url X86_64 "27.4.1");
      Get (index_url "x86_64");
      Get (rootless_url X86_64 "27.3.0")]
  /\ fs (snd slot) !! rootless_file X86_64 "27.3.0"
     = Some (File "rootless 27.3.0").
Proof.
  intros slot.
  assert (Hfail :
    fst (download_file index_net toy_digest (rootless_url X86_64 "27.4.1")
           (rootless_file X86_64 "27.4.1")
           ("Docker Rootless Extras (" +:+ arch_name X86_64 +:+ ")") 3
           empty_world) = false) by reflexivity.
  split; [exact Hfail|].
  destruct (rootless_slot_fallback index_net toy_digest remove_dups
              (@NoDup_remove_dups string _)
              (fun l x => @elem_of_remove_dups string _ l x)
              X86_64 "27.4.1" empty_world Hfail) as (_ & _ & Hfb).
  destruct (Hfb "27.3.0" [] eq_refl)
    as (_ & w2 & t & k & _ & _ & _ & Hslot & Hdone & _).
  fold slot in Hslot, Hdone.
  split; [reflexivity|]. split; [exact Hdone|]. split; reflexivity.
Defined.

(** ** The release asset locator *)

Lemma asset_loop_first_match arch assets :
  (asset_loop arch assets = None
   /\ forall a, a ∈ assets ->
                asset_matches arch a = false
                \/ browser_download_url a = None)
  \/ exists before a after,
      assets = before ++ a :: after
      /\ (forall b, b ∈ before -> asset_matches arch b = false)
      /\ asset_matches arch a = true
      /\ asset_loop arch assets = browser_download_url a.
Proof.
  induction assets as [|a assets IH]; simpl.
  - left. split; [reflexivity|]. intros a Ha. now apply elem_of_nil in Ha.
  - destruct (asset_matches arch a) eqn:Hm.
    + right. exists [], a, assets. splits; auto.
      * intros b Hb. now apply elem_of_nil in Hb.
      * unfold asset_matches in Hm.
        destruct (exact_match arch a); [reflexivity|].
        simpl in Hm. now rewrite Hm.
    + assert (Hloop : (if exact_match arch a then browser_download_url a
                       else if substring_match arch a
                            then browser_download_url a
                            else asset_loop arch assets)
                      = asset_loop arch assets).
      { unfold asset_matches in Hm. apply orb_false_iff in Hm as [-> ->].
        reflexivity. }
      rewrite Hloop.
      destruct IH as [[Hnone Hall]|(before & b & after & -> & Hbefore & Hb & Hres)].
      * left. split; [exact Hnone|].
        intros c [->|Hc]%elem_of_cons; auto.
      * right. exists (a :: before), b, after. splits; auto.
        intros c [->|Hc]%elem_of_cons; auto.
Qed.

(** What [get_compose_asset_url] does: it asks for the release tagged
    [v{version}] and walks the assets in the order of the release; the
    first asset that passes one of the two tests of the loop gives the
    result, and nothing is returned when the query fails or no asset
    passes. With the assets [docker-compose-linux-aarch64] and
    [docker-compose-linux-aarch64.exe] listed in this order it returns the
    URL of the first. *)
Lemma get_compose_asset_url_first_match net version arch w :
  let r := get_compose_asset_url net version arch w in
  let api := release_api_url version in
  requests (trace (snd r)) = requests (trace w) ++ [Get api]
  /\ api = "https://api.github.com/repos/docker/compose/releases/tags/v"
           +:+ version
  /\ (release_assets net (clock w) api = None -> fst r = None)
  /\ (forall assets,
        release_assets net (clock w) api = Some assets ->
        (fst r = None
         /\ forall a, a ∈ assets ->
                      asset_matches arch a = false
                      \/ browser_download_url a = None)
        \/ exists before a after,
            assets = before ++ a :: after
            /\ (forall b, b ∈ before -> asset_matches arch b = false)
            /\ asset_matches arch a = true
            /\ fst r = browser_download_url a)
  /\ (forall url_plain url_exe,
        asset_loop "aarch64"
          [ {| name := "docker-compose-linux-aarch64";
               browser_download_url := url_plain |};
            {| name := "docker-compose-linux-aarch64.exe";
               browser_download_url := url_exe |} ] = url_plain).
Proof.
  intros r api. subst r. unfold get_compose_asset_url. fold api.
  destruct (release_assets net (clock w) api) as [assets|]; simpl; splits;
    try reflexivity.
  - now rewrite requests_app.
  - discriminate.
  - intros assets' [= <-]. apply asset_loop_first_match.
  - rewrite !requests_app. simpl. now rewrite app_nil_r.
  - discriminate.
Qed.

(** ** The checksum manifest *)

Lemma length_append s1 s2 :
  String.length (s1 +:+ s2) = (String.length s1 + String.length s2)%nat.
Proof. induction s1 as [|c s1 IH]; simpl; [reflexivity|now rewrite IH]. Qed.

Lemma drop_append s1 s2 : Str.drop (String.length s1) (s1 +:+ s2) = s2.
Proof. induction s1 as [|c s1 IH]; simpl; [now destruct s2|exact IH]. Qed.

Lemma rfind_last_dot stem ext :
  Str.rfind "." ext = None ->
  Str.rfind "." (stem +:+ "." +:+ ext) = Some (String.length stem).
Proof.
  intros Hext. induction stem as [|c stem IH].
  - change (Str.rfind "." (String "." ext) = Some O).
    cbn [Str.rfind]. rewrite Hext. reflexivity.
  - change (Str.rfind "." (String c (stem +:+ "." +:+ ext))
            = Some (S (String.length stem))).
    cbn [Str.rfind]. now rewrite IH.
Qed.

(** [Path.suffix] of a name with a stem and an extension. *)
Lemma suffix_extension stem ext :
  Str.rfind "." ext = None -> ext <> EmptyString ->
  Str.suffix (stem +:+ "." +:+ ext) =
  match stem with
  | EmptyString => EmptyString
  | String _ _ => "." +:+ ext
  end.
Proof.
  intros Hext Hne. unfold Str.suffix. rewrite rfind_last_dot by assumption.
  destruct stem as [|c stem]; [reflexivity|].
  assert (H1 : (0 <? String.length (String c stem))%nat = true)
    by reflexivity.
  assert (H2 : (String.length (String c stem)
                <? String.length (String c stem +:+ "." +:+ ext) - 1)%nat
               = true).
  { apply Nat.ltb_lt. rewrite !length_append.
    destruct ext as [|e ext]; [congruence|]. simpl. lia. }
  rewrite H1, H2. apply drop_append.
Qed.

Lemma suffix_no_dot filename :
  Str.rfind "." filename = None -> Str.suffix filename = EmptyString.
Proof. unfold Str.suffix. now intros ->. Qed.

Lemma StronglySorted_filter {A} (R : A -> A -> Prop) (f : A -> bool) l :
  StronglySorted R l -> StronglySorted R (List.filter f l).
Proof.
  induction 1 as [|x l Hs IH Hall]; simpl; [constructor|].
  destruct (f x); [|exact IH].
  constructor; [exact IH|].
  rewrite Forall_forall in *. intros y Hy.
  apply list_elem_of_In, filter_In in Hy as [Hy _].
  now apply Hall, list_elem_of_In.
Qed.

Section Manifest.

Variable sha256_hex : string -> string.

Local Abbreviation checksum_line := (checksum_line sha256_hex).
Local Abbreviation create_checksums_file := (create_checksums_file sha256_hex).

(** The files of the manifest are those that pass the test of the loop,
    in the order of their names. *)
Lemma create_checksums_file_listing w :
  fs w !! "SHA256SUMS" <> Some Dir ->
  exists w' covered,
    create_checksums_file w = Some w'
    /\ (forall other, other <> "SHA256SUMS" -> fs w' !! other = fs w !! other)
    /\ fs w' !! "SHA256SUMS" =
       Some (File (String.concat "" (map (checksum_line (fs w)) covered)))
    /\ StronglySorted String.le covered
    /\ NoDup covered
    /\ forall filename,
         filename ∈ covered <-> listed (fs w) filename = true.
Proof.
  intros Hdir.
  set (m1 := <["SHA256SUMS" := File ""]> (fs w)).
  set (files := merge_sort String.le (map fst (map_to_list m1))).
  set (covered := List.filter (listed m1) files).
  assert (Hlisted : forall filename, listed m1 filename = listed (fs w) filename).
  { intros filename. unfold listed, m1.
    destruct (decide (filename = "SHA256SUMS")) as [->|Hne].
    - rewrite lookup_insert_eq. simpl.
      now destruct (fs w !! "SHA256SUMS") as [[c|]|].
    - now rewrite lookup_insert_ne. }
  assert (Hcov : forall filename,
             filename ∈ covered <-> listed (fs w) filename = true).
  { intros filename. subst covered. rewrite list_elem_of_In, filter_In.
    rewrite Hlisted. split; [tauto|]. intros Hl. split; [|exact Hl].
    apply list_elem_of_In. subst files. rewrite merge_sort_Permutation.
    change (map fst (map_to_list m1)) with (fst <$> map_to_list m1).
    rewrite <- Hlisted in Hl. unfold listed in Hl.
    destruct (m1 !! filename) as [e|] eqn:Hlook; [|discriminate].
    apply list_elem_of_fmap. exists (filename, e). split; [reflexivity|].
    now apply elem_of_map_to_list. }
  assert (Hlines : map (checksum_line m1) covered
                   = map (checksum_line (fs w)) covered).
  { apply map_ext_in. intros filename Hin.
    apply list_elem_of_In, Hcov in Hin.
    unfold checksum_line. unfold listed in Hin.
    destruct (decide (filename = "SHA256SUMS")) as [->|Hne].
    - now destruct (fs w !! "SHA256SUMS") as [[c|]|].
    - unfold m1. now rewrite lookup_insert_ne. }
  exists (log INFO MsgChecksumsCreated
            (write_file "SHA256SUMS"
               (String.concat "" (map (checksum_line m1) covered))
               (write_file "SHA256SUMS" "" w))), covered.
  splits.
  - unfold create_checksums_file.
    destruct (fs w !! "SHA256SUMS") as [[c|]|] eqn:Hlook;
      try reflexivity; congruence.
  - intros other Hne. simpl. now rewrite !lookup_insert_ne.
  - simpl. rewrite lookup_insert_eq. now rewrite Hlines.
  - subst covered files. apply StronglySorted_filter.
    apply StronglySorted_merge_sort; apply _.
  - subst covered files. apply NoDup_ListNoDup, List.NoDup_filter, NoDup_ListNoDup.
    rewrite merge_sort_Permutation. apply NoDup_fst_map_to_list.
  - exact Hcov.
Qed.

Lemma listed_extension m stem ext content :
  Str.rfind "." ext = None -> ext <> EmptyString ->
  m !! (stem +:+ "." +:+ ext) = Some (File content) ->
  listed m (stem +:+ "." +:+ ext) =
  match stem with
  | EmptyString => true
  | String _ _ => String.eqb ("." +:+ ext) ".tgz"
  end.
Proof.
  intros Hext Hne Hlook. unfold listed. rewrite Hlook.
  rewrite suffix_extension by assumption.
  assert (Hname : String.eqb (stem +:+ "." +:+ ext) "SHA256SUMS" = false).
  { apply String.eqb_neq. intros Heq.
    pose proof (rfind_last_dot stem ext Hext) as Hr.
    rewrite Heq in Hr. discriminate. }
  rewrite Hname. destruct stem; simpl.
  - reflexivity.
  - now rewrite orb_false_r, andb_true_r.
Qed.

(** C9, as amended. [create_checksums_file] replaces the content of the
    manifest, whatever it was, by one line [<hex-digest>  <filename>] for
    each covered file, the lines in the order of the file names. A covered
    file is a regular file of the output directory other than the
    manifest; every regular file whose name ends in [.tgz] or holds no dot
    is covered, the manifest apart; no file named [<stem>.txt] or
    [<stem>.json] is covered. *)
Theorem create_checksums_file_spec w :
  fs w !! "SHA256SUMS" <> Some Dir ->
  exists w' covered,
    create_checksums_file w = Some w'
    /\ (forall other, other <> "SHA256SUMS" -> fs w' !! other = fs w !! other)
    /\ fs w' !! "SHA256SUMS" =
       Some (File (String.concat "" (map (checksum_line (fs w)) covered)))
    /\ StronglySorted String.le covered
    /\ NoDup covered
    /\ (forall filename,
          filename ∈ covered ->
          filename <> "SHA256SUMS"
          /\ exists content,
              fs w !! filename = Some (File content)
              /\ checksum_line (fs w) filename =
                 sha256_hex content +:+ "  " +:+ filename +:+ line_feed)
    /\ (forall stem content,
          fs w !! (stem +:+ ".tgz") = Some (File content) ->
          stem +:+ ".tgz" ∈ covered)
    /\ (forall filename content,
          fs w !! filename = Some (File content) ->
          Str.rfind "." filename = None ->
          filename <> "SHA256SUMS" ->
          filename ∈ covered)
    /\ (forall stem ext,
          stem <> EmptyString -> ext = "txt" \/ ext = "json" ->
          stem +:+ "." +:+ ext ∉ covered).
Proof.
  intros Hdir.
  destruct (create_checksums_file_listing w Hdir)
    as (w' & covered & Hcall & Hframe & Hman & Hsort & Hnd & Hcov).
  exists w', covered. splits; try assumption.
  - intros filename Hin. apply Hcov in Hin. unfold listed in Hin.
    unfold checksum_line.
    destruct (fs w !! filename) as [[content|]|]; try discriminate.
    apply andb_true_iff in Hin as [_ Hin].
    apply negb_true_iff, String.eqb_neq in Hin.
    split; [exact Hin|]. now exists content.
  - intros stem content Hlook. apply Hcov.
    change (stem +:+ ".tgz") with (stem +:+ "." +:+ "tgz") in *.
    rewrite (listed_extension (fs w) stem "tgz" content) by
      (try reflexivity; try discriminate; exact Hlook).
    now destruct stem.
  - intros filename content Hlook Hdot Hne. apply Hcov.
    unfold listed. rewrite Hlook, (suffix_no_dot filename Hdot).
    apply String.eqb_neq in Hne. now rewrite Hne.
  - intros stem ext Hstem Hext Hin. apply Hcov in Hin.
    assert (Hfile : exists content,
               fs w !! (stem +:+ "." +:+ ext) = Some (File content)).
    { unfold listed in Hin.
      destruct (fs w !! (stem +:+ "." +:+ ext)) as [[content|]|];
        try discriminate. now exists content. }
    destruct Hfile as [content Hlook].
    destruct stem as [|c stem]; [congruence|].
    destruct Hext as [-> | ->].
    + rewrite (listed_extension (fs w) _ "txt" content) in Hin;
        try reflexivity; try discriminate; try exact Hlook.
    + rewrite (listed_extension (fs w) _ "json" content) in Hin;
        try reflexivity; try discriminate; try exact Hlook.
Qed.

End Manifest.

Lemma create_checksums_file_spec_witness :
  fs mirror_world !! "SHA256SUMS" <> Some Dir
  /\ exists w',
      create_checksums_file toy_digest mirror_world = Some w'
      /\ fs w' !! "SHA256SUMS" =
         Some (File ("sha256(runtime)  docker-27.4.1-x86_64.tgz" +:+ line_feed
                     +:+ "sha256(extras)  docker-rootless-extras-27.4.1-x86_64.tgz"
                     +:+ line_feed)).
Proof.
  assert (Hdir : fs mirror_world !! "SHA256SUMS" <> Some Dir) by discriminate.
  split; [exact Hdir|].
  destruct (create_checksums_file_spec toy_digest mirror_world Hdir)
    as (w' & covered & Hcall & _).
  exists w'. split; [exact Hcall|].
  vm_compute in Hcall. injection Hcall as <-. reflexivity.
Defined.

(** C9 as first stated fails: the log of the run and the version document
    are regular files of the output directory, neither is the manifest,
    and the manifest has no line for them. *)
Lemma create_checksums_file_coverage_counterexample :
  exists w',
    create_checksums_file toy_digest mirror_world = Some w'
    /\ fs mirror_world !! "update_log_20240101_000000.txt"
       = Some (File "log lines")
    /\ fs mirror_world !! "VERSION.json" = Some (File "{}")
    /\ fs w' !! "SHA256SUMS" =
       Some (File ("sha256(runtime)  docker-27.4.1-x86_64.tgz" +:+ line_feed
                   +:+ "sha256(extras)  docker-rootless-extras-27.4.1-x86_64.tgz"
                   +:+ line_feed))
    /\ forall content,
         fs w' !! "SHA256SUMS" = Some (File content) ->
         Str.contains "update_log_20240101_000000.txt" content = false
         /\ Str.contains "VERSION.json" content = false.
Proof.
  eexists. split; [vm_compute; reflexivity|].
  splits; try reflexivity.
  intros content Hc. vm_compute in Hc. injection Hc as <-.
  split; reflexivity.
Qed.

Example compose_binary_not_listed :
  listed (fs mirror_world) "docker-compose-linux-2.32.4-x86_64" = false
  /\ Str.suffix "docker-compose-linux-2.32.4-x86_64" = ".4-x86_64".
Proof. split; reflexivity. Qed.

(** ** The reconciler *)

Lemma glob_spec pattern w filename :
  filename ∈ glob pattern w
  <-> Str.fnmatch pattern filename = true /\ is_Some (fs w !! filename).
Proof.
  unfold glob. rewrite list_elem_of_In, filter_In, <- list_elem_of_In.
  change (map fst (map_to_list (fs w))) with (fst <$> map_to_list (fs w)).
  rewrite list_elem_of_fmap. split.
  - intros [([n e] & -> & Hin) Hm]. split; [exact Hm|].
    apply elem_of_map_to_list in Hin. simpl. eauto.
  - intros [Hm [e He]]. split; [|exact Hm].
    exists (filename, e). split; [reflexivity|].
    now apply elem_of_map_to_list.
Qed.

Lemma glob_NoDup pattern w : NoDup (glob pattern w).
Proof.
  unfold glob. apply NoDup_ListNoDup, List.NoDup_filter, NoDup_ListNoDup.
  apply NoDup_fst_map_to_list.
Qed.

Lemma bool_decide_tail (filename file : string) (rest : list string) :
  filename <> file ->
  bool_decide (filename ∈ file :: rest) = bool_decide (filename ∈ rest).
Proof. intros Hne. apply bool_decide_ext. rewrite elem_of_cons. tauto. Qed.

(** A loop of the reconciler over distinct names none of which is a
    directory to delete: it ends normally, having removed the names whose
    version differs and nothing else. *)
Lemma cleanup_loop_spec pre post current files :
  forall w,
    NoDup files ->
    (forall filename,
       filename ∈ files ->
       version_differs pre post current filename = true ->
       exists content, fs w !! filename = Some (File content)) ->
    exists w',
      cleanup_loop pre post current files w = Finished w'
      /\ download_stats w' = download_stats w
      /\ requests (trace w') = requests (trace w)
      /\ forall filename,
           fs w' !! filename =
           if bool_decide (filename ∈ files)
              && version_differs pre post current filename
           then None else fs w !! filename.
Proof.
  induction files as [|file rest IH]; intros w Hnd Hfiles.
  - exists w. simpl. splits; auto.
  - apply NoDup_cons in Hnd as [Hnotin Hnd].
    assert (Hrest : forall v filename,
               (forall other, other <> file -> fs v !! other = fs w !! other) ->
               filename ∈ rest ->
               version_differs pre post current filename = true ->
               exists content, fs v !! filename = Some (File content)).
    { intros v filename Hv Hin Hd. rewrite Hv.
      - apply Hfiles; [now apply list_elem_of_further|exact Hd].
      - intros ->. contradiction. }
    assert (Hkeep : version_differs pre post current file = false ->
              exists w',
                cleanup_loop pre post current rest w = Finished w'
                /\ download_stats w' = download_stats w
                /\ requests (trace w') = requests (trace w)
                /\ forall filename,
                     fs w' !! filename =
                     if bool_decide (filename ∈ file :: rest)
                        && version_differs pre post current filename
                     then None else fs w !! filename).
    { intros Hd.
      destruct (IH w Hnd (fun f => Hrest w f (fun _ _ => eq_refl)))
        as (w' & Hrun & Hst & Hreq & Hfs).
      exists w'. splits; auto. intros filename. rewrite Hfs.
      destruct (decide (filename = file)) as [->|Hne].
      - rewrite Hd, !andb_false_r. reflexivity.
      - now rewrite bool_decide_tail. }
    simpl cleanup_loop. unfold version_differs in Hkeep, Hfiles.
    pose proof (Hfiles file (list_elem_of_here _ _)) as Hfile.
    destruct (Re.match_versioned pre post file) as [file_version|] eqn:Hmatch;
      [|now apply Hkeep].
    destruct (String.eqb file_version current) eqn:Heq; [now apply Hkeep|].
    destruct (Hfile eq_refl) as [content Hlook].
    unfold unlink_entry. rewrite Hlook.
    set (w1 := log INFO (MsgDeleted file) (unlink file w)).
    destruct (IH w1 Hnd) as (w' & Hrun & Hst & Hreq & Hfs).
    { intros filename Hin Hd. apply (Hrest w1 filename); auto.
      intros other Hne. simpl. now rewrite lookup_delete_ne. }
    exists w'. splits; auto.
    + rewrite Hreq. subst w1. simpl. rewrite requests_app. simpl.
      now rewrite app_nil_r.
    + intros filename. rewrite Hfs. subst w1. simpl.
      destruct (decide (filename = file)) as [->|Hne].
      * rewrite lookup_delete_eq.
        rewrite (bool_decide_eq_true_2 (file ∈ file :: rest))
          by apply list_elem_of_here.
        unfold version_differs. rewrite Hmatch, Heq. simpl.
        now destruct (bool_decide (file ∈ rest) && _).
      * rewrite lookup_delete_ne by congruence.
        now rewrite bool_decide_tail.
Qed.

(** One pass: the glob of a pattern, then the loop. *)
Lemma cleanup_pass_spec pre post pattern current w :
  (forall filename,
     Str.fnmatch pattern filename
     && version_differs pre post current filename = true ->
     fs w !! filename <> Some Dir) ->
  exists w',
    cleanup_loop pre post current (glob pattern w) w = Finished w'
    /\ download_stats w' = download_stats w
    /\ requests (trace w') = requests (trace w)
    /\ forall filename,
         fs w' !! filename =
         if Str.fnmatch pattern filename
            && version_differs pre post current filename
         then None else fs w !! filename.
Proof.
  intros Hdir.
  destruct (cleanup_loop_spec pre post current (glob pattern w) w)
    as (w' & Hrun & Hst & Hreq & Hfs).
  { apply glob_NoDup. }
  { intros filename Hin Hd. apply glob_spec in Hin as [Hm [e He]].
    specialize (Hdir filename). rewrite Hm, Hd in Hdir.
    destruct e as [content|]; [eauto|]. now destruct (Hdir eq_refl). }
  exists w'. splits; auto. intros filename. rewrite Hfs.
  destruct (Str.fnmatch pattern filename) eqn:Hm; simpl.
  - destruct (fs w !! filename) as [e|] eqn:Hlook.
    + rewrite bool_decide_eq_true_2; [reflexivity|].
      apply glob_spec. eauto.
    + destruct (bool_decide _);
        destruct (version_differs pre post current filename); reflexivity.
  - rewrite bool_decide_eq_false_2; [reflexivity|].
    rewrite glob_spec. intros [Hm' _]. congruence.
Qed.

(** The reconciler as a whole, when no directory bears a stale name:
    a name is removed exactly when one of the three loops globs it and
    finds in it a version other than the one the loop compares with; the
    other entries, the counters and the network are left alone. *)
Lemma cleanup_old_versions_spec
    current_docker_version current_compose_version (a : arch) w :
  (forall filename,
     stale current_docker_version current_compose_version (arch_name a)
       filename = true ->
     fs w !! filename <> Some Dir) ->
  let w' :=
    cleanup_old_versions current_docker_version current_compose_version a w in
  (forall filename,
     fs w' !! filename =
     if stale current_docker_version current_compose_version (arch_name a)
          filename
     then None else fs w !! filename)
  /\ download_stats w' = download_stats w
  /\ requests (trace w') = requests (trace w).
Proof.
  intros Hdir. unfold cleanup_old_versions.
  destruct (cleanup_pass_spec "docker-" ".tgz" (docker_pattern (arch_name a))
              current_docker_version w)
    as (w1 & Hrun1 & Hst1 & Hreq1 & Hfs1).
  { intros filename Hs. apply Hdir. unfold stale, family_stale.
    now rewrite Hs. }
  rewrite Hrun1.
  destruct (cleanup_pass_spec "docker-rootless-extras-" ".tgz"
              (rootless_pattern (arch_name a)) current_docker_version w1)
    as (w2 & Hrun2 & Hst2 & Hreq2 & Hfs2).
  { intros filename Hs. rewrite Hfs1.
    destruct (Str.fnmatch (docker_pattern (arch_name a)) filename
              && version_differs "docker-" ".tgz" current_docker_version
                   filename); [discriminate|].
    apply Hdir. unfold stale, family_stale. rewrite Hs.
    now rewrite orb_true_r. }
  rewrite Hrun2.
  destruct (cleanup_pass_spec "docker-compose-linux-" ""
              (compose_pattern (arch_name a)) current_compose_version w2)
    as (w3 & Hrun3 & Hst3 & Hreq3 & Hfs3).
  { intros filename Hs. rewrite Hfs2, Hfs1.
    destruct (Str.fnmatch (rootless_pattern (arch_name a)) filename
              && version_differs "docker-rootless-extras-" ".tgz"
                   current_docker_version filename); [discriminate|].
    destruct (Str.fnmatch (docker_pattern (arch_name a)) filename
              && version_differs "docker-" ".tgz" current_docker_version
                   filename); [discriminate|].
    apply Hdir. unfold stale, family_stale. rewrite Hs.
    now rewrite orb_true_r. }
  rewrite Hrun3. simpl. splits.
  - intros filename. rewrite Hfs3, Hfs2, Hfs1. unfold stale, family_stale.
    destruct (Str.fnmatch (docker_pattern (arch_name a)) filename
              && version_differs "docker-" ".tgz" current_docker_version
                   filename);
      destruct (Str.fnmatch (rootless_pattern (arch_name a)) filename
                && version_differs "docker-rootless-extras-" ".tgz"
                     current_docker_version filename);
      destruct (Str.fnmatch (compose_pattern (arch_name a)) filename
                && version_differs "docker-compose-linux-" ""
                     current_compose_version filename); reflexivity.
  - congruence.
  - congruence.
Qed.

(** The scenario of the reconciliation: of the runtime archives 1.0.0,
    1.1.0 and 1.2.0 of x86_64 only the first two are removed; the archive
    of the other architecture, the files of the other families and a file
    no pattern matches stay. *)
Example cleanup_three_versions :
  fs (cleanup_old_versions "1.2.0" "2.32.4" X86_64 three_versions_world)
  = list_to_map
      [("docker-1.2.0-x86_64.tgz", File "c");
       ("docker-1.0.0-aarch64.tgz", File "d");
       ("docker-rootless-extras-1.2.0-x86_64.tgz", File "e");
       ("docker-compose-linux-2.32.4-x86_64", File "f");
       ("notes-1.0.0-x86_64.tgz", File "g")].
Proof. vm_compute. reflexivity. Qed.

(** C6, where the code departs from it. In a run in which the
    rootless-extras archive of the resolved runtime version 27.4.1 is
    missing and the fallback 27.3.0 is fetched in its place, all three
    slots succeed and the manifest lists the 27.3.0 archive; the
    rootless loop of [cleanup_old_versions] then compares its version with
    the runtime version and removes it, although it is the version just
    installed for its family. *)
Theorem cleanup_removes_rootless_fallback :
  exists w_manifest w_end,
    update_one fallback_net toy_digest remove_dups X86_64 "27.4.1" "2.32.4"
      empty_world = Some (3, 3, w_manifest, w_end)
    /\ fs w_manifest !! rootless_file X86_64 "27.4.1" = None
    /\ fs w_manifest !! rootless_file X86_64 "27.3.0"
       = Some (File ("bytes of " +:+ rootless_url X86_64 "27.3.0"))
    /\ fs w_end !! rootless_file X86_64 "27.3.0" = None
    /\ In (Log INFO (MsgDeleted (rootless_file X86_64 "27.3.0")))
         (trace w_end)
    /\ family_stale RootlessExtras "27.4.1" "2.32.4" "x86_64"
         (rootless_file X86_64 "27.3.0") = true
    /\ version_differs "docker-rootless-extras-" ".tgz" "27.3.0"
         (rootless_file X86_64 "27.3.0") = false.
Proof.
  eexists _, _. split; [vm_compute; reflexivity|].
  vm_compute. splits; try reflexivity.
  repeat (first [left; reflexivity | right]).
Qed.
Example findall_index :
  Re.findall "docker-" ".tgz"
    "<a href=docker-27.3.0.tgz>docker-27.3.0.tgz</a> docker-27.4.1.tgz docker-rootless-extras-27.4.1.tgz docker-1.2.tgz"
  = ["27.3.0"; "27.3.0"; "27.4.1"].
Proof. reflexivity. Qed.

Example match_versioned_runtime :
  Re.match_versioned "docker-" ".tgz" "docker-27.4.1-x86_64.tgz" = Some "27.4.1"
  /\ Re.match_versioned "docker-" ".tgz" "docker-rootless-extras-27.4.1-x86_64.tgz" = None
  /\ Re.match_versioned "docker-compose-linux-" "" "docker-compose-linux-2.32.4-aarch64" = Some "2.32.4".
Proof. repeat split. Qed.

Example suffix_examples :
  Str.suffix "docker-27.4.1-x86_64.tgz" = ".tgz"
  /\ Str.suffix "SHA256SUMS" = ""
  /\ Str.suffix "VERSION.json" = ".json"
  /\ Str.suffix "docker-compose-linux-2.32.4-x86_64" = ".4-x86_64".
Proof. repeat split. Qed.

Example fnmatch_examples :
  Str.fnmatch "docker-*-x86_64.tgz" "docker-27.4.1-x86_64.tgz" = true
  /\ Str.fnmatch "docker-*-x86_64.tgz" "docker-27.4.1-aarch64.tgz" = false
  /\ Str.fnmatch "docker-*-x86_64.tgz" "docker-rootless-extras-27.4.1-x86_64.tgz" = true.
Proof. repeat split. Qed.

Example numeric_not_lexicographic :
  sorted_desc ["9.0.0"; "27.4.1"; "27.3.0"; "27.10.0"]
  = ["27.10.0"; "27.4.1"; "27.3.0"; "9.0.0"].
Proof. reflexivity. Qed.


(** *** Names of the program's own making *)

Lemma append_assoc s1 s2 s3 : (s1 +:+ s2) +:+ s3 = s1 +:+ (s2 +:+ s3).
Proof.
  induction s1 as [|c s1 IH]; [reflexivity|].
  change (String c ((s1 +:+ s2) +:+ s3) = String c (s1 +:+ (s2 +:+ s3))).
  now f_equal.
Qed.

Lemma strip_prefix_append p s : Str.strip_prefix p (p +:+ s) = Some s.
Proof.
  induction p as [|c p IH]; simpl; [reflexivity|].
  now rewrite Ascii.eqb_refl.
Qed.

Lemma span_digits_stop d rest :
  all_digits d = true -> stops_digits rest ->
  Re.span_digits (d +:+ rest) = (d, rest).
Proof.
  intros Hd Hrest. induction d as [|c d IH].
  - change (Re.span_digits rest = (EmptyString, rest)).
    destruct rest as [|c rest]; [reflexivity|].
    change (Str.is_digit c = false) in Hrest.
    change ((if Str.is_digit c
             then let '(d, r) := Re.span_digits rest in (String c d, r)
             else (EmptyString, String c rest))
            = (EmptyString, String c rest)).
    now rewrite Hrest.
  - change (Str.is_digit c && all_digits d = true) in Hd.
    apply andb_true_iff in Hd as [Hc Hd].
    change ((if Str.is_digit c
             then let '(d0, r) := Re.span_digits (d +:+ rest) in
                  (String c d0, r)
             else (EmptyString, String c (d +:+ rest)))
            = (String c d, rest)).
    now rewrite Hc, (IH Hd).
Qed.

Lemma digits1_stop d rest :
  is_number d -> stops_digits rest ->
  Re.digits1 (d +:+ rest) = Some (d, rest).
Proof.
  intros [Hd Hne] Hrest. unfold Re.digits1.
  rewrite span_digits_stop by assumption.
  destruct d; [congruence|reflexivity].
Qed.

Lemma bind_Some_l {A B} (x : A) (f : A -> option B) : Some x ≫= f = f x.
Proof. reflexivity. Qed.

Ltac step_bind := rewrite bind_Some_l; cbv beta iota.

(** The pattern of a version reads a version back, whatever follows it
    that is not a digit. *)
Lemma version_of_semver v rest :
  is_semver v -> stops_digits rest ->
  Re.version (v +:+ rest) = Some (v, rest).
Proof.
  intros (major & minor & patch & -> & H1 & H2 & H3) Hrest.
  unfold Re.version. rewrite !append_assoc.
  rewrite (digits1_stop major) by (assumption || reflexivity). step_bind.
  rewrite strip_prefix_append. step_bind.
  rewrite (digits1_stop minor) by (assumption || reflexivity). step_bind.
  rewrite strip_prefix_append. step_bind.
  rewrite (digits1_stop patch) by assumption. step_bind.
  reflexivity.
Qed.

Lemma match_versioned_canonical pre post v tail :
  is_semver v -> Re.dotplus_then post tail = true ->
  Re.match_versioned pre post (pre +:+ v +:+ "-" +:+ tail) = Some v.
Proof.
  intros Hv Htail. unfold Re.match_versioned.
  rewrite strip_prefix_append. step_bind.
  rewrite (version_of_semver v ("-" +:+ tail)) by (assumption || reflexivity).
  step_bind. rewrite strip_prefix_append. step_bind.
  now rewrite Htail.
Qed.

Lemma fnmatch_star_unfold q n :
  Str.fnmatch (String "*" q) n =
  Str.fnmatch q n
  || match n with
     | EmptyString => false
     | String _ n' => Str.fnmatch (String "*" q) n'
     end.
Proof. destruct n; reflexivity. Qed.

Lemma fnmatch_star q s t :
  Str.fnmatch q t = true -> Str.fnmatch (String "*" q) (s +:+ t) = true.
Proof.
  intros Hq. induction s as [|c s IH].
  - change (EmptyString +:+ t) with t.
    now rewrite fnmatch_star_unfold, Hq.
  - change (String c s +:+ t) with (String c (s +:+ t)).
    rewrite fnmatch_star_unfold, IH. apply orb_true_r.
Qed.

Lemma semver_head v :
  is_semver v -> exists c v', v = String c v' /\ Str.is_digit c = true.
Proof.
  intros (major & minor & patch & -> & [Hd Hne] & _).
  destruct major as [|c major]; [congruence|].
  change (Str.is_digit c && all_digits major = true) in Hd.
  apply andb_true_iff in Hd as [Hc _].
  now exists c, (major +:+ "." +:+ minor +:+ "." +:+ patch).
Qed.

Lemma fnmatch_prefix p q s :
  literal p = true -> Str.fnmatch (p +:+ q) (p +:+ s) = Str.fnmatch q s.
Proof.
  induction p as [|c p IH]; intros Hp; [reflexivity|].
  change (negb (Ascii.eqb c "*") && literal p = true) in Hp.
  apply andb_true_iff in Hp as [Hc Hp]. apply negb_true_iff in Hc.
  change (Str.fnmatch (String c (p +:+ q)) (String c (p +:+ s))
          = Str.fnmatch q s).
  cbn [Str.fnmatch]. rewrite Hc, Ascii.eqb_refl. now apply IH.
Qed.

Lemma strip_prefix_mismatch p x q c s :
  Ascii.eqb x c = false ->
  Str.strip_prefix (p +:+ String x q) (p +:+ String c s) = None.
Proof.
  intros Hx. induction p as [|b p IH].
  - change (Str.strip_prefix (String x q) (String c s) = None).
    cbn [Str.strip_prefix]. now rewrite Hx.
  - change (Str.strip_prefix (String b (p +:+ String x q))
              (String b (p +:+ String c s)) = None).
    cbn [Str.strip_prefix]. now rewrite Ascii.eqb_refl.
Qed.

Lemma digit_mismatch x c :
  Str.is_digit x = false -> Str.is_digit c = true -> Ascii.eqb x c = false.
Proof.
  intros Hx Hc. destruct (Ascii.eqb_spec x c) as [->|]; congruence.
Qed.

(** A runtime archive is neither a rootless-extras nor a compose name:
    after [docker-] its version begins with a digit. *)
Lemma runtime_name_other_families v rest current :
  is_semver v ->
  version_differs "docker-rootless-extras-" ".tgz" current
    ("docker-" +:+ v +:+ rest) = false
  /\ version_differs "docker-compose-linux-" "" current
       ("docker-" +:+ v +:+ rest) = false.
Proof.
  intros Hv. destruct (semver_head v Hv) as (c & v' & -> & Hc).
  assert (Hr : Str.strip_prefix "docker-rootless-extras-"
                 ("docker-" +:+ String c v' +:+ rest) = None).
  { apply (strip_prefix_mismatch "docker-" "r" "ootless-extras-" c
             (v' +:+ rest)). now apply digit_mismatch. }
  assert (Hc' : Str.strip_prefix "docker-compose-linux-"
                  ("docker-" +:+ String c v' +:+ rest) = None).
  { apply (strip_prefix_mismatch "docker-" "c" "ompose-linux-" c
             (v' +:+ rest)). now apply digit_mismatch. }
  unfold version_differs, Re.match_versioned.
  now rewrite Hr, Hc'.
Qed.

Lemma canonical_glob (f : family) (a : arch) v :
  Str.fnmatch
    (match f with
     | Runtime => docker_pattern (arch_name a)
     | RootlessExtras => rootless_pattern (arch_name a)
     | ComposeTool => compose_pattern (arch_name a)
     end) (canonical_file f a v) = true.
Proof.
  destruct f, a.
  - change (Str.fnmatch ("docker-" +:+ String "*" "-x86_64.tgz")
              ("docker-" +:+ (v +:+ "-x86_64.tgz")) = true).
    rewrite fnmatch_prefix by reflexivity. now apply fnmatch_star.
  - change (Str.fnmatch ("docker-" +:+ String "*" "-aarch64.tgz")
              ("docker-" +:+ (v +:+ "-aarch64.tgz")) = true).
    rewrite fnmatch_prefix by reflexivity. now apply fnmatch_star.
  - change (Str.fnmatch
              ("docker-rootless-extras-" +:+ String "*" "-x86_64.tgz")
              ("docker-rootless-extras-" +:+ (v +:+ "-x86_64.tgz")) = true).
    rewrite fnmatch_prefix by reflexivity. now apply fnmatch_star.
  - change (Str.fnmatch
              ("docker-rootless-extras-" +:+ String "*" "-aarch64.tgz")
              ("docker-rootless-extras-" +:+ (v +:+ "-aarch64.tgz")) = true).
    rewrite fnmatch_prefix by reflexivity. now apply fnmatch_star.
  - change (Str.fnmatch ("docker-compose-linux-" +:+ String "*" "-x86_64")
              ("docker-compose-linux-" +:+ (v +:+ "-x86_64")) = true).
    rewrite fnmatch_prefix by reflexivity. now apply fnmatch_star.
  - change (Str.fnmatch ("docker-compose-linux-" +:+ String "*" "-aarch64")
              ("docker-compose-linux-" +:+ (v +:+ "-aarch64")) = true).
    rewrite fnmatch_prefix by reflexivity. now apply fnmatch_star.
Qed.

Lemma canonical_version (f : family) (a : arch) v current :
  is_semver v ->
  version_differs
    (match f with
     | Runtime => "docker-"
     | RootlessExtras => "docker-rootless-extras-"
     | ComposeTool => "docker-compose-linux-"
     end)
    (match f with ComposeTool => EmptyString | _ => ".tgz" end)
    current (canonical_file f a v)
  = negb (String.eqb v current).
Proof.
  intros Hv. unfold version_differs.
  destruct f.
  - rewrite (match_versioned_canonical "docker-" ".tgz" v
               (arch_name a +:+ ".tgz") Hv : _ -> Re.match_versioned
                 "docker-" ".tgz" (canonical_file Runtime a v) = Some v);
      [reflexivity|now destruct a].
  - rewrite (match_versioned_canonical "docker-rootless-extras-" ".tgz" v
               (arch_name a +:+ ".tgz") Hv : _ -> Re.match_versioned
                 "docker-rootless-extras-" ".tgz"
                 (canonical_file RootlessExtras a v) = Some v);
      [reflexivity|now destruct a].
  - rewrite (match_versioned_canonical "docker-compose-linux-" "" v
               (arch_name a) Hv : _ -> Re.match_versioned
                 "docker-compose-linux-" ""
                 (canonical_file ComposeTool a v) = Some v);
      [reflexivity|now destruct a].
Qed.

(** Of the names the program itself gives to its artifacts, the
    reconciler holds stale exactly those whose version differs from the
    version it compares the family with. *)
Lemma canonical_stale (f : family) (a : arch) v
    current_docker_version current_compose_version :
  is_semver v ->
  stale current_docker_version current_compose_version (arch_name a)
    (canonical_file f a v)
  = negb (String.eqb v
            (compared_version f current_docker_version
               current_compose_version)).
Proof.
  intros Hv. unfold stale, family_stale.
  pose proof (canonical_glob f a v) as Hglob.
  pose proof (canonical_version f a v
                (compared_version f current_docker_version
                   current_compose_version) Hv) as Hver.
  destruct f; simpl compared_version in *.
  - destruct (runtime_name_other_families v
                ("-" +:+ arch_name a +:+ ".tgz") current_docker_version Hv)
      as [Hr _].
    destruct (runtime_name_other_families v
                ("-" +:+ arch_name a +:+ ".tgz") current_compose_version Hv)
      as [_ Hc].
    change (canonical_file Runtime a v)
      with ("docker-" +:+ v +:+ "-" +:+ arch_name a +:+ ".tgz") in *.
    rewrite Hglob, Hver, Hr, Hc, !andb_false_r, !orb_false_r.
    reflexivity.
  - assert (H1 : version_differs "docker-" ".tgz" current_docker_version
                   (canonical_file RootlessExtras a v) = false)
      by reflexivity.
    assert (H3 : version_differs "docker-compose-linux-" ""
                   current_compose_version
                   (canonical_file RootlessExtras a v) = false)
      by reflexivity.
    rewrite Hglob, Hver, H1, H3, !andb_false_r, !orb_false_r.
    reflexivity.
  - assert (H1 : version_differs "docker-" ".tgz" current_docker_version
                   (canonical_file ComposeTool a v) = false)
      by reflexivity.
    assert (H2 : version_differs "docker-rootless-extras-" ".tgz"
                   current_docker_version
                   (canonical_file ComposeTool a v) = false)
      by reflexivity.
    rewrite Hglob, Hver, H1, H2, !andb_false_r. reflexivity.
Qed.

(** Hence, when no directory bears a stale name, the archive or binary
    of a family, an architecture and a version is removed by the
    reconciler of this architecture exactly when its version differs from
    the one its family is compared with. *)
Lemma cleanup_old_versions_canonical (f : family) (a : arch) v
    current_docker_version current_compose_version w :
  is_semver v ->
  (forall filename,
     stale current_docker_version current_compose_version (arch_name a)
       filename = true ->
     fs w !! filename <> Some Dir) ->
  fs (cleanup_old_versions current_docker_version current_compose_version
        a w) !! canonical_file f a v
  = if String.eqb v (compared_version f current_docker_version
                       current_compose_version)
    then fs w !! canonical_file f a v else None.
Proof.
  intros Hv Hdir.
  destruct (cleanup_old_versions_spec current_docker_version
              current_compose_version a w Hdir) as (Hfs & _).
  rewrite Hfs, canonical_stale by assumption.
  now destruct (String.eqb v _).
Qed.

(** For the two architectures of the program the test on exact names
    never decides: a name it accepts passes the substring test too. *)
Lemma exact_match_is_substring_match (a : arch) (x : asset) :
  exact_match (compose_arch (arch_mapping a)) x = true ->
  substring_match (compose_arch (arch_mapping a)) x = true.
Proof.
  unfold exact_match, substring_match. destruct x as [n u]. simpl name.
  destruct a; simpl existsb;
    rewrite ?orb_true_iff, ?orb_false_r, ?String.eqb_eq;
    intros H; decompose [or] H; subst; try reflexivity; discriminate.
Qed.

(** * Further properties *)

(** ** The fetcher *)

Section FetcherMore.

Variable net : network.
Variable sha256_hex : string -> string.
Variables url filename description : string.
Variable max_retries : Z.

Local Abbreviation attempt_body :=
  (attempt_body net sha256_hex url filename description max_retries).
Local Abbreviation attempts :=
  (attempts net sha256_hex url filename description max_retries).
Local Abbreviation after_attempts :=
  (after_attempts net sha256_hex url filename description max_retries).
Local Abbreviation download_file :=
  (download_file net sha256_hex url filename description max_retries).
Local Abbreviation turn_events :=
  (turn_events sha256_hex url filename description max_retries).

(** X1. With a budget of no attempt and the destination absent,
    [download_file] asks nothing of the network, logs nothing, leaves the
    directory alone, and still counts a failure and returns [False]. *)
Theorem download_file_no_budget w :
  fs w !! filename = None ->
  max_retries <= 0 ->
  exists w',
    download_file w = (false, w')
    /\ trace w' = trace w
    /\ fs w' = fs w
    /\ counted (download_stats w) (download_stats w') 0 1 0 0.
Proof.
  intros Habs Hneg. rewrite download_file_absent by assumption.
  replace (Z.to_nat max_retries) with O by lia.
  exists (incr_failed w). unfold counted; simpl. splits; auto; lia.
Qed.

(** Failed turns log no digest. *)
Lemma after_attempts_no_digest k :
  forall a w,
    fs w !! filename = None ->
    (forall j, (j < k)%nat ->
               is_retryable (fetch net (clock w + j) url) = true) ->
    exists t0, trace (after_attempts k a w) = trace w ++ t0
               /\ digests t0 = [].
Proof.
  induction k as [|k IH]; intros a w Habs Hfail.
  - exists []. simpl. now rewrite app_nil_r.
  - simpl.
    pose proof (attempt_body_inv net sha256_hex url filename description
                  max_retries a w) as [Hturn Htrace].
    pose proof (Hfail O ltac:(lia)) as H0. rewrite Nat.add_0_r in H0.
    destruct (attempt_body a w) as [[[|]|] w1] eqn:Hstep; simpl in *.
    + destruct Hturn as (c & Hans & _). rewrite Hans in H0. discriminate.
    + destruct Hturn as (Hans & _). rewrite Hans in H0. discriminate.
    + destruct Hturn as (_ & Hfs & _ & _). specialize (Hfs Habs).
      destruct (IH (a + 1) w1) as (t0 & Ht0 & Hd0).
      { now rewrite Hfs. }
      { intros j Hj.
        assert (Hclock : clock w1 = S (clock w)).
        { unfold clock. rewrite Htrace, requests_app,
            turn_events_requests, length_app. simpl. lia. }
        rewrite Hclock.
        replace (S (clock w) + j)%nat with (clock w + S j)%nat by lia.
        apply Hfail. lia. }
      exists (turn_events a (fetch net (clock w) url) ++ t0). split.
      * now rewrite Ht0, Htrace, <- app_assoc.
      * rewrite digests_app, Hd0, turn_events_digests.
        destruct (fetch net (clock w) url); try reflexivity.
        discriminate.
Qed.

(** X2. When the destination is absent, [k] attempts meet failures other
    than 404 and the next attempt, still within the budget, is served,
    [download_file] returns [True] after [k + 1] requests and the waits
    [2^0 .. 2^(k-1)], leaves exactly the served body at the destination,
    logs the digest of that body, and adds one to [success] and the length
    of the body to [total_size]. *)
Theorem download_file_succeeds_after_retries w (k : nat) content :
  fs w !! filename = None ->
  Z.of_nat k < max_retries ->
  (forall j, (j < k)%nat ->
             is_retryable (fetch net (clock w + j) url) = true) ->
  fetch net (clock w + k) url = Body content ->
  exists w' t,
    download_file w = (true, w')
    /\ fs w' = <[filename := File content]> (fs w)
    /\ requests (trace w') = requests (trace w) ++ replicate (S k) (Get url)
    /\ sleeps (trace w') =
       sleeps (trace w)
       ++ map (fun attempt => 2 ^ attempt) (seqZ 0 (Z.of_nat k))
    /\ trace w' = trace w ++ t
    /\ digests t = [sha256_hex content]
    /\ counted (download_stats w) (download_stats w') 1 0 0
         (Z.of_nat (String.length content)).
Proof.
  intros Habs Hk Hfail Hbody.
  destruct (after_attempts_retryable net sha256_hex url filename description
              max_retries k 0 w Habs Hfail)
    as (Hfs & Hst & Hck & Heff & Hrun).
  set (wk := after_attempts k 0 w) in *.
  destruct (Z.to_nat max_retries - k)%nat as [|m] eqn:Hm; [lia|].
  assert (Hn : Z.to_nat max_retries = (k + S m)%nat) by lia.
  pose proof (attempt_body_inv net sha256_hex url filename description
                max_retries (0 + Z.of_nat k) wk) as [Hturn Htrace].
  rewrite Hck, Hbody in Hturn, Htrace.
  assert (Hcall : download_file w = attempts (S m) (0 + Z.of_nat k) wk).
  { rewrite download_file_absent by assumption. now rewrite Hn, Hrun. }
  simpl attempts in Hcall.
  destruct (attempt_body (0 + Z.of_nat k) wk) as [[[|]|] w1] eqn:Hstep;
    simpl in Hturn; cbn [snd] in Htrace.
  - destruct Hturn as (content' & [= <-] & Hfs1 & Hst1).
    assert (Heff1 : effects (trace w1) =
              effects (trace w)
              ++ flat_map (fun j => [Get url; Sleep (2 ^ j)])
                   (seqZ 0 (Z.of_nat k)) ++ [Get url]).
    { rewrite Htrace, effects_app, Heff, turn_events_effects. simpl.
      rewrite retry_schedule_waits by lia. now rewrite <- app_assoc. }
    assert (Hprefix : exists t0, trace wk = trace w ++ t0 /\ digests t0 = [])
      by (unfold wk; apply after_attempts_no_digest; assumption).
    destruct Hprefix as (t0 & Ht0 & Hd0).
    exists w1, (t0 ++ turn_events (0 + Z.of_nat k) (Body content)). splits.
    + assumption.
    + now rewrite Hfs1, Hfs.
    + rewrite <- requests_effects, Heff1, !requests_app, requests_effects.
      rewrite <- (retry_schedule_waits url max_retries) by lia.
      rewrite retry_schedule_requests. simpl. f_equal.
      change [Get url] with (replicate 1 (Get url)).
      rewrite <- replicate_add.
      now replace (k + 1)%nat with (S k) by lia.
    + rewrite <- sleeps_effects, Heff1, !sleeps_app, sleeps_effects.
      rewrite sleeps_waits. simpl. now rewrite app_nil_r.
    + now rewrite Htrace, Ht0, <- app_assoc.
    + rewrite digests_app, Hd0, turn_events_digests. reflexivity.
    + rewrite Hst1. simpl. rewrite Hst. unfold counted; simpl. splits; lia.
  - destruct Hturn as (Hans & _). discriminate.
  - destruct Hturn as (Hr & _). discriminate.
Qed.

Lemma download_file_keeps_entry w other e :
  fs w !! other = Some e ->
  fs (snd (download_file w)) !! other = Some e.
Proof.
  intros Hlook. destruct (decide (other = filename)) as [->|Hne].
  - rewrite download_file_existing by eauto. exact Hlook.
  - destruct (download_file_frame net sha256_hex url filename description
                max_retries w) as [Hframe _].
    now rewrite Hframe.
Qed.

(** X3. [download_file] never removes and never rewrites an entry that is
    in the directory when it is called, the destination included, and it
    never creates an entry under another name than its destination. (The
    log file of the run is no entry of the directory of the embedding: its
    lines are events of the trace.) *)
Theorem download_file_preserves_entries w other :
  (forall e, fs w !! other = Some e ->
             fs (snd (download_file w)) !! other = Some e)
  /\ (other <> filename ->
      fs (snd (download_file w)) !! other = fs w !! other).
Proof.
  split.
  - intros e. apply download_file_keeps_entry.
  - destruct (download_file_frame net sha256_hex url filename description
                max_retries w) as [Hframe _].
    apply Hframe.
Qed.

(** X4. A call of [download_file] that returns [False] leaves the
    directory exactly as it found it: no partial file stays behind. *)
Theorem download_file_failure_leaves_directory w :
  fst (download_file w) = false ->
  fs (snd (download_file w)) = fs w.
Proof.
  destruct (fs w !! filename) as [e|] eqn:Hlook.
  - rewrite download_file_existing by eauto. discriminate.
  - rewrite download_file_absent by assumption. intros Hfalse.
    destruct (attempts_inv net sha256_hex url filename description
                max_retries (Z.to_nat max_retries) 0 w Hlook)
      as (t & k & _ & _ & _ & _ & Hend).
    rewrite Hfalse in Hend. now destruct Hend.
Qed.

End FetcherMore.

Lemma download_file_no_budget_witness :
  exists w',
    download_file serving_net toy_digest "u" "f" "d" 0 empty_world
    = (false, w')
    /\ trace w' = trace empty_world
    /\ fs w' = fs empty_world
    /\ counted (download_stats empty_world) (download_stats w') 0 1 0 0.
Proof.
  apply download_file_no_budget; [reflexivity|lia].
Defined.

Lemma download_file_succeeds_after_retries_witness :
  exists w' t,
    download_file recovering_net toy_digest "u" "f" "d" 3 empty_world
    = (true, w')
    /\ fs w' = <["f" := File "whole body"]> (fs empty_world)
    /\ requests (trace w') =
       requests (trace empty_world) ++ replicate 3 (Get "u")
    /\ sleeps (trace w') =
       sleeps (trace empty_world)
       ++ map (fun attempt => 2 ^ attempt) (seqZ 0 (Z.of_nat 2))
    /\ trace w' = trace empty_world ++ t
    /\ digests t = [toy_digest "whole body"]
    /\ counted (download_stats empty_world) (download_stats w') 1 0 0
         (Z.of_nat (String.length "whole body")).
Proof.
  apply (download_file_succeeds_after_retries recovering_net toy_digest
           "u" "f" "d" 3 empty_world 2 "whole body").
  - reflexivity.
  - lia.
  - intros j Hj. destruct j as [|[|j]]; [reflexivity|reflexivity|lia].
  - reflexivity.
Defined.

Lemma download_file_preserves_entries_witness :
  fs (snd (download_file serving_net toy_digest "u" "g" "d" 3 world_with_f))
    !! "f" = Some (File "old bytes").
Proof.
  apply (proj1 (download_file_preserves_entries serving_net toy_digest
                  "u" "g" "d" 3 world_with_f "f") (File "old bytes")).
  reflexivity.
Defined.

Lemma download_file_failure_leaves_directory_witness :
  fs (snd (download_file failing_net toy_digest "u" "g" "d" 3 world_with_f))
  = fs world_with_f.
Proof.
  apply (download_file_failure_leaves_directory failing_net toy_digest
           "u" "g" "d" 3 world_with_f).
  reflexivity.
Defined.

(** ** Listings and the resolver *)

Lemma digits1_app s d r : Re.digits1 s = Some (d, r) -> s = d +:+ r.
Proof. intros H. now apply digits1_number in H as [-> _]. Qed.

(** What the pattern of a version consumes is the version. *)
Lemma version_app s v r : Re.version s = Some (v, r) -> s = v +:+ r.
Proof.
  unfold Re.version. intros H.
  apply bind_Some in H as ([d1 r1] & H1 & H).
  apply bind_Some in H as (r1' & Hp1 & H).
  apply bind_Some in H as ([d2 r2] & H2 & H).
  apply bind_Some in H as (r2' & Hp2 & H).
  apply bind_Some in H as ([d3 r3] & H3 & H).
  injection H as <- <-.
  apply digits1_app in H1, H2, H3.
  apply strip_prefix_app in Hp1, Hp2.
  subst. now rewrite !append_assoc.
Qed.

Lemma startswith_append p s : Str.startswith p (p +:+ s) = true.
Proof. unfold Str.startswith. now rewrite strip_prefix_append. Qed.

Lemma contains_here p s : Str.startswith p s = true -> Str.contains p s = true.
Proof. intros H. destruct s; simpl; now rewrite H. Qed.

Lemma contains_later p c s :
  Str.contains p s = true -> Str.contains p (String c s) = true.
Proof. intros H. simpl. rewrite H. apply orb_true_r. Qed.

(** A version that [findall] returns names an archive of the page. *)
Lemma findall_go_contains pre post s :
  forall skip v,
    v ∈ Re.findall_go pre post skip s ->
    Str.contains (pre +:+ v +:+ post) s = true.
Proof.
  induction s as [|c s IH]; intros skip v.
  - intros H. now apply elem_of_nil in H.
  - cbn [Re.findall_go]. destruct skip as [|k].
    + destruct (Re.listing_entry pre post (String c s)) as [[v' len]|] eqn:He.
      * intros [Heq|H]%elem_of_cons.
        -- apply contains_here.
           unfold Re.listing_entry in He.
           apply bind_Some in He as (r & Hp & He).
           apply bind_Some in He as ([v'' r'] & Hv & He).
           apply bind_Some in He as (r'' & Hq & He).
           injection He as Hv'' _. subst v' v''.
           apply strip_prefix_app in Hp, Hq. apply version_app in Hv.
           rewrite Hp, Hv, Hq.
           replace (pre +:+ v +:+ post +:+ r'')
             with ((pre +:+ v +:+ post) +:+ r'')
             by now rewrite !append_assoc.
           apply startswith_append.
        -- apply contains_later. eapply IH. exact H.
      * intros H. apply contains_later. eapply IH. exact H.
    + intros H. apply contains_later. eapply IH. exact H.
Qed.

Section ListingMore.

Variable net : network.
Variable set_iter : list string -> list string.
Hypothesis set_iter_NoDup : forall l, NoDup (set_iter l).
Hypothesis set_iter_elem : forall l x, x ∈ set_iter l <-> x ∈ l.

Local Abbreviation list_versions := (list_versions net set_iter).
Local Abbreviation list_static_versions := (list_static_versions net set_iter).
Local Abbreviation list_rootless_versions :=
  (list_rootless_versions net set_iter).
Local Abbreviation resolve_static_version_for_arch :=
  (resolve_static_version_for_arch net set_iter).

Lemma list_versions_archives pre arch w :
  let listing := fst (list_versions pre arch w) in
  let w' := snd (list_versions pre arch w) in
  NoDup listing
  /\ descending listing
  /\ fs w' = fs w
  /\ download_stats w' = download_stats w
  /\ requests (trace w') = requests (trace w) ++ [Get (index_url arch)]
  /\ match index_page net (clock w) (index_url arch) with
     | Some html =>
         forall v, v ∈ listing ->
                   is_semver v
                   /\ Str.contains (pre +:+ v +:+ ".tgz") html = true
     | None =>
         listing = []
         /\ exists t, trace w' = t ++ [Log ERROR MsgListFailed]
     end.
Proof.
  destruct (list_versions_spec net set_iter set_iter_NoDup set_iter_elem
              pre arch w) as (Hnd & Hdesc & Hsem & Hfs & Hst & Hpage).
  simpl. splits; auto.
  - destruct (index_page net (clock w) (index_url arch)) as [html|].
    + destruct Hpage as [_ ->]. now rewrite requests_app.
    + destruct Hpage as [_ ->]. rewrite requests_app. reflexivity.
  - destruct (index_page net (clock w) (index_url arch)) as [html|].
    + destruct Hpage as [Hel _]. intros v Hv. split; [now apply Hsem|].
      apply Hel in Hv. now apply (findall_go_contains _ _ _ _ _ Hv).
    + destruct Hpage as [Hnil Htr]. split; [exact Hnil|].
      exists (trace w ++ [Get (index_url arch)]).
      now rewrite Htr, <- app_assoc.
Qed.

(** X5. [list_static_versions] and [list_rootless_versions] make one
    request, for the index of the architecture, and touch neither the
    directory nor the counters. What they return has no repetition, runs
    from the newest version down, and holds only versions
    [MAJOR.MINOR.PATCH] whose archive of the family is named in the page;
    when the page cannot be had they return the empty list and log an
    error. *)
Theorem listings_name_archives_of_page arch w :
  let static := list_static_versions arch w in
  let rootless := list_rootless_versions arch w in
  (NoDup (fst static) /\ descending (fst static)
   /\ NoDup (fst rootless) /\ descending (fst rootless))
  /\ (fs (snd static) = fs w /\ fs (snd rootless) = fs w
      /\ download_stats (snd static) = download_stats w
      /\ download_stats (snd rootless) = download_stats w)
  /\ (requests (trace (snd static))
      = requests (trace w) ++ [Get (index_url arch)]
      /\ requests (trace (snd rootless))
         = requests (trace w) ++ [Get (index_url arch)])
  /\ match index_page net (clock w) (index_url arch) with
     | Some html =>
         (forall v, v ∈ fst static ->
                    is_semver v
                    /\ Str.contains ("docker-" +:+ v +:+ ".tgz") html = true)
         /\ (forall v, v ∈ fst rootless ->
                       is_semver v
                       /\ Str.contains
                            ("docker-rootless-extras-" +:+ v +:+ ".tgz") html
                          = true)
     | None =>
         fst static = [] /\ fst rootless = []
         /\ (exists t, trace (snd static) = t ++ [Log ERROR MsgListFailed])
         /\ (exists t, trace (snd rootless) = t ++ [Log ERROR MsgListFailed])
     end.
Proof.
  intros static rootless.
  destruct (list_versions_archives "docker-" arch w)
    as (H1 & H2 & H3 & H4 & H5 & H6).
  destruct (list_versions_archives "docker-rootless-extras-" arch w)
    as (R1 & R2 & R3 & R4 & R5 & R6).
  splits; auto.
  destruct (index_page net (clock w) (index_url arch)).
  - split; [exact H6|exact R6].
  - destruct H6 as [A B], R6 as [C D]. splits; assumption.
Qed.

(** X7. [resolve_static_version_for_arch] only asks: it leaves the
    directory and the counters as they are, makes the [HEAD] request for
    the desired archive and, when that fails, one request for the index
    and none else. *)
Theorem resolve_static_version_for_arch_only_asks arch desired_version w :
  let r := resolve_static_version_for_arch arch desired_version w in
  let probe := Head (docker_url_template arch desired_version) in
  fs (snd r) = fs w
  /\ download_stats (snd r) = download_stats w
  /\ requests (trace (snd r)) =
     requests (trace w)
     ++ probe :: (if head_ok net (clock w)
                       (docker_url_template arch desired_version)
                  then [] else [Get (index_url arch)]).
Proof.
  intros r probe. subst r probe.
  unfold resolve_static_version_for_arch, check_url_exists.
  destruct (head_ok net (clock w) (docker_url_template arch desired_version)).
  - simpl. splits; auto. now rewrite requests_app.
  - pose proof (list_versions_archives "docker-" arch
                  (emit (Head (docker_url_template arch desired_version)) w))
      as (_ & _ & Hfs & Hst & Hreq & _).
    fold (list_static_versions arch
            (emit (Head (docker_url_template arch desired_version)) w))
      in Hfs, Hst, Hreq.
    destruct (list_static_versions arch
                (emit (Head (docker_url_template arch desired_version)) w))
      as [avail w1].
    simpl in Hfs, Hst, Hreq.
    destruct avail as [|fallback rest]; simpl; splits; auto;
      rewrite requests_app, Hreq, requests_app; simpl;
      now rewrite app_nil_r, <- app_assoc.
Qed.

(** X8. When the desired version is a version [MAJOR.MINOR.PATCH], so is
    the version [resolve_static_version_for_arch] returns. *)
Theorem resolve_static_version_for_arch_semver arch desired_version w :
  is_semver desired_version ->
  is_semver (fst (resolve_static_version_for_arch arch desired_version w)).
Proof.
  intros Hv. unfold resolve_static_version_for_arch, check_url_exists.
  destruct (head_ok net (clock w) (docker_url_template arch desired_version));
    [exact Hv|].
  pose proof (list_versions_spec net set_iter set_iter_NoDup set_iter_elem
                "docker-" arch
                (emit (Head (docker_url_template arch desired_version)) w))
    as (_ & _ & Hsem & _).
  fold (list_static_versions arch
          (emit (Head (docker_url_template arch desired_version)) w)) in Hsem.
  destruct (list_static_versions arch
              (emit (Head (docker_url_template arch desired_version)) w))
    as [avail w1].
  simpl in Hsem. destruct avail as [|fallback rest]; simpl; [exact Hv|].
  apply Hsem, list_elem_of_here.
Qed.

End ListingMore.

Lemma resolve_static_version_for_arch_semver_witness :
  is_semver "99.0.0"
  /\ is_semver (fst (resolve_static_version_for_arch index_net remove_dups
                       "x86_64" "99.0.0" empty_world)).
Proof.
  assert (Hv : is_semver "99.0.0").
  { exists "99", "0", "0". repeat split; discriminate. }
  split; [exact Hv|].
  apply (resolve_static_version_for_arch_semver index_net remove_dups
           (@NoDup_remove_dups string _)
           (fun l x => @elem_of_remove_dups string _ l x)
           "x86_64" "99.0.0" empty_world Hv).
Defined.

Lemma listings_name_archives_of_page_witness :
  NoDup (fst (list_static_versions index_net remove_dups "x86_64"
                empty_world))
  /\ descending (fst (list_static_versions index_net remove_dups "x86_64"
                        empty_world))
  /\ fs (snd (list_rootless_versions index_net remove_dups "x86_64"
                empty_world)) = fs empty_world.
Proof.
  destruct (listings_name_archives_of_page index_net remove_dups
              (@NoDup_remove_dups string _)
              (fun l x => @elem_of_remove_dups string _ l x)
              "x86_64" empty_world)
    as ((Hnd & Hdesc & _) & (_ & Hfs & _) & _).
  splits; assumption.
Defined.

Lemma resolve_static_version_for_arch_only_asks_witness :
  fs (snd (resolve_static_version_for_arch index_net remove_dups
             "x86_64" "99.0.0" empty_world)) = fs empty_world
  /\ requests (trace (snd (resolve_static_version_for_arch index_net
                             remove_dups "x86_64" "99.0.0" empty_world)))
     = [Head (docker_url_template "x86_64" "99.0.0");
        Get (index_url "x86_64")].
Proof.
  destruct (resolve_static_version_for_arch_only_asks index_net remove_dups
              (@NoDup_remove_dups string _)
              (fun l x => @elem_of_remove_dups string _ l x)
              "x86_64" "99.0.0" empty_world)
    as (Hfs & _ & Hreq).
  split; [exact Hfs|exact Hreq].
Defined.

(** *** Reading back a page of archives *)

Lemma findall_go_skip pre post s1 :
  forall s2 k,
    Re.findall_go pre post (String.length s1 + k) (s1 +:+ s2)
    = Re.findall_go pre post k s2.
Proof.
  induction s1 as [|c s1 IH]; intros s2 k; [reflexivity|].
  change (Re.findall_go pre post (S (String.length s1 + k))
            (String c (s1 +:+ s2)) = Re.findall_go pre post k s2).
  cbn [Re.findall_go]. apply IH.
Qed.

Lemma listing_entry_not_d p post c s :
  Ascii.eqb c "d" = false ->
  Re.listing_entry (String "d" p) post (String c s) = None.
Proof.
  intros Hc. unfold Re.listing_entry. cbn [Str.strip_prefix].
  rewrite Ascii.eqb_sym in Hc. now rewrite Hc.
Qed.

(** Where no [d] stands no archive name starts. *)
Lemma findall_go_avoids p post s1 :
  forall s2,
    avoids "d" s1 = true ->
    Re.findall_go (String "d" p) post 0 (s1 +:+ s2)
    = Re.findall_go (String "d" p) post 0 s2.
Proof.
  induction s1 as [|c s1 IH]; intros s2 Hav; [reflexivity|].
  change (negb (Ascii.eqb c "d") && avoids "d" s1 = true) in Hav.
  apply andb_true_iff in Hav as [Hc Hav]. apply negb_true_iff in Hc.
  change (Re.findall_go (String "d" p) post 0 (String c (s1 +:+ s2))
          = Re.findall_go (String "d" p) post 0 s2).
  cbn [Re.findall_go]. rewrite listing_entry_not_d by assumption.
  now apply IH.
Qed.

Lemma avoids_append c s1 s2 :
  avoids c (s1 +:+ s2) = avoids c s1 && avoids c s2.
Proof.
  induction s1 as [|d s1 IH]; [reflexivity|].
  change (negb (Ascii.eqb d c) && avoids c (s1 +:+ s2)
          = negb (Ascii.eqb d c) && avoids c s1 && avoids c s2).
  now rewrite IH, andb_assoc.
Qed.

Lemma digits_avoid_d s : all_digits s = true -> avoids "d" s = true.
Proof.
  induction s as [|c s IH]; [reflexivity|].
  intros H. change (Str.is_digit c && all_digits s = true) in H.
  apply andb_true_iff in H as [Hc Hs].
  change (negb (Ascii.eqb c "d") && avoids "d" s = true).
  rewrite (IH Hs), andb_true_r. apply negb_true_iff.
  rewrite Ascii.eqb_sym. apply digit_mismatch; [reflexivity|exact Hc].
Qed.

Lemma semver_avoids_d v : is_semver v -> avoids "d" v = true.
Proof.
  intros (major & minor & patch & -> & [H1 _] & [H2 _] & [H3 _]).
  rewrite !avoids_append.
  rewrite (digits_avoid_d major), (digits_avoid_d minor),
    (digits_avoid_d patch) by assumption.
  reflexivity.
Qed.

Lemma listing_entry_archive pre v rest :
  is_semver v ->
  Re.listing_entry pre ".tgz" (pre +:+ v +:+ ".tgz" +:+ rest)
  = Some (v, (String.length pre + String.length v + 4)%nat).
Proof.
  intros Hv. unfold Re.listing_entry.
  rewrite strip_prefix_append. step_bind.
  rewrite (version_of_semver v (".tgz" +:+ rest))
    by (assumption || reflexivity).
  step_bind. rewrite strip_prefix_append. step_bind. reflexivity.
Qed.

(** The line of an archive of the family sought gives its version. *)
Lemma findall_go_own_line p v rest :
  is_semver v ->
  Re.findall_go (String "d" p) ".tgz" 0
    (String "d" p +:+ v +:+ ".tgz" +:+ line_feed +:+ rest)
  = v :: Re.findall_go (String "d" p) ".tgz" 0 rest.
Proof.
  intros Hv.
  change (String "d" p +:+ v +:+ ".tgz" +:+ line_feed +:+ rest)
    with (String "d" (p +:+ v +:+ ".tgz" +:+ line_feed +:+ rest)).
  cbn [Re.findall_go].
  change (String "d" (p +:+ v +:+ ".tgz" +:+ line_feed +:+ rest))
    with (String "d" p +:+ v +:+ ".tgz" +:+ (line_feed +:+ rest)).
  rewrite listing_entry_archive by assumption. f_equal.
  replace (p +:+ v +:+ ".tgz" +:+ line_feed +:+ rest)
    with ((p +:+ v +:+ ".tgz") +:+ (line_feed +:+ rest))
    by now rewrite !append_assoc.
  replace (String.length (String "d" p) + String.length v + 4 - 1)%nat
    with (String.length (p +:+ v +:+ ".tgz") + 0)%nat
    by (rewrite !length_append; simpl; lia).
  rewrite findall_go_skip.
  apply (findall_go_avoids p ".tgz" line_feed rest). reflexivity.
Qed.

Lemma findall_go_rootless_head s :
  Re.findall_go "docker-" ".tgz" 0 ("docker-rootless-extras-" +:+ s)
  = Re.findall_go "docker-" ".tgz" 0 ("ocker-rootless-extras-" +:+ s).
Proof. reflexivity. Qed.

Lemma findall_go_rootless_line_for_static v rest :
  is_semver v ->
  Re.findall_go "docker-" ".tgz" 0
    (archive_name true v +:+ line_feed +:+ rest)
  = Re.findall_go "docker-" ".tgz" 0 rest.
Proof.
  intros Hv. unfold archive_name.
  rewrite !append_assoc, findall_go_rootless_head, <- !append_assoc.
  apply (findall_go_avoids "ocker-" ".tgz").
  rewrite !avoids_append, (semver_avoids_d v Hv). reflexivity.
Qed.

Lemma strip_prefix_static_head c s :
  Str.is_digit c = true ->
  Str.strip_prefix "docker-rootless-extras-" ("docker-" +:+ String c s)
  = None.
Proof.
  intros Hc.
  apply (strip_prefix_mismatch "docker-" "r" "ootless-extras-" c s).
  now apply digit_mismatch.
Qed.

Lemma findall_go_static_head v s :
  is_semver v ->
  Re.findall_go "docker-rootless-extras-" ".tgz" 0 ("docker-" +:+ v +:+ s)
  = Re.findall_go "docker-rootless-extras-" ".tgz" 0 ("ocker-" +:+ v +:+ s).
Proof.
  intros Hv. destruct (semver_head v Hv) as (c & v' & -> & Hc).
  change ("docker-" +:+ String c v' +:+ s)
    with (String "d" ("ocker-" +:+ String c v' +:+ s)).
  cbn [Re.findall_go]. unfold Re.listing_entry.
  change (String "d" ("ocker-" +:+ String c v' +:+ s))
    with ("docker-" +:+ String c (v' +:+ s)).
  now rewrite strip_prefix_static_head.
Qed.

Lemma findall_go_static_line_for_rootless v rest :
  is_semver v ->
  Re.findall_go "docker-rootless-extras-" ".tgz" 0
    (archive_name false v +:+ line_feed +:+ rest)
  = Re.findall_go "docker-rootless-extras-" ".tgz" 0 rest.
Proof.
  intros Hv. unfold archive_name.
  rewrite !append_assoc, findall_go_static_head, <- !append_assoc
    by assumption.
  apply (findall_go_avoids "ocker-rootless-extras-" ".tgz").
  rewrite !avoids_append, (semver_avoids_d v Hv). reflexivity.
Qed.

(** X6. Read back from a page that names archives one on a line, the
    pattern of [list_static_versions] gives the versions of the runtime
    archives, in the order of the page, and nothing for a rootless-extras
    archive; the pattern of [list_rootless_versions] gives the versions of
    the rootless-extras archives and nothing for a runtime archive. *)
Theorem findall_reads_back_index archives :
  (forall rootless v, (rootless, v) ∈ archives -> is_semver v) ->
  Re.findall "docker-" ".tgz" (render_index archives)
  = map snd (List.filter (fun e => negb (fst e)) archives)
  /\ Re.findall "docker-rootless-extras-" ".tgz" (render_index archives)
     = map snd (List.filter fst archives).
Proof.
  unfold Re.findall. induction archives as [|[rootless v] rest IH];
    intros Hsem; [split; reflexivity|].
  assert (Hv : is_semver v) by (apply (Hsem rootless), list_elem_of_here).
  destruct IH as [IH1 IH2].
  { intros r v' Hin. apply (Hsem r). now apply list_elem_of_further. }
  cbn [render_index]. destruct rootless; cbn [List.filter fst snd negb map].
  - split.
    + now rewrite findall_go_rootless_line_for_static.
    + unfold archive_name.
      replace (("docker-rootless-extras-" +:+ v +:+ ".tgz") +:+ line_feed
               +:+ render_index rest)
        with ("docker-rootless-extras-" +:+ v +:+ ".tgz" +:+ line_feed
              +:+ render_index rest) by now rewrite !append_assoc.
      rewrite (findall_go_own_line "ocker-rootless-extras-") by assumption.
      now rewrite IH2.
  - split.
    + unfold archive_name.
      replace (("docker-" +:+ v +:+ ".tgz") +:+ line_feed
               +:+ render_index rest)
        with ("docker-" +:+ v +:+ ".tgz" +:+ line_feed
              +:+ render_index rest) by now rewrite !append_assoc.
      rewrite (findall_go_own_line "ocker-") by assumption.
      now rewrite IH1.
    + now rewrite findall_go_static_line_for_rootless.
Qed.

Lemma findall_reads_back_index_witness :
  Re.findall "docker-" ".tgz"
    (render_index [(false, "27.4.1"); (true, "27.3.0"); (false, "27.3.0")])
  = ["27.4.1"; "27.3.0"]
  /\ Re.findall "docker-rootless-extras-" ".tgz"
       (render_index [(false, "27.4.1"); (true, "27.3.0"); (false, "27.3.0")])
     = ["27.3.0"].
Proof.
  apply (findall_reads_back_index
           [(false, "27.4.1"); (true, "27.3.0"); (false, "27.3.0")]).
  intros rootless v Hin.
  assert (Hv : v = "27.4.1" \/ v = "27.3.0").
  { repeat (apply elem_of_cons in Hin as [[= _ ->]|Hin]; [tauto|]).
    now apply elem_of_nil in Hin. }
  destruct Hv as [-> | ->].
  - exists "27", "4", "1". repeat split; discriminate.
  - exists "27", "3", "0". repeat split; discriminate.
Defined.

(** ** The asset locator *)

Lemma contains_append x p s : Str.contains x (p +:+ x +:+ s) = true.
Proof.
  induction p as [|c p IH].
  - apply (contains_here x (x +:+ s)), startswith_append.
  - apply (contains_later x c (p +:+ x +:+ s) IH).
Qed.

Lemma append_empty s : s +:+ "" = s.
Proof.
  induction s as [|c s IH]; [reflexivity|].
  change (String c (s +:+ "") = String c s). now rewrite IH.
Qed.

(** Whatever the architecture token, a name the exact test accepts passes
    the other test too. *)
Lemma exact_match_substring_match arch (x : asset) :
  exact_match arch x = true -> substring_match arch x = true.
Proof.
  unfold exact_match, substring_match, names. intros H.
  apply existsb_exists in H as (n & Hin & Heq).
  apply String.eqb_eq in Heq. rewrite Heq. clear Heq.
  apply in_app_or in Hin as [Hin|Hin].
  - assert (Hn : exists s, n = "docker-compose-linux-" +:+ arch +:+ s).
    { destruct Hin as [<-|[<-|[]]].
      - exists EmptyString. now rewrite append_empty.
      - now exists ".exe". }
    destruct Hn as [s ->].
    rewrite startswith_append, contains_append. reflexivity.
  - apply in_flat_map in Hin as (alias & Halias & Hin).
    assert (Hn : exists s, n = "docker-compose-linux-" +:+ alias +:+ s).
    { destruct Hin as [<-|[<-|[]]].
      - exists EmptyString. now rewrite append_empty.
      - now exists ".exe". }
    destruct Hn as [s ->]. rewrite startswith_append.
    apply andb_true_iff. split; [reflexivity|].
    apply orb_true_iff. right. apply existsb_exists.
    exists alias. split; [exact Halias|apply contains_append].
Qed.

Lemma asset_loop_find arch assets u :
  asset_loop arch assets = Some u ->
  exists x,
    List.find (substring_match arch) assets = Some x
    /\ browser_download_url x = Some u
    /\ Str.startswith "docker-compose-linux-" (name x) = true.
Proof.
  induction assets as [|x assets IH]; simpl; [discriminate|].
  intros Hloop. destruct (exact_match arch x) eqn:He.
  - pose proof (exact_match_substring_match arch x He) as Hs.
    rewrite Hs. exists x. splits; auto.
    unfold substring_match in Hs. now apply andb_true_iff in Hs as [? _].
  - destruct (substring_match arch x) eqn:Hs.
    + exists x. splits; auto.
      unfold substring_match in Hs. now apply andb_true_iff in Hs as [? _].
    + exact (IH Hloop).
Qed.

(** X9. A URL that [get_compose_asset_url] returns is the one of an asset
    of the queried release whose name starts with [docker-compose-linux-]
    and holds the architecture token or an alias of it, and which is the
    first asset of the release with such a name: the test on the exact
    names adds nothing to the other test. *)
Theorem get_compose_asset_url_linux_only net version arch w u :
  fst (get_compose_asset_url net version arch w) = Some u ->
  exists assets x,
    release_assets net (clock w) (release_api_url version) = Some assets
    /\ List.find (substring_match arch) assets = Some x
    /\ browser_download_url x = Some u
    /\ Str.startswith "docker-compose-linux-" (name x) = true.
Proof.
  unfold get_compose_asset_url.
  destruct (release_assets net (clock w) (release_api_url version))
    as [assets|]; simpl; [|discriminate].
  intros Hloop. exists assets.
  destruct (asset_loop_find arch assets u Hloop) as (x & Hx).
  exists x. split; [reflexivity|exact Hx].
Qed.

Lemma get_compose_asset_url_linux_only_witness :
  exists assets x,
    release_assets mixed_release_net (clock empty_world)
      (release_api_url "2.32.4") = Some assets
    /\ List.find (substring_match "x86_64") assets = Some x
    /\ browser_download_url x = Some "https://example.test/linux"
    /\ Str.startswith "docker-compose-linux-" (name x) = true.
Proof.
  apply (get_compose_asset_url_linux_only mixed_release_net "2.32.4"
           "x86_64" empty_world "https://example.test/linux").
  reflexivity.
Defined.

(** *** The exact names decide nothing *)

(** The loop is a scan for the first asset that passes the test on the
    prefix and the token: the test on the exact names, made first on each
    asset, never changes what is returned. *)
Lemma asset_loop_substring_only arch assets :
  asset_loop arch assets
  = match List.find (substring_match arch) assets with
    | Some x => browser_download_url x
    | None => None
    end.
Proof.
  induction assets as [|x assets IH]; simpl; [reflexivity|].
  destruct (exact_match arch x) eqn:He.
  - now rewrite (exact_match_substring_match arch x He).
  - destruct (substring_match arch x); [reflexivity|exact IH].
Qed.

(** C7. [get_compose_asset_url] builds the exact names and tests them,
    yet it does not match by exact file name first: the two tests are made
    on each asset in turn, so that the exact names never decide and the
    order of the release does. With the release of 2.32.4 listing
    [docker-compose-linux-aarch64.sha256] before
    [docker-compose-linux-aarch64], the URL of the checksum file is
    returned for aarch64, though the later asset bears an exact name and
    the earlier does not; [download_for_architecture] then stores the
    checksum file as the compose binary and makes it executable. With
    [docker-compose-linux-aarch64.exe] listed before
    [docker-compose-linux-aarch64] the URL of the [.exe] asset is
    returned. *)
Theorem get_compose_asset_url_exact_names_decide_nothing :
  (forall arch assets,
     asset_loop arch assets
     = match List.find (substring_match arch) assets with
       | Some x => browser_download_url x
       | None => None
       end)
  /\ exact_match "aarch64" plain_asset = true
  /\ exact_match "aarch64" checksum_asset = false
  /\ fst (get_compose_asset_url (release_net [checksum_asset; plain_asset])
            "2.32.4" "aarch64" empty_world)
     = Some "https://example.test/sha256"
  /\ fst (get_compose_asset_url (release_net [exe_asset; plain_asset])
            "2.32.4" "aarch64" empty_world)
     = Some "https://example.test/exe"
  /\ fst (get_compose_asset_url (release_net [plain_asset; exe_asset])
            "2.32.4" "aarch64" empty_world)
     = Some "https://example.test/plain"
  /\ (let r := compose_slot (release_net [checksum_asset; plain_asset])
                 toy_digest Aarch64 "2.32.4" empty_world in
      fst r = true
      /\ requests (trace (snd r))
         = [Get (release_api_url "2.32.4");
            Get "https://example.test/sha256"]
      /\ is_Some (fs (snd r) !! compose_file Aarch64 "2.32.4")
      /\ chmods (trace (snd r)) = [(compose_file Aarch64 "2.32.4", 493)]).
Proof.
  split; [exact asset_loop_substring_only|].
  vm_compute. splits; try reflexivity. eauto.
Qed.

(** ** The orchestrator of one architecture *)

Lemma chmods_app t1 t2 : chmods (t1 ++ t2) = chmods t1 ++ chmods t2.
Proof. unfold chmods. apply flat_map_app. Qed.

Lemma chmods_log lvl msg w : chmods (trace (log lvl msg w)) = chmods (trace w).
Proof. simpl. rewrite chmods_app. simpl. apply app_nil_r. Qed.

Section FetcherTally.

Variable net : network.
Variable sha256_hex : string -> string.
Variables url filename description : string.
Variable max_retries : Z.

Local Abbreviation attempt_body :=
  (attempt_body net sha256_hex url filename description max_retries).
Local Abbreviation attempts :=
  (attempts net sha256_hex url filename description max_retries).
Local Abbreviation download_file :=
  (download_file net sha256_hex url filename description max_retries).
Local Abbreviation turn_events :=
  (turn_events sha256_hex url filename description max_retries).

Lemma turn_events_chmods a r : chmods (turn_events a r) = [].
Proof.
  unfold turn_events.
  destruct r as [code| | |]; simpl; try reflexivity;
    try destruct (code =? 404); destruct (a <? max_retries - 1); reflexivity.
Qed.

Lemma attempts_chmods n :
  forall a w, chmods (trace (snd (attempts n a w))) = chmods (trace w).
Proof.
  induction n as [|n IH]; intros a w; [reflexivity|].
  pose proof (attempt_body_inv net sha256_hex url filename description
                max_retries a w) as [_ Htrace].
  simpl attempts.
  destruct (attempt_body a w) as [[b|] w1] eqn:Hbody; simpl in *.
  - rewrite Htrace, chmods_app, turn_events_chmods. apply app_nil_r.
  - rewrite IH, Htrace, chmods_app, turn_events_chmods. apply app_nil_r.
Qed.

(** [download_file] changes the mode of no file. *)
Lemma download_file_chmods w :
  chmods (trace (snd (download_file w))) = chmods (trace w).
Proof.
  destruct (fs w !! filename) as [e|] eqn:Hlook.
  - rewrite download_file_existing by eauto. simpl.
    rewrite chmods_app. apply app_nil_r.
  - rewrite download_file_absent by assumption. apply attempts_chmods.
Qed.

(** The counters after a call, by what the call returns. *)
Lemma download_file_tally w :
  obtained (snd (download_file w))
  = obtained w + Z.b2z (fst (download_file w))
  /\ failed (download_stats (snd (download_file w)))
     = failed (download_stats w) + Z.b2z (negb (fst (download_file w))).
Proof.
  unfold obtained.
  destruct (download_file_stats net sha256_hex url filename description
              max_retries w) as [H|[H|H]].
  - destruct H as (-> & _ & content & _ & H1 & H2 & H3 & _). simpl. lia.
  - destruct H as (-> & _ & H1 & H2 & H3 & _). simpl. lia.
  - destruct H as (-> & H1 & H2 & H3 & _). simpl. lia.
Qed.

End FetcherTally.

Section Orchestrator.

Variable net : network.
Variable sha256_hex : string -> string.
Variable set_iter : list string -> list string.

Local Abbreviation download_file := (download_file net sha256_hex).
Local Abbreviation compose_slot := (compose_slot net sha256_hex).
Local Abbreviation rootless_slot := (rootless_slot net sha256_hex set_iter).
Local Abbreviation download_for_architecture :=
  (download_for_architecture net sha256_hex set_iter).

Lemma download_file_grows url filename description max_retries w :
  let r := download_file url filename description max_retries w in
  grows w (snd r) (Z.b2z (fst r)) (Z.b2z (negb (fst r)))
    (Z.b2z (negb (fst r))).
Proof.
  intros r. subst r. unfold grows.
  destruct (download_file_tally net sha256_hex url filename description
              max_retries w) as [Hok Hfail].
  splits; try lia; auto.
  intros n e. apply download_file_keeps_entry.
Qed.

Lemma list_versions_frame pre arch w :
  let w' := snd (list_versions net set_iter pre arch w) in
  fs w' = fs w /\ download_stats w' = download_stats w
  /\ chmods (trace w') = chmods (trace w).
Proof.
  unfold list_versions.
  destruct (index_page net (clock w) (index_url arch)); simpl; splits; auto;
    rewrite !chmods_app; simpl; now rewrite ?app_nil_r.
Qed.

Lemma get_compose_asset_url_frame version arch w :
  let w' := snd (get_compose_asset_url net version arch w) in
  fs w' = fs w /\ download_stats w' = download_stats w
  /\ chmods (trace w') = chmods (trace w).
Proof.
  unfold get_compose_asset_url.
  destruct (release_assets net (clock w) (release_api_url version)); simpl;
    splits; auto; rewrite !chmods_app; simpl; now rewrite ?app_nil_r.
Qed.

Lemma compose_slot_inv (a : arch) compose_version w :
  let r := compose_slot a compose_version w in
  grows w (snd r) (Z.b2z (fst r)) 0 (Z.b2z (negb (fst r)))
  /\ chmods (trace (snd r))
     = chmods (trace w)
       ++ (if fst r then [(compose_file a compose_version, 493)] else [])
  /\ (fst r = true ->
      is_Some (fs (snd r) !! compose_file a compose_version)).
Proof.
  intros r. subst r. unfold compose_slot.
  pose proof (get_compose_asset_url_frame compose_version
                (compose_arch (arch_mapping a)) w) as (Hfs & Hst & Hch).
  destruct (get_compose_asset_url net compose_version
              (compose_arch (arch_mapping a)) w) as [[u|] w1]; simpl in *.
  - destruct (String.eqb u "") eqn:Hu; simpl.
    + unfold grows, obtained. rewrite Hfs, Hst, Hch, app_nil_r.
      splits; auto; try lia; try discriminate.
    + fold (compose_file a compose_version).
      pose proof (download_file_grows u (compose_file a compose_version)
                    ("Docker Compose (" +:+ arch_name a +:+ ")") 3 w1)
        as (Hkeep & Hok & Hfail).
      pose proof (download_file_chmods net sha256_hex u
                    (compose_file a compose_version)
                    ("Docker Compose (" +:+ arch_name a +:+ ")") 3 w1)
        as Hch1.
      pose proof (download_file_true_exists net sha256_hex u
                    (compose_file a compose_version)
                    ("Docker Compose (" +:+ arch_name a +:+ ")") 3 w1)
        as Hex.
      destruct (download_file u (compose_file a compose_version)
                  ("Docker Compose (" +:+ arch_name a +:+ ")") 3 w1)
        as [[|] w2]; simpl in *.
      * unfold grows, obtained in *. simpl. rewrite Hfs, Hst in *.
        splits; auto; try lia.
        etransitivity; [apply chmods_app|]. now rewrite Hch1, Hch.
      * unfold grows, obtained in *. simpl. rewrite Hfs, Hst in *.
        splits; auto; try lia; try discriminate.
        rewrite Hch1, Hch. now rewrite app_nil_r.
  - unfold grows, obtained. simpl. rewrite Hfs, Hst, Hch, app_nil_r.
    splits; auto; try lia; try discriminate.
Qed.

Lemma rootless_slot_inv (a : arch) docker_version w :
  let r := rootless_slot a docker_version w in
  grows w (snd r) (Z.b2z (fst r)) (Z.b2z (negb (fst r)))
    (if fst r then 1 else 2)
  /\ chmods (trace (snd r)) = chmods (trace w).
Proof.
  intros r. subst r. unfold rootless_slot.
  set (f1 := "docker-rootless-extras-" +:+ docker_version +:+ "-"
               +:+ arch_name a +:+ ".tgz").
  set (u1 := rootless_url_template (docker_arch (arch_mapping a))
               docker_version).
  set (d1 := "Docker Rootless Extras (" +:+ arch_name a +:+ ")").
  pose proof (download_file_grows u1 f1 d1 3 w) as (Hkeep & Hok & Hfail).
  pose proof (download_file_chmods net sha256_hex u1 f1 d1 3 w) as Hch.
  destruct (download_file u1 f1 d1 3 w) as [[|] w1]; simpl in *.
  - unfold grows. splits; auto; lia.
  - pose proof (list_versions_frame "docker-rootless-extras-"
                  (docker_arch (arch_mapping a)) w1) as (Lfs & Lst & Lch).
    unfold list_rootless_versions.
    destruct (list_versions net set_iter "docker-rootless-extras-"
                (docker_arch (arch_mapping a)) w1) as [[|fb rest] w2];
      simpl in *.
    + unfold grows, obtained in *. rewrite Lfs, Lst, Lch.
      splits; auto; lia.
    + set (w3 := log WARNING _ w2).
      set (f2 := "docker-rootless-extras-" +:+ fb +:+ "-"
                   +:+ arch_name a +:+ ".tgz").
      set (u2 := rootless_url_template (docker_arch (arch_mapping a)) fb).
      set (d2 := "Docker Rootless Extras (fallback " +:+ arch_name a
                   +:+ ")").
      pose proof (download_file_grows u2 f2 d2 3 w3) as (Gkeep & Gok & Gfail).
      pose proof (download_file_chmods net sha256_hex u2 f2 d2 3 w3) as Gch.
      assert (Hw3 : fs w3 = fs w2 /\ download_stats w3 = download_stats w2
                    /\ chmods (trace w3) = chmods (trace w2)).
      { subst w3. splits; auto. apply chmods_log. }
      destruct Hw3 as (Wfs & Wst & Wch).
      unfold grows, obtained in *. rewrite Wfs, Wst, Lfs, Lst in *.
      destruct (fst (download_file u2 f2 d2 3 w3)); simpl in *;
        (splits; [intros n e Hn; apply Gkeep; auto
                 | lia | lia | lia | now rewrite Gch, Wch, Lch]).
Qed.

Lemma download_for_architecture_grows
    (a : arch) docker_version compose_version w :
  let r := download_for_architecture a docker_version compose_version w in
  snd (fst r) = 3
  /\ 0 <= fst (fst r) <= 3
  /\ grows w (snd r) (fst (fst r)) 0 (4 - fst (fst r)).
Proof.
  intros r. subst r. unfold download_for_architecture.
  set (w0 := log INFO MsgBanner (log NOTICE _ (log INFO MsgBanner w))).
  set (f1 := "docker-" +:+ docker_version +:+ "-" +:+ arch_name a
               +:+ ".tgz").
  set (u1 := docker_url_template (docker_arch (arch_mapping a))
               docker_version).
  set (d1 := "Docker binary (" +:+ arch_name a +:+ ")").
  pose proof (download_file_grows u1 f1 d1 3 w0) as (Hkeep1 & Hok1 & Hfail1).
  destruct (download_file u1 f1 d1 3 w0) as [r1 w1].
  pose proof (compose_slot_inv a compose_version w1)
    as ((Hkeep2 & Hok2 & Hfail2) & _).
  destruct (compose_slot a compose_version w1) as [r2 w2].
  pose proof (rootless_slot_inv a docker_version w2)
    as ((Hkeep3 & Hok3 & Hfail3) & _).
  destruct (rootless_slot a docker_version w2) as [r3 w3].
  unfold grows, obtained in *. cbn [fst snd] in *.
  assert (Hkeep : forall n e, fs w !! n = Some e -> fs w3 !! n = Some e).
  { intros n e Hn. apply Hkeep3, Hkeep2, Hkeep1. exact Hn. }
  destruct r1, r2, r3; simpl in *; splits; try reflexivity; try lia;
    exact Hkeep.
Qed.

(** X10. [download_for_architecture] reports three slots and between none
    and three successes; the successes it reports are as many as the calls
    of [download_file] the counters record as downloaded or skipped during
    the call, and the failures the counters record are at most four less
    the successes: one by slot, and one more for the rootless slot, whose
    fallback is a second call. *)
Theorem download_for_architecture_counts
    (a : arch) docker_version compose_version w :
  let r := download_for_architecture a docker_version compose_version w in
  let success_count := fst (fst r) in
  snd (fst r) = 3
  /\ 0 <= success_count <= 3
  /\ obtained (snd r) = obtained w + success_count
  /\ failed (download_stats w) <= failed (download_stats (snd r))
     <= failed (download_stats w) + 4 - success_count.
Proof.
  intros r success_count. subst r success_count.
  destruct (download_for_architecture_grows a docker_version
              compose_version w) as (Hcount & Hrange & _ & Hok & Hfail).
  splits; try assumption; lia.
Qed.

(** X11. [download_for_architecture] removes and rewrites no entry that is
    in the directory when it is called. The only file whose mode it
    changes is the compose binary of the architecture, to [0o755], at
    most once, and then the binary is in the directory when the call
    returns. *)
Theorem download_for_architecture_keeps
    (a : arch) docker_version compose_version w :
  let w' :=
    snd (download_for_architecture a docker_version compose_version w) in
  (forall n e, fs w !! n = Some e -> fs w' !! n = Some e)
  /\ (chmods (trace w') = chmods (trace w)
      \/ (chmods (trace w')
          = chmods (trace w) ++ [(compose_file a compose_version, 493)]
          /\ is_Some (fs w' !! compose_file a compose_version))).
Proof.
  intros w'. subst w'. unfold download_for_architecture.
  set (w0 := log INFO MsgBanner (log NOTICE _ (log INFO MsgBanner w))).
  set (f1 := "docker-" +:+ docker_version +:+ "-" +:+ arch_name a
               +:+ ".tgz").
  set (u1 := docker_url_template (docker_arch (arch_mapping a))
               docker_version).
  set (d1 := "Docker binary (" +:+ arch_name a +:+ ")").
  assert (Hch0 : chmods (trace w0) = chmods (trace w)).
  { subst w0. now rewrite !chmods_log. }
  pose proof (download_file_grows u1 f1 d1 3 w0) as (Hkeep1 & _).
  pose proof (download_file_chmods net sha256_hex u1 f1 d1 3 w0) as Hch1.
  destruct (download_file u1 f1 d1 3 w0) as [r1 w1].
  pose proof (compose_slot_inv a compose_version w1)
    as ((Hkeep2 & _) & Hch2 & Hex2).
  destruct (compose_slot a compose_version w1) as [r2 w2].
  pose proof (rootless_slot_inv a docker_version w2)
    as ((Hkeep3 & _) & Hch3).
  destruct (rootless_slot a docker_version w2) as [r3 w3].
  cbn [fst snd] in *. split.
  - intros n e Hn. apply Hkeep3, Hkeep2, Hkeep1. exact Hn.
  - rewrite chmods_log, Hch3, Hch2, Hch1, Hch0.
    destruct r2.
    + right. split; [reflexivity|].
      destruct (Hex2 eq_refl) as [e He]. exists e.
      apply Hkeep3. exact He.
    + left. apply app_nil_r.
Qed.

End Orchestrator.

(** ** The reconciler *)

Lemma pruned_refl (P : string -> Prop) w : pruned P w w.
Proof. unfold pruned. splits; auto. Qed.

Lemma pruned_weaken (P Q : string -> Prop) w w' :
  (forall filename, P filename -> Q filename) ->
  pruned P w w' -> pruned Q w w'.
Proof.
  intros HPQ (Hst & Hreq & Hfs). unfold pruned. splits; auto.
  intros filename. destruct (Hfs filename) as [H|(H1 & H2 & H3)]; auto.
Qed.

Lemma pruned_trans (P : string -> Prop) w1 w2 w3 :
  pruned P w1 w2 -> pruned P w2 w3 -> pruned P w1 w3.
Proof.
  intros (Hst1 & Hreq1 & Hfs1) (Hst2 & Hreq2 & Hfs2). unfold pruned.
  splits; [congruence|congruence|].
  intros filename.
  destruct (Hfs2 filename) as [H2|(H2 & HP & c & Hc)];
    destruct (Hfs1 filename) as [H1|(H1 & HP1 & c1 & Hc1)].
  - left. congruence.
  - right. splits; eauto. congruence.
  - right. splits; eauto. exists c. congruence.
  - congruence.
Qed.

Lemma pruned_log (P : string -> Prop) lvl msg w w' :
  pruned P w w' -> pruned P w (log lvl msg w').
Proof.
  intros (Hst & Hreq & Hfs). unfold pruned. simpl. splits; auto.
  rewrite requests_app. simpl. now rewrite app_nil_r.
Qed.

Section Reconciler.

Variables pre post current : string.

Local Abbreviation cleanup_loop := (cleanup_loop pre post current).

Lemma cleanup_loop_cons file rest w :
  cleanup_loop (file :: rest) w
  = match Re.match_versioned pre post file with
    | Some file_version =>
        if String.eqb file_version current then cleanup_loop rest w
        else
          match unlink_entry file w with
          | Some w' => cleanup_loop rest (log INFO (MsgDeleted file) w')
          | None => Raised w
          end
    | None => cleanup_loop rest w
    end.
Proof. reflexivity. Qed.

(** A pass of the reconciler, however it ends: the files it has removed
    are regular files it was given, of another version. *)
Lemma cleanup_loop_pruned files :
  forall w,
    pruned (fun filename =>
              filename ∈ files
              /\ version_differs pre post current filename = true)
      w (outcome_world (cleanup_loop files w)).
Proof.
  induction files as [|file rest IH]; intros w; [apply pruned_refl|].
  assert (Hrest : forall v,
             pruned (fun filename =>
                       filename ∈ file :: rest
                       /\ version_differs pre post current filename = true)
               v (outcome_world (cleanup_loop rest v))).
  { intros v. eapply pruned_weaken; [|apply IH].
    intros filename [Hin Hd]. split; [now apply list_elem_of_further|exact Hd]. }
  rewrite cleanup_loop_cons.
  destruct (Re.match_versioned pre post file) as [fv|] eqn:Hm; [|apply Hrest].
  destruct (String.eqb fv current) eqn:Hv; [apply Hrest|].
  unfold unlink_entry.
  destruct (fs w !! file) as [[c|]|] eqn:Hlook;
    [|apply pruned_refl|apply pruned_refl].
  eapply pruned_trans; [|apply Hrest].
  apply pruned_log. unfold pruned. simpl. splits; auto.
  intros filename. destruct (decide (filename = file)) as [->|Hne].
  - right. rewrite lookup_delete_eq. splits; eauto.
    + apply list_elem_of_here.
    + unfold version_differs. now rewrite Hm, Hv.
  - left. now rewrite lookup_delete_ne.
Qed.

(** A pass that meets a directory it would remove ends in the handler. *)
Lemma cleanup_loop_raises files :
  forall w d,
    d ∈ files ->
    version_differs pre post current d = true ->
    fs w !! d = Some Dir ->
    exists w', cleanup_loop files w = Raised w'.
Proof.
  induction files as [|file rest IH]; intros w d Hin Hd Hdir.
  - now apply elem_of_nil in Hin.
  - rewrite cleanup_loop_cons.
    destruct (decide (file = d)) as [->|Hne].
    + unfold version_differs in Hd.
      destruct (Re.match_versioned pre post d) as [fv|]; [|discriminate].
      apply negb_true_iff in Hd. rewrite Hd.
      unfold unlink_entry. rewrite Hdir. eauto.
    + apply elem_of_cons in Hin as [->|Hin]; [congruence|].
      destruct (Re.match_versioned pre post file) as [fv|]; [|eauto].
      destruct (String.eqb fv current); [eauto|].
      unfold unlink_entry.
      destruct (fs w !! file) as [[c|]|] eqn:Hlook; eauto.
      apply (IH _ d); auto. simpl.
      rewrite lookup_delete_ne by assumption. exact Hdir.
Qed.

End Reconciler.

Lemma glob_pruned pre post current pattern w :
  pruned (fun filename =>
            Str.fnmatch pattern filename
            && version_differs pre post current filename = true)
    w (outcome_world (cleanup_loop pre post current (glob pattern w) w)).
Proof.
  eapply pruned_weaken; [|apply cleanup_loop_pruned].
  intros filename [Hin Hd]. apply glob_spec in Hin as [Hm _].
  now rewrite Hm, Hd.
Qed.

Section ReconcilerMore.

Variables current_docker_version current_compose_version : string.
Variable a : arch.

Local Abbreviation cleanup_old_versions :=
  (cleanup_old_versions current_docker_version current_compose_version a).
Local Abbreviation stale :=
  (stale current_docker_version current_compose_version (arch_name a)).
Local Abbreviation family_stale f :=
  (family_stale f current_docker_version current_compose_version
     (arch_name a)).

Lemma family_stale_stale f filename :
  family_stale f filename = true -> stale filename = true.
Proof.
  unfold stale. intros H. destruct f; rewrite H;
    rewrite ?orb_true_r; reflexivity.
Qed.

Lemma docker_loop_pruned w :
  pruned (fun filename => stale filename = true) w
    (outcome_world
       (cleanup_loop "docker-" ".tgz" current_docker_version
          (glob (docker_pattern (arch_name a)) w) w)).
Proof.
  eapply pruned_weaken; [|apply glob_pruned]. cbv beta.
  intros filename H. apply (family_stale_stale Runtime). exact H.
Qed.

Lemma rootless_loop_pruned w :
  pruned (fun filename => stale filename = true) w
    (outcome_world
       (cleanup_loop "docker-rootless-extras-" ".tgz" current_docker_version
          (glob (rootless_pattern (arch_name a)) w) w)).
Proof.
  eapply pruned_weaken; [|apply glob_pruned]. cbv beta.
  intros filename H. apply (family_stale_stale RootlessExtras). exact H.
Qed.

Lemma compose_loop_pruned w :
  pruned (fun filename => stale filename = true) w
    (outcome_world
       (cleanup_loop "docker-compose-linux-" "" current_compose_version
          (glob (compose_pattern (arch_name a)) w) w)).
Proof.
  eapply pruned_weaken; [|apply glob_pruned]. cbv beta.
  intros filename H. apply (family_stale_stale ComposeTool). exact H.
Qed.

Lemma cleanup_old_versions_pruned w :
  pruned (fun filename => stale filename = true) w (cleanup_old_versions w).
Proof.
  unfold cleanup_old_versions.
  pose proof (docker_loop_pruned w) as H1.
  destruct (cleanup_loop "docker-" ".tgz" current_docker_version
              (glob (docker_pattern (arch_name a)) w) w) as [w1|w1];
    [|now apply pruned_log].
  pose proof (rootless_loop_pruned w1) as H2.
  destruct (cleanup_loop "docker-rootless-extras-" ".tgz"
              current_docker_version
              (glob (rootless_pattern (arch_name a)) w1) w1) as [w2|w2];
    [|apply pruned_log; eapply pruned_trans; eassumption].
  pose proof (compose_loop_pruned w2) as H3.
  destruct (cleanup_loop "docker-compose-linux-" ""
              current_compose_version
              (glob (compose_pattern (arch_name a)) w2) w2) as [w3|w3];
    [|apply pruned_log];
    (eapply pruned_trans; [|eassumption]);
    (eapply pruned_trans; eassumption).
Qed.

(** X12. Whatever the directory holds and however it ends,
    [cleanup_old_versions] only removes: an entry it leaves is as it
    was, an entry it takes away is a regular file that one of its three
    patterns matches with a version other than the current one. It creates
    and rewrites nothing, removes no directory, makes no request and
    leaves the counters alone. *)
Theorem cleanup_old_versions_only_removes w :
  let w' := cleanup_old_versions w in
  (forall filename,
     fs w' !! filename = fs w !! filename
     \/ (fs w' !! filename = None
         /\ stale filename = true
         /\ exists content, fs w !! filename = Some (File content)))
  /\ (forall filename, fs w !! filename = Some Dir ->
                       fs w' !! filename = Some Dir)
  /\ download_stats w' = download_stats w
  /\ requests (trace w') = requests (trace w).
Proof.
  destruct (cleanup_old_versions_pruned w) as (Hst & Hreq & Hfs).
  simpl. splits; auto.
  intros filename Hdir.
  destruct (Hfs filename) as [H|(_ & _ & c & Hc)]; congruence.
Qed.

(** X13. When no directory bears a stale name, a second run of
    [cleanup_old_versions] with the same versions removes nothing more. *)
Theorem cleanup_old_versions_idempotent w :
  (forall filename, stale filename = true -> fs w !! filename <> Some Dir) ->
  fs (cleanup_old_versions (cleanup_old_versions w))
  = fs (cleanup_old_versions w).
Proof.
  intros Hdir.
  destruct (cleanup_old_versions_spec current_docker_version
              current_compose_version a w Hdir) as (Hfs1 & _).
  destruct (cleanup_old_versions_spec current_docker_version
              current_compose_version a (cleanup_old_versions w))
    as (Hfs2 & _).
  { intros filename Hs. rewrite Hfs1, Hs. discriminate. }
  apply map_eq. intros filename. rewrite Hfs2, Hfs1.
  now destruct (stale filename).
Qed.

(** X14. When a directory bears the name of a runtime archive of another
    version, the first loop of [cleanup_old_versions] raises on it: the
    method logs its failure and returns without running the loops of the
    rootless extras and of the compose binary, so that no entry is removed
    but runtime archives of another version. *)
Theorem cleanup_old_versions_aborts w d :
  fs w !! d = Some Dir ->
  family_stale Runtime d = true ->
  let w' := cleanup_old_versions w in
  (exists t, trace w' = t ++ [Log ERROR MsgCleanupFailed])
  /\ forall filename,
       family_stale Runtime filename = false ->
       fs w' !! filename = fs w !! filename.
Proof.
  intros Hdir Hstale. unfold cleanup_old_versions.
  pose proof (glob_pruned "docker-" ".tgz" current_docker_version
                (docker_pattern (arch_name a)) w) as (_ & _ & Hfs).
  destruct (cleanup_loop_raises "docker-" ".tgz" current_docker_version
              (glob (docker_pattern (arch_name a)) w) w d) as (w1 & Hrun).
  - apply glob_spec. split; [|rewrite Hdir; eauto].
    unfold family_stale in Hstale.
    now apply andb_true_iff in Hstale as [? _].
  - unfold family_stale in Hstale.
    now apply andb_true_iff in Hstale as [_ ?].
  - exact Hdir.
  - rewrite Hrun in *. simpl in *. split; [eauto|].
    intros filename Hno.
    destruct (Hfs filename) as [H|(_ & H & _)]; [exact H|].
    unfold family_stale in Hno. congruence.
Qed.

End ReconcilerMore.

(** *** Names the reconciler of an architecture leaves alone *)

Lemma fnmatch_literal q s :
  literal q = true -> Str.fnmatch q s = true -> s = q.
Proof.
  revert s. induction q as [|c q IH]; intros s Hq Hm.
  - destruct s; [reflexivity|discriminate].
  - change (negb (Ascii.eqb c "*") && literal q = true) in Hq.
    apply andb_true_iff in Hq as [Hc Hq]. apply negb_true_iff in Hc.
    cbn [Str.fnmatch] in Hm. rewrite Hc in Hm.
    destruct s as [|d s]; [discriminate|].
    apply andb_true_iff in Hm as [Hd Hm]. apply Ascii.eqb_eq in Hd.
    subst d. f_equal. now apply IH.
Qed.

(** A name that matches a star followed by a literal ends with the
    literal. *)
Lemma fnmatch_star_literal q s :
  literal q = true ->
  Str.fnmatch (String "*" q) s = true -> exists s1, s = s1 +:+ q.
Proof.
  intros Hq. induction s as [|c s IH]; rewrite fnmatch_star_unfold;
    intros Hm; apply orb_true_iff in Hm as [Hm|Hm].
  - exists EmptyString. now apply fnmatch_literal.
  - discriminate.
  - exists EmptyString. now apply fnmatch_literal.
  - destruct (IH Hm) as [s1 ->]. now exists (String c s1).
Qed.

Lemma append_tail_eq s1 :
  forall s2 q r,
    s1 +:+ q = s2 +:+ r -> String.length q = String.length r -> q = r.
Proof.
  induction s1 as [|c s1 IH]; intros s2 q r Heq Hlen.
  - destruct s2 as [|d s2]; [exact Heq|].
    apply (f_equal String.length) in Heq.
    change (EmptyString +:+ q) with q in Heq.
    change (String d s2 +:+ r) with (String d (s2 +:+ r)) in Heq.
    cbn [String.length] in Heq. rewrite length_append in Heq. lia.
  - destruct s2 as [|d s2].
    + apply (f_equal String.length) in Heq.
      change (EmptyString +:+ r) with r in Heq.
      change (String c s1 +:+ q) with (String c (s1 +:+ q)) in Heq.
      cbn [String.length] in Heq. rewrite length_append in Heq. lia.
    + change (String c (s1 +:+ q) = String d (s2 +:+ r)) in Heq.
      injection Heq as _ Heq. now apply (IH s2).
Qed.

Lemma digits_last d :
  all_digits d = true -> d <> EmptyString ->
  exists d' c, d = d' +:+ String c EmptyString /\ Str.is_digit c = true.
Proof.
  induction d as [|c d IH]; intros Hd Hne; [congruence|].
  change (Str.is_digit c && all_digits d = true) in Hd.
  apply andb_true_iff in Hd as [Hc Hd].
  destruct d as [|c' d].
  - now exists EmptyString, c.
  - destruct (IH Hd) as (d' & x & Heq & Hx); [discriminate|].
    exists (String c d'), x. split; [|exact Hx].
    change (String c (String c' d) = String c (d' +:+ String x EmptyString)).
    now rewrite Heq.
Qed.

Lemma semver_last v :
  is_semver v ->
  exists v' c, v = v' +:+ String c EmptyString /\ Str.is_digit c = true.
Proof.
  intros (major & minor & patch & -> & _ & _ & [Hd Hne]).
  destruct (digits_last patch Hd Hne) as (d' & c & -> & Hc).
  exists (major +:+ "." +:+ minor +:+ "." +:+ d'), c.
  split; [|exact Hc]. now rewrite !append_assoc.
Qed.

(** A pattern [p*q] does not match the name [p v r] when [r] is at least
    as long as [q] and ends otherwise. *)
Lemma fnmatch_other_tail p q v r0 r1 :
  literal p = true -> literal q = true ->
  String.length r1 = String.length q -> r1 <> q ->
  Str.fnmatch (p +:+ String "*" q) (p +:+ v +:+ r0 +:+ r1) = false.
Proof.
  intros Hp Hq Hlen Hne. rewrite fnmatch_prefix by assumption.
  apply not_true_is_false. intros Hm.
  apply fnmatch_star_literal in Hm as [s1 Heq]; [|assumption].
  rewrite <- !append_assoc in Heq.
  apply append_tail_eq in Heq; [congruence|assumption].
Qed.

(** Nor when [r] is one character shorter than [q] and [q] does not
    start with a digit, [v] being a version. *)
Lemma fnmatch_other_tail_digit p x q v r :
  literal p = true -> literal (String x q) = true ->
  Str.is_digit x = false ->
  String.length r = String.length q ->
  is_semver v ->
  Str.fnmatch (p +:+ String "*" (String x q)) (p +:+ v +:+ r) = false.
Proof.
  intros Hp Hq Hx Hlen Hv. rewrite fnmatch_prefix by assumption.
  apply not_true_is_false. intros Hm.
  apply fnmatch_star_literal in Hm as [s1 Heq]; [|assumption].
  destruct (semver_last v Hv) as (v' & c & -> & Hc).
  rewrite append_assoc in Heq.
  change (String c EmptyString +:+ r) with (String c r) in Heq.
  apply append_tail_eq in Heq; [|cbn [String.length]; lia].
  injection Heq as Hcx _. congruence.
Qed.

Lemma other_architecture_not_stale (f : family) (a b : arch) v
    current_docker_version current_compose_version :
  a <> b -> is_semver v ->
  stale current_docker_version current_compose_version (arch_name a)
    (canonical_file f b v) = false.
Proof.
  intros Hab Hv. unfold stale, family_stale.
  destruct f.
  - destruct (runtime_name_other_families v
                ("-" +:+ arch_name b +:+ ".tgz") current_docker_version Hv)
      as [Hr _].
    destruct (runtime_name_other_families v
                ("-" +:+ arch_name b +:+ ".tgz") current_compose_version Hv)
      as [_ Hc].
    change (canonical_file Runtime b v)
      with ("docker-" +:+ v +:+ "-" +:+ arch_name b +:+ ".tgz") in *.
    rewrite Hr, Hc, !andb_false_r, !orb_false_r.
    apply andb_false_iff. left.
    destruct a, b; try congruence.
    + apply (fnmatch_other_tail "docker-" "-x86_64.tgz" v "-" "aarch64.tgz");
        (reflexivity || discriminate).
    + apply (fnmatch_other_tail_digit "docker-" "-" "aarch64.tgz" v
               "-x86_64.tgz"); (reflexivity || assumption).
  - assert (H1 : version_differs "docker-" ".tgz" current_docker_version
                   (canonical_file RootlessExtras b v) = false)
      by reflexivity.
    assert (H3 : version_differs "docker-compose-linux-" ""
                   current_compose_version
                   (canonical_file RootlessExtras b v) = false)
      by reflexivity.
    rewrite H1, H3, !andb_false_r, !orb_false_r. simpl orb.
    apply andb_false_iff. left.
    destruct a, b; try congruence.
    + apply (fnmatch_other_tail "docker-rootless-extras-" "-x86_64.tgz" v
               "-" "aarch64.tgz"); (reflexivity || discriminate).
    + apply (fnmatch_other_tail_digit "docker-rootless-extras-" "-"
               "aarch64.tgz" v "-x86_64.tgz"); (reflexivity || assumption).
  - assert (H1 : version_differs "docker-" ".tgz" current_docker_version
                   (canonical_file ComposeTool b v) = false)
      by reflexivity.
    assert (H2 : version_differs "docker-rootless-extras-" ".tgz"
                   current_docker_version
                   (canonical_file ComposeTool b v) = false)
      by reflexivity.
    rewrite H1, H2, !andb_false_r. simpl orb.
    apply andb_false_iff. left.
    destruct a, b; try congruence.
    + apply (fnmatch_other_tail "docker-compose-linux-" "-x86_64" v
               "-" "aarch64"); (reflexivity || discriminate).
    + apply (fnmatch_other_tail_digit "docker-compose-linux-" "-"
               "aarch64" v "-x86_64"); (reflexivity || assumption).
Qed.

(** X15. [cleanup_old_versions], run for an architecture, leaves alone,
    whatever the directory holds, the archive or binary of every family
    that bears the name of another architecture, and the one that bears
    the version its family is compared with. *)
Theorem cleanup_old_versions_spares (f : family) (a b : arch) v
    current_docker_version current_compose_version w :
  is_semver v ->
  a <> b
  \/ v = compared_version f current_docker_version current_compose_version ->
  fs (cleanup_old_versions current_docker_version current_compose_version
        a w) !! canonical_file f b v
  = fs w !! canonical_file f b v.
Proof.
  intros Hv Hcase.
  assert (Hstale : stale current_docker_version current_compose_version
                     (arch_name a) (canonical_file f b v) = false).
  { destruct Hcase as [Hne|Heq];
      [now apply other_architecture_not_stale|].
    assert (Hab : a = b \/ a <> b) by (destruct a, b; auto; right; congruence).
    destruct Hab as [<-|Hne]; [|now apply other_architecture_not_stale].
    rewrite canonical_stale by assumption.
    rewrite <- Heq, String.eqb_refl. reflexivity. }
  destruct (cleanup_old_versions_pruned current_docker_version
              current_compose_version a w) as (_ & _ & Hfs).
  destruct (Hfs (canonical_file f b v)) as [H|(_ & H & _)];
    [exact H|congruence].
Qed.

Lemma cleanup_old_versions_spares_witness :
  fs (cleanup_old_versions "1.2.0" "2.32.4" X86_64 three_versions_world)
    !! canonical_file Runtime Aarch64 "1.0.0"
  = fs three_versions_world !! canonical_file Runtime Aarch64 "1.0.0".
Proof.
  apply (cleanup_old_versions_spares Runtime X86_64 Aarch64 "1.0.0"
           "1.2.0" "2.32.4" three_versions_world).
  - exists "1", "0", "0". repeat split; discriminate.
  - left. discriminate.
Defined.

(** X16. When no directory bears a stale name, [cleanup_old_versions]
    removes the archive or binary of each family that bears the name of
    its architecture and a version other than the one its family is
    compared with. *)
Theorem cleanup_old_versions_removes_old (f : family) (a : arch) v
    current_docker_version current_compose_version w :
  is_semver v ->
  (forall filename,
     stale current_docker_version current_compose_version (arch_name a)
       filename = true ->
     fs w !! filename <> Some Dir) ->
  v <> compared_version f current_docker_version current_compose_version ->
  fs (cleanup_old_versions current_docker_version current_compose_version
        a w) !! canonical_file f a v = None.
Proof.
  intros Hv Hdir Hne.
  rewrite cleanup_old_versions_canonical by assumption.
  apply String.eqb_neq in Hne. now rewrite Hne.
Qed.

Lemma list_to_map_no_dir (l : list (string * entry)) filename :
  Forall (fun p => snd p <> Dir) l ->
  (list_to_map l : gmap string entry) !! filename <> Some Dir.
Proof.
  intros Hall Hlook. apply elem_of_list_to_map_2 in Hlook.
  rewrite Forall_forall in Hall. now apply (Hall _ Hlook).
Qed.

Lemma cleanup_old_versions_removes_old_witness :
  fs (cleanup_old_versions "1.2.0" "2.32.4" X86_64 three_versions_world)
    !! canonical_file Runtime X86_64 "1.0.0" = None.
Proof.
  apply (cleanup_old_versions_removes_old Runtime X86_64 "1.0.0"
           "1.2.0" "2.32.4" three_versions_world).
  - exists "1", "0", "0". repeat split; discriminate.
  - intros filename _. apply list_to_map_no_dir.
    repeat constructor; discriminate.
  - discriminate.
Defined.

Lemma cleanup_old_versions_idempotent_witness :
  fs (cleanup_old_versions "1.2.0" "2.32.4" X86_64
        (cleanup_old_versions "1.2.0" "2.32.4" X86_64 three_versions_world))
  = fs (cleanup_old_versions "1.2.0" "2.32.4" X86_64 three_versions_world).
Proof.
  apply (cleanup_old_versions_idempotent "1.2.0" "2.32.4" X86_64
           three_versions_world).
  intros filename _. apply list_to_map_no_dir.
  repeat constructor; discriminate.
Defined.

Lemma cleanup_old_versions_aborts_witness :
  let w' := cleanup_old_versions "1.2.0" "2.32.4" X86_64
              stale_directory_world in
  (exists t, trace w' = t ++ [Log ERROR MsgCleanupFailed])
  /\ forall filename,
       family_stale Runtime "1.2.0" "2.32.4" "x86_64" filename = false ->
       fs w' !! filename = fs stale_directory_world !! filename.
Proof.
  apply (cleanup_old_versions_aborts "1.2.0" "2.32.4" X86_64
           stale_directory_world "docker-1.0.0-x86_64.tgz");
    reflexivity.
Defined.

(** ** The manifest *)

Lemma listed_manifest m : listed m "SHA256SUMS" = false.
Proof. unfold listed. now destruct (m !! "SHA256SUMS") as [[c|]|]. Qed.

Lemma rfind_append_none c s1 s2 :
  Str.rfind c s1 = None -> Str.rfind c s2 = None ->
  Str.rfind c (s1 +:+ s2) = None.
Proof.
  intros H1 H2. induction s1 as [|d s1 IH]; [exact H2|].
  change (Str.rfind c (String d (s1 +:+ s2)) = None).
  cbn [Str.rfind] in *.
  destruct (Str.rfind c s1); [discriminate|]. rewrite (IH eq_refl).
  exact H1.
Qed.

Lemma rfind_digits d : all_digits d = true -> Str.rfind "." d = None.
Proof.
  induction d as [|c d IH]; [reflexivity|]. intros H.
  change (Str.is_digit c && all_digits d = true) in H.
  apply andb_true_iff in H as [Hc Hd].
  cbn [Str.rfind]. rewrite (IH Hd). now rewrite digit_not_dot.
Qed.

(** [Path.suffix] of the name of a compose binary starts in its version:
    the manifest writer does not take the binary for a file to cover. *)
Lemma listed_compose_file m (a : arch) v :
  is_semver v -> listed m (canonical_file ComposeTool a v) = false.
Proof.
  intros (major & minor & patch & -> & _ & _ & [Hd Hne]).
  set (stem := "docker-compose-linux-" +:+ major +:+ "." +:+ minor).
  set (ext := patch +:+ "-" +:+ arch_name a).
  assert (Hname : canonical_file ComposeTool a
                    (major +:+ "." +:+ minor +:+ "." +:+ patch)
                  = stem +:+ "." +:+ ext).
  { unfold canonical_file, stem, ext. now rewrite !append_assoc. }
  rewrite Hname.
  assert (Hext : Str.rfind "." ext = None).
  { unfold ext. apply rfind_append_none; [now apply rfind_digits|].
    now destruct a. }
  assert (Hext' : ext <> EmptyString).
  { unfold ext. destruct patch; [congruence|discriminate]. }
  destruct (m !! (stem +:+ "." +:+ ext)) as [[content|]|] eqn:Hlook.
  - rewrite (listed_extension m stem ext content) by assumption.
    unfold stem. change (String.eqb ("." +:+ ext) ".tgz" = false).
    apply String.eqb_neq. unfold ext.
    destruct patch as [|c patch]; [congruence|].
    change (Str.is_digit c && all_digits patch = true) in Hd.
    apply andb_true_iff in Hd as [Hc _].
    intros Heq. injection Heq as Heq _. subst c. discriminate.
  - unfold listed. now rewrite Hlook.
  - unfold listed. now rewrite Hlook.
Qed.

Section ManifestMore.

Variable sha256_hex : string -> string.

Local Abbreviation create_checksums_file :=
  (create_checksums_file sha256_hex).

Lemma listed_agree (m1 m2 : gmap string entry) filename :
  (forall other, other <> "SHA256SUMS" -> m1 !! other = m2 !! other) ->
  listed m1 filename = listed m2 filename.
Proof.
  intros Hagree. destruct (decide (filename = "SHA256SUMS")) as [->|Hne].
  - now rewrite !listed_manifest.
  - unfold listed. now rewrite (Hagree filename Hne).
Qed.

Lemma create_checksums_file_agree w1 w2 :
  fs w1 !! "SHA256SUMS" <> Some Dir ->
  fs w2 !! "SHA256SUMS" <> Some Dir ->
  (forall other, other <> "SHA256SUMS" -> fs w1 !! other = fs w2 !! other) ->
  exists w1' w2',
    create_checksums_file w1 = Some w1'
    /\ create_checksums_file w2 = Some w2'
    /\ fs w1' = fs w2'.
Proof.
  intros Hdir1 Hdir2 Hagree.
  destruct (create_checksums_file_listing sha256_hex w1 Hdir1)
    as (w1' & cov1 & Hrun1 & Hother1 & Hman1 & Hsort1 & Hnd1 & Hcov1).
  destruct (create_checksums_file_listing sha256_hex w2 Hdir2)
    as (w2' & cov2 & Hrun2 & Hother2 & Hman2 & Hsort2 & Hnd2 & Hcov2).
  exists w1', w2'. splits; [assumption|assumption|].
  assert (Hcov : cov1 = cov2).
  { apply (StronglySorted_unique String.le); [assumption|assumption|].
    apply NoDup_Permutation; [assumption|assumption|].
    intros filename.
    now rewrite Hcov1, Hcov2, (listed_agree (fs w1) (fs w2) filename Hagree). }
  subst cov2.
  assert (Hlines : map (checksum_line sha256_hex (fs w1)) cov1
                   = map (checksum_line sha256_hex (fs w2)) cov1).
  { apply map_ext_in. intros filename Hin.
    apply list_elem_of_In, Hcov1 in Hin. unfold checksum_line.
    rewrite (Hagree filename); [reflexivity|].
    intros ->. now rewrite listed_manifest in Hin. }
  apply map_eq. intros filename.
  destruct (decide (filename = "SHA256SUMS")) as [->|Hne].
  - now rewrite Hman1, Hman2, Hlines.
  - now rewrite Hother1, Hother2, Hagree.
Qed.

(** X17. The manifest [create_checksums_file] writes does not depend on
    the manifest it replaces: from two directories that differ in the
    manifest only, it leaves the same directory. Hence running it again
    changes nothing. *)
Theorem create_checksums_file_ignores_old w1 w2 :
  fs w1 !! "SHA256SUMS" <> Some Dir ->
  fs w2 !! "SHA256SUMS" <> Some Dir ->
  (forall other, other <> "SHA256SUMS" -> fs w1 !! other = fs w2 !! other) ->
  exists w1' w2',
    create_checksums_file w1 = Some w1'
    /\ create_checksums_file w2 = Some w2'
    /\ fs w1' = fs w2'
    /\ exists w1'', create_checksums_file w1' = Some w1'' /\ fs w1'' = fs w1'.
Proof.
  intros Hdir1 Hdir2 Hagree.
  destruct (create_checksums_file_agree w1 w2 Hdir1 Hdir2 Hagree)
    as (w1' & w2' & Hrun1 & Hrun2 & Heq).
  exists w1', w2'. splits; try assumption.
  destruct (create_checksums_file_listing sha256_hex w1 Hdir1)
    as (v & cov & Hrun & Hother & Hman & _).
  assert (v = w1') by congruence. subst v.
  destruct (create_checksums_file_agree w1' w1) as (x & y & Hx & Hy & Hxy);
    [rewrite Hman; discriminate|assumption|exact Hother|].
  exists x. split; [exact Hx|]. congruence.
Qed.

(** X18. The manifest covers no compose binary under the name the
    orchestrator gives it, [docker-compose-linux-<version>-<arch>], whether
    the binary is in the directory or not: [Path.suffix] of such a name
    starts at the last dot of the version, and is neither [.tgz] nor
    empty. *)
Theorem create_checksums_file_omits_compose w (a : arch) v :
  fs w !! "SHA256SUMS" <> Some Dir ->
  is_semver v ->
  exists w' covered,
    create_checksums_file w = Some w'
    /\ fs w' !! "SHA256SUMS" =
       Some (File (String.concat ""
                     (map (checksum_line sha256_hex (fs w)) covered)))
    /\ ~ (canonical_file ComposeTool a v ∈ covered)
    /\ Str.suffix (canonical_file ComposeTool a v) <> ".tgz"
    /\ Str.suffix (canonical_file ComposeTool a v) <> "".
Proof.
  intros Hdir Hv.
  destruct (create_checksums_file_listing sha256_hex w Hdir)
    as (w' & covered & Hrun & _ & Hman & _ & _ & Hcov).
  exists w', covered. splits; try assumption.
  - rewrite Hcov, listed_compose_file by assumption. discriminate.
  - pose proof (listed_compose_file
                  {[ canonical_file ComposeTool a v := File "" ]} a v Hv)
      as Hl.
    unfold listed in Hl. rewrite lookup_singleton_eq in Hl.
    intros Heq. rewrite Heq in Hl. discriminate.
  - pose proof (listed_compose_file
                  {[ canonical_file ComposeTool a v := File "" ]} a v Hv)
      as Hl.
    unfold listed in Hl. rewrite lookup_singleton_eq in Hl.
    intros Heq. rewrite Heq in Hl.
    assert (Hname : String.eqb (canonical_file ComposeTool a v) "SHA256SUMS"
                    = false) by now destruct a.
    rewrite Hname in Hl. discriminate.
Qed.

End ManifestMore.

Lemma create_checksums_file_ignores_old_witness :
  exists w1' w2',
    create_checksums_file toy_digest mirror_world = Some w1'
    /\ create_checksums_file toy_digest
         (set_fs (delete "SHA256SUMS" (fs mirror_world)) mirror_world)
       = Some w2'
    /\ fs w1' = fs w2'
    /\ exists w1'',
        create_checksums_file toy_digest w1' = Some w1''
        /\ fs w1'' = fs w1'.
Proof.
  apply (create_checksums_file_ignores_old toy_digest mirror_world
           (set_fs (delete "SHA256SUMS" (fs mirror_world)) mirror_world)).
  - vm_compute. discriminate.
  - simpl. rewrite lookup_delete_eq. discriminate.
  - intros other Hne. simpl. now rewrite lookup_delete_ne.
Defined.

Lemma create_checksums_file_omits_compose_witness :
  exists w' covered,
    create_checksums_file toy_digest mirror_world = Some w'
    /\ fs w' !! "SHA256SUMS" =
       Some (File (String.concat ""
                     (map (checksum_line toy_digest (fs mirror_world))
                        covered)))
    /\ ~ (canonical_file ComposeTool X86_64 "2.32.4" ∈ covered)
    /\ Str.suffix (canonical_file ComposeTool X86_64 "2.32.4") <> ".tgz"
    /\ Str.suffix (canonical_file ComposeTool X86_64 "2.32.4") <> "".
Proof.
  apply (create_checksums_file_omits_compose toy_digest mirror_world
           X86_64 "2.32.4").
  - vm_compute. discriminate.
  - exists "2", "32", "4". repeat split; discriminate.
Defined.

(** ** The loop of [update] over the architectures *)

Lemma grows_trans w1 w2 w3 ok1 lo1 hi1 ok2 lo2 hi2 :
  grows w1 w2 ok1 lo1 hi1 -> grows w2 w3 ok2 lo2 hi2 ->
  grows w1 w3 (ok1 + ok2) (lo1 + lo2) (hi1 + hi2).
Proof.
  intros (K1 & O1 & F1) (K2 & O2 & F2). unfold grows.
  splits; auto; lia.
Qed.

Section UpdateLoopFacts.

Variable net : network.
Variable sha256_hex : string -> string.
Variable set_iter : list string -> list string.

Local Abbreviation download_for_architecture :=
  (download_for_architecture net sha256_hex set_iter).
Local Abbreviation loop := (download_loop net sha256_hex set_iter).

Lemma resolve_static_version_for_arch_frame arch desired_version w :
  let w' :=
    snd (resolve_static_version_for_arch net set_iter arch desired_version
           w) in
  fs w' = fs w /\ download_stats w' = download_stats w.
Proof.
  unfold resolve_static_version_for_arch, check_url_exists.
  destruct (head_ok net (clock w) (docker_url_template arch desired_version));
    [split; reflexivity|].
  pose proof (list_versions_frame net set_iter "docker-" arch
                (emit (Head (docker_url_template arch desired_version)) w))
    as (Hfs & Hst & _).
  unfold list_static_versions.
  destruct (list_versions net set_iter "docker-" arch
              (emit (Head (docker_url_template arch desired_version)) w))
    as [[|fallback rest] w1]; simpl in *; split; assumption.
Qed.

(** The totals of the loop, from any totals on. *)
Lemma download_loop_grows architectures docker_version compose_version :
  forall total_success total_count w,
    let r := loop architectures docker_version compose_version
               total_success total_count w in
    let n := Z.of_nat (length architectures) in
    snd (fst r) = total_count + 3 * n
    /\ total_success <= fst (fst r) <= total_success + 3 * n
    /\ grows w (snd r) (fst (fst r) - total_success) 0
         (4 * n - (fst (fst r) - total_success)).
Proof.
  induction architectures as [|a rest IH]; intros total_success total_count w.
  - simpl. unfold grows. splits; auto; lia.
  - cbn [download_loop length].
    pose proof (resolve_static_version_for_arch_frame
                  (docker_arch (arch_mapping a)) docker_version w)
      as (Rfs & Rst).
    destruct (resolve_static_version_for_arch net set_iter
                (docker_arch (arch_mapping a)) docker_version w)
      as [resolved_version w1].
    pose proof (download_for_architecture_grows net sha256_hex set_iter a
                  resolved_version compose_version w1)
      as (Hcount & Hrange & Hgrows).
    destruct (download_for_architecture a resolved_version compose_version
                w1) as [[success count] w2].
    cbn [fst snd] in *. subst count.
    specialize (IH (total_success + success) (total_count + 3) w2).
    destruct IH as (IHcount & IHrange & IHgrows).
    assert (Hfirst : grows w w2 success 0 (4 - success)).
    { destruct Hgrows as (K & O & F). unfold grows, obtained in *.
      rewrite Rfs, Rst in *. splits; auto; lia. }
    pose proof (grows_trans _ _ _ _ _ _ _ _ _ Hfirst IHgrows)
      as (K & O & F).
    unfold grows. splits; auto; lia.
Qed.

(** X19. The loop of [update] over the architectures counts three slots
    for each architecture and at most as many successes; the successes it
    counts are as many as the calls of [download_file] the counters record
    as downloaded or skipped during the loop, and it removes and rewrites
    no entry of the directory. Hence the value [update] returns, when it
    returns, is [True] exactly when [success] and [skipped] together have
    grown by three for each architecture during the loop. *)
Theorem download_loop_totals architectures docker_version compose_version w :
  let r := download_loop net sha256_hex set_iter architectures
             docker_version compose_version 0 0 w in
  let n := Z.of_nat (length architectures) in
  snd (fst r) = 3 * n
  /\ 0 <= fst (fst r) <= 3 * n
  /\ obtained (snd r) = obtained w + fst (fst r)
  /\ (forall filename e,
        fs w !! filename = Some e -> fs (snd r) !! filename = Some e)
  /\ (update_succeeds net sha256_hex set_iter architectures docker_version
        compose_version w = true
      <-> obtained (snd r) = obtained w + 3 * n).
Proof.
  intros r n. subst r n.
  destruct (download_loop_grows architectures docker_version
              compose_version 0 0 w) as (Hcount & Hrange & K & O & F).
  unfold update_succeeds.
  destruct (loop architectures docker_version compose_version
              0 0 w) as [[total_success total_count] w'].
  cbn [fst snd] in *. splits; auto; lia.
Qed.

End UpdateLoopFacts.

(** ** The version of a release tag *)

Lemma version_not_digit c s :
  Str.is_digit c = false -> Re.version (String c s) = None.
Proof.
  intros Hc. unfold Re.version, Re.digits1. cbn [Re.span_digits].
  now rewrite Hc.
Qed.

Lemma search_version_unfold tag :
  search_version tag
  = match Re.version tag with
    | Some (v, _) => Some v
    | None =>
        match tag with
        | EmptyString => None
        | String _ tag' => search_version tag'
        end
    end.
Proof. destruct tag; reflexivity. Qed.

(** The search passes what holds no digit. *)
Lemma search_version_skip p s :
  no_digit p = true -> search_version (p +:+ s) = search_version s.
Proof.
  induction p as [|c p IH]; intros Hp; [reflexivity|].
  change (negb (Str.is_digit c) && no_digit p = true) in Hp.
  apply andb_true_iff in Hp as [Hc Hp]. apply negb_true_iff in Hc.
  change (String c p +:+ s) with (String c (p +:+ s)).
  rewrite search_version_unfold, version_not_digit by assumption.
  now apply IH.
Qed.

Lemma search_version_sound tag :
  forall v, search_version tag = Some v ->
            is_semver v /\ Str.contains v tag = true.
Proof.
  induction tag as [|c tag IH]; intros v; [discriminate|].
  rewrite search_version_unfold.
  destruct (Re.version (String c tag)) as [[v' r]|] eqn:Hver.
  - intros [= ->]. split; [now apply version_semver in Hver|].
    pose proof (version_app _ _ _ Hver) as Happ.
    apply contains_here. rewrite Happ. apply startswith_append.
  - intros Hs. destruct (IH v Hs) as [Hv Hc]. split; [exact Hv|].
    now apply contains_later.
Qed.

(** X20. From a tag made of a prefix without digit, a version
    [MAJOR.MINOR.PATCH] and a rest that does not go on with a digit, as
    [v29.1.3], [docker-v29.1.3] or [engine-v29.1.3-rc.1],
    [get_latest_docker_version] and [get_latest_compose_version] make
    the version. *)
Theorem tag_version_of_prefixed_tag p v r :
  no_digit p = true -> is_semver v -> stops_digits r ->
  docker_tag_version (p +:+ v +:+ r) = v
  /\ compose_tag_version (p +:+ v +:+ r) = v.
Proof.
  intros Hp Hv Hr.
  assert (Hs : search_version (p +:+ v +:+ r) = Some v).
  { rewrite search_version_skip by assumption.
    rewrite search_version_unfold.
    now rewrite version_of_semver by assumption. }
  unfold docker_tag_version, compose_tag_version. now rewrite Hs.
Qed.

Lemma tag_version_of_prefixed_tag_witness :
  docker_tag_version "docker-v29.1.3" = "29.1.3"
  /\ compose_tag_version "docker-v29.1.3" = "29.1.3".
Proof.
  apply (tag_version_of_prefixed_tag "docker-v" "29.1.3" "").
  - reflexivity.
  - exists "29", "1", "3". repeat split; discriminate.
  - exact I.
Defined.

(** X21. Whenever the tag of the latest release holds a match of
    [\d+\.\d+\.\d+], [get_latest_docker_version] and
    [get_latest_compose_version] make the same version of it, which has
    the form [MAJOR.MINOR.PATCH] and occurs in the tag: the stripping of
    [v], [docker-] and [engine-] plays no part. *)
Theorem tag_version_sound tag v :
  search_version tag = Some v ->
  docker_tag_version tag = v
  /\ compose_tag_version tag = v
  /\ is_semver v
  /\ Str.contains v tag = true.
Proof.
  intros Hs. destruct (search_version_sound tag v Hs) as [Hv Hc].
  unfold docker_tag_version, compose_tag_version. rewrite Hs.
  splits; auto.
Qed.

Lemma tag_version_sound_witness :
  docker_tag_version "engine-v29.1.3-rc.1" = "29.1.3"
  /\ compose_tag_version "engine-v29.1.3-rc.1" = "29.1.3"
  /\ is_semver "29.1.3"
  /\ Str.contains "29.1.3" "engine-v29.1.3-rc.1" = true.
Proof.
  apply (tag_version_sound "engine-v29.1.3-rc.1" "29.1.3"). reflexivity.
Defined.
